(** * GradeFlow: the grade-report tool (gradeReport/main.go)

    A shallow embedding of the match-and-group engine of the grade-report
    tool and the properties its specification states about it.

    Go strings are byte sequences: they are modelled by [string] (a list of
    8-bit characters), compared byte-wise as Go's [<] does.  Go maps are
    modelled by stdpp's [gmap]; since Go iterates over a map in an
    unspecified order, every [for ... range] over a map takes the order of
    iteration as an explicit list of entries.  The files written and the
    lines logged are threaded through the functions that produce them, and
    the answers of the operating system are an argument of the run.

    The file has three parts: the program, the vocabulary in which its
    properties are stated, and the properties. *)

From Stdlib Require Import ZArith Ascii String List Permutation Sorted Lia.
From stdpp Require Import base tactics option list strings gmap sorting.

Open Scope string_scope.
Open Scope list_scope.
Open Scope nat_scope.

(** ** Library functions of Go used by the program *)

Module GoStrings.

(** The bytes of a string, as numbers. *)
Fixpoint codes (s : string) : list N :=
  match s with
  | EmptyString => []
  | String c s' => N_of_ascii c :: codes s'
  end.

Fixpoint of_codes (l : list N) : string :=
  match l with
  | [] => EmptyString
  | n :: l' => String (ascii_of_N n) (of_codes l')
  end.

(** UTF-8 encodings of the runes for which [unicode.IsSpace] holds:
    tab, LF, VT, FF, CR, space, U+0085, U+00A0, U+1680, U+2000..U+200A,
    U+2028, U+2029, U+202F, U+205F and U+3000. *)
Definition spaceRunes : list (list N) :=
  [ [9]; [10]; [11]; [12]; [13]; [32];
    [194; 133]; [194; 160];
    [225; 154; 128];
    [226; 128; 128]; [226; 128; 129]; [226; 128; 130]; [226; 128; 131];
    [226; 128; 132]; [226; 128; 133]; [226; 128; 134]; [226; 128; 135];
    [226; 128; 136]; [226; 128; 137]; [226; 128; 138];
    [226; 128; 168]; [226; 128; 169]; [226; 128; 175];
    [226; 129; 159];
    [227; 128; 128] ]%N.

(** [stripRune p bs] removes the encoded rune [p] from the front of [bs]. *)
Fixpoint stripRune (p bs : list N) : option (list N) :=
  match p, bs with
  | [], _ => Some bs
  | _ :: _, [] => None
  | x :: p', b :: bs' => if N.eqb x b then stripRune p' bs' else None
  end.

Fixpoint stripAny (ps : list (list N)) (bs : list N) : option (list N) :=
  match ps with
  | [] => None
  | p :: ps' =>
      match stripRune p bs with
      | Some r => Some r
      | None => stripAny ps' bs
      end
  end.

(** Drops runes of [ps] from the front while one is there; every step
    removes at least one byte, so [length bs] steps are enough. *)
Fixpoint trimFront (ps : list (list N)) (fuel : nat) (bs : list N) : list N :=
  match fuel with
  | O => bs
  | S fuel' =>
      match stripAny ps bs with
      | Some r => trimFront ps fuel' r
      | None => bs
      end
  end.

Definition trimLeftSpace (bs : list N) : list N :=
  trimFront spaceRunes (length bs) bs.

(** Trimming at the end: the last rune is a space exactly when the bytes
    end with one of the encodings above, read backwards here. *)
Definition trimRightSpace (bs : list N) : list N :=
  rev (trimFront (map (@rev N) spaceRunes) (length bs) (rev bs)).

(** [strings.TrimSpace]: leading white space is removed first, then
    trailing white space of what is left. *)
Definition TrimSpace (s : string) : string :=
  of_codes (trimRightSpace (trimLeftSpace (codes s))).

(** Go's [s1 < s2] on strings: byte-wise lexicographic order. *)
Definition lt (s1 s2 : string) : bool := String.ltb s1 s2.

End GoStrings.

Module Strconv.

Definition digit (c : ascii) : option Z :=
  let n := Z.of_N (N_of_ascii c) in
  if (48 <=? n)%Z && (n <=? 57)%Z then Some (n - 48)%Z else None.

(** The value of a run of decimal digits, [None] on any other byte. *)
Fixpoint digits (acc : Z) (s : string) : option Z :=
  match s with
  | EmptyString => Some acc
  | String c s' =>
      match digit c with
      | Some d => digits (acc * 10 + d)%Z s'
      | None => None
      end
  end.

Definition unsigned (s : string) : option Z :=
  match s with
  | EmptyString => None
  | _ => digits 0 s
  end.

(** [strconv.Atoi] on a 64-bit platform: an optional sign, then one or
    more decimal digits, the value within the range of [int]; any other
    string is an error ([None]). *)
Definition Atoi (s : string) : option Z :=
  let signed :=
    match s with
    | String "-" s' => Z.opp <$> unsigned s'
    | String "+" s' => unsigned s'
    | _ => unsigned s
    end in
  match signed with
  | Some n =>
      if (- 2 ^ 63 <=? n)%Z && (n <=? 2 ^ 63 - 1)%Z then Some n else None
  | None => None
  end.

End Strconv.

Import GoStrings Strconv.

(** ** Record model *)

(** Fixed field indices of a grade row. *)
Definition FieldSubjectCode : nat := 0.
Definition FieldSubjectName : nat := 1.
Definition FieldStudentID : nat := 2.
Definition FieldYear : nat := 3.
Definition FieldClass : nat := 4.
Definition FieldSeatNumber : nat := 5.
Definition FieldStudentName : nat := 6.
Definition FieldGroup : nat := 7.
Definition FieldScore : nat := 13.

Record GradeRecord := mkGrade { Row : list string }.

Definition getField (g : GradeRecord) (index : nat) : string :=
  match Row g !! index with
  | Some cell => TrimSpace cell
  | None => ""
  end.

Definition SubjectCode (g : GradeRecord) : string := getField g FieldSubjectCode.
Definition SubjectName (g : GradeRecord) : string := getField g FieldSubjectName.
Definition StudentID (g : GradeRecord) : string := getField g FieldStudentID.
Definition Year (g : GradeRecord) : string := getField g FieldYear.
Definition Class (g : GradeRecord) : string := getField g FieldClass.
Definition SeatNumber (g : GradeRecord) : string := getField g FieldSeatNumber.
Definition StudentName (g : GradeRecord) : string := getField g FieldStudentName.
Definition Group (g : GradeRecord) : string := getField g FieldGroup.
Definition Score (g : GradeRecord) : string := getField g FieldScore.

(** The fields of [TeacherRecord] and [ReportKey] carry a prefix ([t], [k]):
    their names in the program are those of the accessors of [GradeRecord]. *)
Record TeacherRecord := mkTeacher {
  tSubjectCode : string;
  tSubjectName : string;
  tYear : string;
  tClass : string;
  tGroup : string;
  tTeacherName : string;
  tEmail : string
}.

Record ReportKey := mkReportKey {
  kTeacherName : string;
  kYear : string;
  kSubjectCode : string;
  kSubjectName : string
}.

Record EmailSettings := mkSettings {
  SenderEmail : string;
  ShouldSendEmail : string;
  EmailTitle : string
}.

#[global] Instance GradeRecord_eq_dec : EqDecision GradeRecord.
Proof. solve_decision. Defined.

#[global] Instance TeacherRecord_eq_dec : EqDecision TeacherRecord.
Proof. solve_decision. Defined.

#[global] Instance ReportKey_eq_dec : EqDecision ReportKey.
Proof. solve_decision. Defined.

Definition ReportKey_to_tuple (k : ReportKey) : string * string * string * string :=
  (kTeacherName k, kYear k, kSubjectCode k, kSubjectName k).

Definition ReportKey_of_tuple (t : string * string * string * string) : ReportKey :=
  let '(a, b, c, d) := t in mkReportKey a b c d.

#[global] Instance ReportKey_countable : Countable ReportKey.
Proof.
  apply (inj_countable' ReportKey_to_tuple ReportKey_of_tuple).
  intros []; reflexivity.
Defined.

(** ** Teacher index *)

(** [fmt.Sprintf("%s_%s_%s", a, b, c)]. *)
Definition Sprintf_key (a b c : string) : string := a +:+ "_" +:+ b +:+ "_" +:+ c.

Definition teacherKey (t : TeacherRecord) : string :=
  Sprintf_key (tSubjectCode t) (tYear t) (tClass t).

Definition gradeKey (g : GradeRecord) : string :=
  Sprintf_key (SubjectCode g) (Year g) (Class g).

Definition buildTeacherMap (teachers : list TeacherRecord) : gmap string TeacherRecord :=
  foldl (fun teacherMap teacher => <[teacherKey teacher := teacher]> teacherMap) ∅ teachers.

(** ** Matcher / grouper *)

(** [reportData[key] = append(reportData[key], grade)]: a missing key reads
    as the nil slice. *)
Definition appendTo (reportData : gmap ReportKey (list GradeRecord))
    (key : ReportKey) (grade : GradeRecord) : gmap ReportKey (list GradeRecord) :=
  <[key := default [] (reportData !! key) ++ [grade]]> reportData.

Definition reportKeyOf (teacher : TeacherRecord) (grade : GradeRecord) : ReportKey :=
  {| kTeacherName := tTeacherName teacher;
     kYear := Year grade;
     kSubjectCode := SubjectCode grade;
     kSubjectName := SubjectName grade |}.

(** One iteration of the loop of [matchStudentsToTeachers]. *)
Definition matchStep (teacherMap : gmap string TeacherRecord)
    (st : gmap ReportKey (list GradeRecord) * list GradeRecord)
    (grade : GradeRecord) : gmap ReportKey (list GradeRecord) * list GradeRecord :=
  let '(reportData, errorRecords) := st in
  match teacherMap !! gradeKey grade with
  | None => (reportData, errorRecords ++ [grade])
  | Some teacher => (appendTo reportData (reportKeyOf teacher grade) grade, errorRecords)
  end.

Definition matchStudentsToTeachers (grades : list GradeRecord)
    (teacherMap : gmap string TeacherRecord)
    : gmap ReportKey (list GradeRecord) * list GradeRecord :=
  foldl (matchStep teacherMap) (∅, []) grades.

(** ** Reading the two tables

    [encoding/csv] is outside the program: the readers below start from the
    records that [reader.ReadAll] returned. *)

Inductive LogEntry :=
  | WarnShortRow (line fields : nat)
  | ErrErrorCSV
  | ErrMkdir
  | ErrReport (filename : string)
  | ErrSettings.

(** [paddedRow := make([]string, len(csvHeaders)); copy(paddedRow, row)],
    done only when the row is shorter than the header. *)
Definition padRow (width : nat) (row : list string) : list string :=
  if length row <? width then row ++ replicate (width - length row) "" else row.

(** The loop [for i := 1; i < len(records); i++] of [readGradeCSV]; [i] is
    the index of the first row of [rows] in [records]. *)
Fixpoint readGradeRows (csvHeaders : list string) (i : nat)
    (rows : list (list string)) : list GradeRecord * list LogEntry :=
  match rows with
  | [] => ([], [])
  | row :: rest =>
      let '(grades, log) := readGradeRows csvHeaders (S i) rest in
      if length row =? 0 then (grades, log)
      else if length row <? FieldStudentName + 1
      then (grades, WarnShortRow (i + 1) (length row) :: log)
      else (mkGrade (padRow (length csvHeaders) row) :: grades, log)
  end.

(** The header that [readGradeCSV] stores in the global [csvHeaders]: the
    first record, and the initial nil slice when there is none. *)
Definition headerOf (records : list (list string)) : list string :=
  match records with
  | [] => []
  | header :: _ => header
  end.

Definition readGradeCSV (records : list (list string))
    : list GradeRecord * list LogEntry :=
  readGradeRows (headerOf records) 1 (tail records).

(** The body of the loop of [readTeacherCSV]: [None] when [len(record) < 7]. *)
Definition teacherOfRecord (record : list string) : option TeacherRecord :=
  match record with
  | c0 :: c1 :: c2 :: c3 :: c4 :: c5 :: c6 :: _ =>
      Some {| tSubjectCode := TrimSpace c0;
              tSubjectName := TrimSpace c1;
              tYear := TrimSpace c2;
              tClass := TrimSpace c3;
              tGroup := TrimSpace c4;
              tTeacherName := TrimSpace c5;
              tEmail := TrimSpace c6 |}
  | _ => None
  end.

Definition readTeacherCSV (records : list (list string)) : list TeacherRecord :=
  omap teacherOfRecord (tail records).

(** ** Output files *)

Module Filepath.

(** The elements of a path between its slashes. *)
Fixpoint split (path : string) : list string :=
  match path with
  | EmptyString => [""]
  | String c rest =>
      if Ascii.eqb c "/" then "" :: split rest
      else match split rest with
           | elem :: elems => String c elem :: elems
           | [] => [String c ""]
           end
  end.

(** One element of the path seen by [Clean]; [out] holds the elements
    kept so far, the last one first. *)
Definition cleanStep (rooted : bool) (out : list string) (elem : string)
    : list string :=
  if String.eqb elem "" || String.eqb elem "." then out
  else if String.eqb elem ".." then
    match out with
    | top :: below => if String.eqb top ".." then elem :: out else below
    | [] => if rooted then [] else [elem]
    end
  else elem :: out.

Definition isRooted (path : string) : bool :=
  match path with
  | String c _ => Ascii.eqb c "/"
  | EmptyString => false
  end.

(** [filepath.Clean] with the separator [/]. *)
Definition Clean (path : string) : string :=
  let rooted := isRooted path in
  let out := rev (foldl (cleanStep rooted) [] (split path)) in
  if rooted then "/" +:+ String.concat "/" out
  else match out with
       | [] => "."
       | _ => String.concat "/" out
       end.

(** [filepath.Join] of two elements: empty elements are ignored, the
    rest is joined with the separator and cleaned. *)
Definition Join (a b : string) : string :=
  if String.eqb a "" then (if String.eqb b "" then "" else Clean b)
  else if String.eqb b "" then Clean a
  else Clean (a +:+ "/" +:+ b).

End Filepath.

(** What the operating system answers: whether [os.MkdirAll] of the output
    directory and [os.Create] of a path succeed, and how many records a file
    takes before a write to it fails ([write_quota]; [None]: no limit).

    The records do not go to the file directly.  [csv.NewWriter] puts a
    buffer before it: [Write] returns nil as long as the record fits the
    buffer, a failed write to the file shows as the error of a later [Write],
    the one that has to pass the buffer on, and the error of the deferred
    [Flush] is never read.  [write_lag] says how many further calls of
    [Write] return nil after the first record that the file does not take
    ([None]: every one of them, so that the failure goes unnoticed). *)
Record IOEnv := mkEnv {
  mkdir_ok : bool;
  create_ok : string -> bool;
  write_quota : string -> option nat;
  write_lag : string -> option nat
}.

(** The files written: path to the records they hold in full, in order. *)
Abbreviation Disk := (gmap string (list (list string))).

(** Whether the file takes its record number [written]. *)
Definition canWrite (quota : option nat) (written : nat) : bool :=
  match quota with
  | None => true
  | Some q => written <? q
  end.

(** Whether the call number [written] of [writer.Write] returns an error. *)
Definition writeFails (quota lag : option nat) (written : nat) : bool :=
  match quota, lag with
  | Some q, Some d => q + d <=? written
  | _, _ => false
  end.

(** [for _, r := range rows { if err := writer.Write(r); err != nil { return err } }]:
    the records handed to the writer and whether all of them were. *)
Fixpoint writeRows (quota lag : option nat) (written : nat)
    (rows : list (list string)) : list (list string) * bool :=
  match rows with
  | [] => ([], true)
  | row :: rest =>
      if writeFails quota lag written then ([], false)
      else
        let '(done, ok) := writeRows quota lag (S written) rest in (row :: done, ok)
  end.

(** [defer writer.Flush()] and [defer file.Close()]: of the records handed to
    the writer, the ones that the file holds when it is closed. *)
Fixpoint flushed (quota : option nat) (written : nat)
    (records : list (list string)) : list (list string) :=
  match records with
  | [] => []
  | record :: rest =>
      if canWrite quota written then record :: flushed quota (S written) rest
      else []
  end.

Definition outputDir : string := "output".

(** [generateErrorCSV]: the disk afterwards, and whether an error is
    returned. *)
Definition generateErrorCSV (env : IOEnv) (csvHeaders : list string)
    (disk : Disk) (errorRecords : list GradeRecord) : Disk * bool :=
  if negb (mkdir_ok env) then (disk, true)
  else
    let filename := Filepath.Join outputDir "error.csv" in
    if negb (create_ok env filename) then (disk, true)
    else
      let quota := write_quota env filename in
      let lag := write_lag env filename in
      if writeFails quota lag 0 then (<[filename := []]> disk, true)
      else
        let '(done, ok) := writeRows quota lag 1 (Row <$> errorRecords) in
        (<[filename := flushed quota 0 (csvHeaders :: done)]> disk, negb ok).

(** The block [if len(errorRecords) > 0 { ... }] of [main]: the export of
    the unmatched rows, on a disk that holds no file yet. *)
Definition exportUnmatched (env : IOEnv) (csvHeaders : list string)
    (log : list LogEntry) (errorRecords : list GradeRecord)
    : Disk * list LogEntry :=
  if 0 <? length errorRecords then
    let '(disk, err) := generateErrorCSV env csvHeaders ∅ errorRecords in
    (disk, if err then log ++ [ErrErrorCSV] else log)
  else (∅, log).

(** The less function given to [sort.Slice] in [createCSVReport]. *)
Definition gradeLess (a b : GradeRecord) : bool :=
  if negb (String.eqb (Class a) (Class b)) then lt (Class a) (Class b)
  else
    match Atoi (SeatNumber a), Atoi (SeatNumber b) with
    | Some seatI, Some seatJ => (seatI <? seatJ)%Z
    | _, _ => lt (SeatNumber a) (SeatNumber b)
    end.

(** [fmt.Sprintf("%s_年級%s_%s.csv", key.TeacherName, key.Year, key.SubjectName)]
    joined to the output directory. *)
Definition reportBaseName (key : ReportKey) : string :=
  kTeacherName key +:+ "_年級" +:+ kYear key +:+ "_" +:+ kSubjectName key +:+ ".csv".

Definition reportFileName (key : ReportKey) : string :=
  Filepath.Join outputDir (reportBaseName key).

(** [getTeacherNameByEmail]. *)
Fixpoint getTeacherNameByEmail (teachers : list TeacherRecord) (email : string)
    : string :=
  match teachers with
  | [] => email
  | teacher :: rest =>
      if String.eqb (tEmail teacher) email then tTeacherName teacher
      else getTeacherNameByEmail rest email
  end.

(** The inner loop of [groupReportsByTeacher]: the first teacher whose key
    is [matchKey] gets the file, then the loop breaks. *)
Fixpoint attachToFirst (matchKey filename : string) (teachers : list TeacherRecord)
    (teacherFiles : gmap string (list string)) : gmap string (list string) :=
  match teachers with
  | [] => teacherFiles
  | teacher :: rest =>
      if String.eqb (teacherKey teacher) matchKey
      then <[tEmail teacher :=
               default [] (teacherFiles !! tEmail teacher) ++ [filename]]> teacherFiles
      else attachToFirst matchKey filename rest teacherFiles
  end.

(** One iteration of the outer loop of [groupReportsByTeacher]. *)
Definition groupStep (reportData : gmap ReportKey (list GradeRecord))
    (teachers : list TeacherRecord) (teacherFiles : gmap string (list string))
    (entry : ReportKey * string) : gmap string (list string) :=
  let '(key, filename) := entry in
  match default [] (reportData !! key) with
  | grade :: _ => attachToFirst (gradeKey grade) filename teachers teacherFiles
  | [] => teacherFiles
  end.

(** [groupReportsByTeacher], the entries of [reportFiles] being visited in
    the order [visited]. *)
Definition groupReportsByTeacher (visited : list (ReportKey * string))
    (reportData : gmap ReportKey (list GradeRecord))
    (teachers : list TeacherRecord) : gmap string (list string) :=
  foldl (groupStep reportData teachers) ∅ visited.

(** The order in which one run of the program visits the entries of each
    map it ranges over. *)
Record Schedule := mkSchedule {
  rangeReportData :
    gmap ReportKey (list GradeRecord) -> list (ReportKey * list GradeRecord);
  rangeReportFiles : gmap ReportKey string -> list (ReportKey * string);
  rangeTeacherFiles : gmap string (list string) -> list (string * list string)
}.

Definition validSchedule (s : Schedule) : Prop :=
  (forall m, rangeReportData s m ≡ₚ map_to_list m) /\
  (forall m, rangeReportFiles s m ≡ₚ map_to_list m) /\
  (forall m, rangeTeacherFiles s m ≡ₚ map_to_list m).

(** A mail handed to [sendEmail]: recipient address, recipient name and
    attachments. *)
Record Mail := mkMail {
  mailTo : string;
  mailName : string;
  mailFiles : list string
}.

Inductive Outcome :=
  | FatalGradeFile
  | FatalTeacherFile
  | FatalNoReports
  | SettingsUnreadable
  | EmailDisabled
  | EmailsSent (mails : list Mail).

Definition isFatal (o : Outcome) : bool :=
  match o with
  | FatalGradeFile | FatalTeacherFile | FatalNoReports => true
  | _ => false
  end.

Record Run := mkRun {
  outcome : Outcome;
  disk : Disk;
  logged : list LogEntry;
  buckets : gmap ReportKey (list GradeRecord);
  unmatched : list GradeRecord;
  reportFiles : gmap ReportKey string
}.

(** What one run reads: the records of the two tables and the settings,
    [None] when the file cannot be read or parsed. *)
Record Inputs := mkInputs {
  gradeCSV : option (list (list string));
  teacherCSV : option (list (list string));
  settingsJSON : option EmailSettings
}.

Module InsertionSort.
Section Sort.
Context {A : Type} (less : A -> A -> bool).

(** The inner loop: [x] moves towards the front past every element it is
    less than; [sortedRev] is the sorted part, its last element first. *)
Fixpoint insertBack (x : A) (sortedRev : list A) : list A :=
  match sortedRev with
  | [] => [x]
  | p :: rest => if less x p then p :: insertBack x rest else x :: sortedRev
  end.

Definition sort (l : list A) : list A :=
  reverse (foldl (fun sortedRev x => insertBack x sortedRev) [] l).
End Sort.
End InsertionSort.

Section Pipeline.

(** [sort.Slice] at the type of grade rows.  The library function is not
    part of the program; it enters through what its documentation
    promises (see [SliceSorts] below). *)
Variable sort_Slice :
  (GradeRecord -> GradeRecord -> bool) -> list GradeRecord -> list GradeRecord.

(** [createCSVReport]: the disk afterwards, the bucket as the in-place
    sort leaves it, and whether an error is returned. *)
Definition createCSVReport (env : IOEnv) (csvHeaders : list string)
    (disk : Disk) (filename : string) (key : ReportKey)
    (grades : list GradeRecord) : Disk * list GradeRecord * bool :=
  if negb (create_ok env filename) then (disk, grades, true)
  else
    let quota := write_quota env filename in
    let lag := write_lag env filename in
    if writeFails quota lag 0 then (<[filename := []]> disk, grades, true)
    else
      let grades := sort_Slice gradeLess grades in
      let '(done, ok) := writeRows quota lag 1 (Row <$> grades) in
      (<[filename := flushed quota 0 (csvHeaders :: done)]> disk, grades, negb ok).

(** One iteration of the loop of [generateCSVReports].  The slice sorted
    by [createCSVReport] shares its array with the one stored in
    [reportData], so the map sees the sorted bucket afterwards. *)
Definition reportStep (env : IOEnv) (csvHeaders : list string)
    (st : Disk * gmap ReportKey (list GradeRecord) * gmap ReportKey string
          * list LogEntry)
    (entry : ReportKey * list GradeRecord)
    : Disk * gmap ReportKey (list GradeRecord) * gmap ReportKey string
      * list LogEntry :=
  let '(disk, reportData, reportFiles, log) := st in
  let '(key, grades) := entry in
  let filename := reportFileName key in
  let '(disk, grades, err) :=
    createCSVReport env csvHeaders disk filename key grades in
  let reportData := <[key := grades]> reportData in
  if err then (disk, reportData, reportFiles, log ++ [ErrReport filename])
  else (disk, reportData, <[key := filename]> reportFiles, log).

(** [generateCSVReports], the entries of [reportData] being visited in
    the order [visited]. *)
Definition generateCSVReports (env : IOEnv) (csvHeaders : list string)
    (disk : Disk) (reportData : gmap ReportKey (list GradeRecord))
    (visited : list (ReportKey * list GradeRecord))
    : Disk * gmap ReportKey (list GradeRecord) * gmap ReportKey string
      * list LogEntry :=
  if negb (mkdir_ok env) then (disk, reportData, ∅, [ErrMkdir])
  else foldl (reportStep env csvHeaders) (disk, reportData, ∅, []) visited.

(** [main], from the records read to the mails handed to [sendEmail]
    (which only prints them and returns no error).  The output directory
    holds no file when the run starts.  Lines printed with [fmt.Printf] are
    left out; the lines of [log.Printf] are in [logged]. *)
Definition main (env : IOEnv) (sched : Schedule) (input : Inputs) : Run :=
  match gradeCSV input with
  | None => mkRun FatalGradeFile ∅ [] ∅ [] ∅
  | Some gradeRecords =>
      let csvHeaders := headerOf gradeRecords in
      let '(grades, log) := readGradeCSV gradeRecords in
      match teacherCSV input with
      | None => mkRun FatalTeacherFile ∅ log ∅ [] ∅
      | Some teacherRecords =>
          let teachers := readTeacherCSV teacherRecords in
          let teacherMap := buildTeacherMap teachers in
          let '(reportData, errorRecords) :=
            matchStudentsToTeachers grades teacherMap in
          let '(disk, log) := exportUnmatched env csvHeaders log errorRecords in
          let '(disk, reportData', reportFiles, log') :=
            generateCSVReports env csvHeaders disk reportData
              (rangeReportData sched reportData) in
          let log := log ++ log' in
          if size reportFiles =? 0
          then mkRun FatalNoReports disk log reportData' errorRecords reportFiles
          else
            match settingsJSON input with
            | None =>
                mkRun SettingsUnreadable disk (log ++ [ErrSettings])
                  reportData' errorRecords reportFiles
            | Some settings =>
                if String.eqb (ShouldSendEmail settings) "true" then
                  let teacherFiles :=
                    groupReportsByTeacher (rangeReportFiles sched reportFiles)
                      reportData' teachers in
                  let mails :=
                    (fun '(teacherEmail, files) =>
                       mkMail teacherEmail
                         (getTeacherNameByEmail teachers teacherEmail) files)
                      <$> rangeTeacherFiles sched teacherFiles in
                  mkRun (EmailsSent mails) disk log reportData' errorRecords
                    reportFiles
                else mkRun EmailDisabled disk log reportData' errorRecords
                       reportFiles
            end
      end
  end.

End Pipeline.

(** * Vocabulary of the properties *)

(** The teachers registered under [key], in input order. *)
Definition withKey (key : string) (teachers : list TeacherRecord)
    : list TeacherRecord :=
  filter (fun t => teacherKey t = key) teachers.


(** The specification's words for a grade row: its cell at a position,
    trimmed, and the empty string when the row has no such cell.  Subject
    code, subject name, grade level and class are the cells 0, 1, 3 and 4; the
    group is the cell 7. *)
Definition cell (g : GradeRecord) (index : nat) : string :=
  TrimSpace (nth index (Row g) "").

(** The bucket a grade row goes to, if its key is in the index. *)
Definition bucketOf (teacherMap : gmap string TeacherRecord) (g : GradeRecord)
    : option ReportKey :=
  (fun teacher => reportKeyOf teacher g) <$> teacherMap !! gradeKey g.

(** The rows of [grades] that go to bucket [key], in input order. *)
Definition rowsFor (teacherMap : gmap string TeacherRecord) (key : ReportKey)
    (grades : list GradeRecord) : list GradeRecord :=
  filter (fun g => bucketOf teacherMap g = Some key) grades.

(** The rows of [grades] whose key is not in the index, in input order. *)
Definition rowsUnmatched (teacherMap : gmap string TeacherRecord)
    (grades : list GradeRecord) : list GradeRecord :=
  filter (fun g => teacherMap !! gradeKey g = None) grades.

(** A list as the value of a map entry: no entry for the empty list. *)
Definition nonEmpty {A} (l : list A) : option (list A) :=
  match l with
  | [] => None
  | _ => Some l
  end.

(** An environment in which the output directory can be made and the file
    [filename] can be created and written without limit. *)
Definition writable (env : IOEnv) (filename : string) : Prop :=
  mkdir_ok env = true /\ create_ok env filename = true /\
  write_quota env filename = None.

(** The specification's words: the representative row of a bucket is its
    first row, the teacher is the first one in the teacher list with the
    row's key, the recipient is that teacher's email. *)
Definition representative (reportData : gmap ReportKey (list GradeRecord))
    (key : ReportKey) : option GradeRecord :=
  head (default [] (reportData !! key)).

(** The linear scan of the teacher list: the first teacher with the key. *)
Definition scanTeachers (teachers : list TeacherRecord) (matchKey : string)
    : option TeacherRecord :=
  head (withKey matchKey teachers).

(** The email a report goes to, if its bucket has a row and the row a
    teacher. *)
Definition recipientOf (reportData : gmap ReportKey (list GradeRecord))
    (teachers : list TeacherRecord) (key : ReportKey) : option string :=
  match representative reportData key with
  | Some grade => tEmail <$> scanTeachers teachers (gradeKey grade)
  | None => None
  end.

(** The recipient of a report in the specification's words, spelled out:
    the representative row of the bucket is its first row; the key re-derived
    from it joins its subject code, grade level and class (the trimmed cells
    0, 3 and 4) by underscores; the teacher is the first one of the teacher
    list whose subject code, grade level and class, joined alike, are that
    key; the recipient is the email of that teacher. *)
Definition recipientBySpec (reportData : gmap ReportKey (list GradeRecord))
    (teachers : list TeacherRecord) (key : ReportKey) : option string :=
  match reportData !! key with
  | Some (row :: _) =>
      tEmail <$>
        head (filter (fun t => tSubjectCode t +:+ "_" +:+ tYear t +:+ "_" +:+ tClass t =
                               cell row 0 +:+ "_" +:+ cell row 3 +:+ "_" +:+ cell row 4)
                teachers)
  | _ => None
  end.

(** The files for [email], in the order the pairs are visited. *)
Definition attachmentsFor (reportData : gmap ReportKey (list GradeRecord))
    (teachers : list TeacherRecord) (email : string)
    (visited : list (ReportKey * string)) : list string :=
  snd <$> filter (fun entry => recipientOf reportData teachers entry.1 = Some email)
            visited.

(** What the documentation of [sort.Slice] asks of the less function, on
    the elements being sorted: nothing sorts before itself, and both "sorts
    before" and "does not sort before" are transitive. *)
Definition StrictWeakOn {A} (less : A -> A -> bool) (l : list A) : Prop :=
  (forall a, a ∈ l -> less a a = false) /\
  (forall a b c, a ∈ l -> b ∈ l -> c ∈ l ->
     less a b = true -> less b c = true -> less a c = true) /\
  (forall a b c, a ∈ l -> b ∈ l -> c ∈ l ->
     less a b = false -> less b c = false -> less a c = false).

(** [a] may stand before [b]: [b] does not sort before [a]. *)
Definition inOrder {A} (less : A -> A -> bool) : relation A :=
  fun a b => less b a = false.

(** What [sort.Slice] promises: the slice is permuted, and for a less
    function as above no element is followed by one that sorts before
    it. *)
Definition SliceSorts {A}
    (sort_Slice : (A -> A -> bool) -> list A -> list A) : Prop :=
  forall less l,
    sort_Slice less l ≡ₚ l /\
    (StrictWeakOn less l -> Sorted (inOrder less) (sort_Slice less l)).

(** The order of the rows in the specification's words: by class as a
    string, then by seat number, as integers when both parse and as strings
    otherwise. *)
Definition seatInOrder (seat1 seat2 : string) : Prop :=
  match Atoi seat1, Atoi seat2 with
  | Some n1, Some n2 => (n1 <= n2)%Z
  | _, _ => lt seat2 seat1 = false
  end.

(** [a] may stand before [b] in a report. *)
Definition rowInOrder (a b : GradeRecord) : Prop :=
  lt (Class a) (Class b) = true \/
  (Class a = Class b /\ seatInOrder (SeatNumber a) (SeatNumber b)).

(** In every class of the bucket the seat numbers all parse as integers,
    or none does. *)
Definition uniformSeats (l : list GradeRecord) : Prop :=
  forall a b, a ∈ l -> b ∈ l -> Class a = Class b ->
    (is_Some (Atoi (SeatNumber a)) <-> is_Some (Atoi (SeatNumber b))).

(** The second half of [gradeLess]: the comparison of two seat numbers. *)
Definition seatLess (seat1 seat2 : string) : bool :=
  match Atoi seat1, Atoi seat2 with
  | Some n1, Some n2 => (n1 <? n2)%Z
  | _, _ => lt seat1 seat2
  end.

(** Whether the byte [c] occurs in [s]. *)
Fixpoint contains (c : ascii) (s : string) : bool :=
  match s with
  | EmptyString => false
  | String c' s' => Ascii.eqb c' c || contains c s'
  end.

(** A key whose teacher name and grade level hold no underscore, and whose
    teacher name, grade level and subject name hold no slash. *)
Definition plainKey (key : ReportKey) : Prop :=
  contains "_" (kTeacherName key) = false /\
  contains "_" (kYear key) = false /\
  contains "/" (kTeacherName key) = false /\
  contains "/" (kYear key) = false /\
  contains "/" (kSubjectName key) = false.

(** The number of records, out of [n], that a file takes after [written]
    records. *)
Definition accepted (quota : option nat) (written n : nat) : nat :=
  match quota with
  | None => n
  | Some q => n `min` (q - written)
  end.

(** The disk after a file is given its records, or left alone. *)
Definition putFile (disk : Disk) (filename : string)
    (content : option (list (list string))) : Disk :=
  match content with
  | Some records => <[filename := records]> disk
  | None => disk
  end.

Section ReportParts.

Variable sort_Slice :
  (GradeRecord -> GradeRecord -> bool) -> list GradeRecord -> list GradeRecord.
Variable env : IOEnv.
Variable csvHeaders : list string.

(** What [createCSVReport] leaves in the file, the bucket after it, and
    whether it fails: none of them depends on the other files. *)
Definition reportContent (filename : string) (grades : list GradeRecord)
    : option (list (list string)) :=
  if negb (create_ok env filename) then None
  else if writeFails (write_quota env filename) (write_lag env filename) 0
  then Some []
  else Some (flushed (write_quota env filename) 0
               (csvHeaders ::
                (writeRows (write_quota env filename) (write_lag env filename) 1
                   (Row <$> sort_Slice gradeLess grades)).1)).

(** The bucket as [createCSVReport] leaves it: sorted once the [Write] of
    the header has returned nil. *)
Definition reportBucket (filename : string) (grades : list GradeRecord)
    : list GradeRecord :=
  if negb (create_ok env filename) then grades
  else if writeFails (write_quota env filename) (write_lag env filename) 0
  then grades
  else sort_Slice gradeLess grades.

(** Whether [createCSVReport] returns an error. *)
Definition reportErr (filename : string) (grades : list GradeRecord) : bool :=
  if negb (create_ok env filename) then true
  else if writeFails (write_quota env filename) (write_lag env filename) 0
  then true
  else negb (writeRows (write_quota env filename) (write_lag env filename) 1
               (Row <$> sort_Slice gradeLess grades)).2.

(** The parts of one iteration of [generateCSVReports]: the disk, the
    buckets, the files filed and the failure logged. *)
Definition diskStep (disk : Disk) (entry : ReportKey * list GradeRecord) : Disk :=
  putFile disk (reportFileName entry.1)
    (reportContent (reportFileName entry.1) entry.2).

Definition bucketStep (reportData : gmap ReportKey (list GradeRecord))
    (entry : ReportKey * list GradeRecord) : gmap ReportKey (list GradeRecord) :=
  <[entry.1 := reportBucket (reportFileName entry.1) entry.2]> reportData.

Definition filesStep (files : gmap ReportKey string)
    (entry : ReportKey * list GradeRecord) : gmap ReportKey string :=
  if reportErr (reportFileName entry.1) entry.2 then files
  else <[entry.1 := reportFileName entry.1]> files.

Definition failure (entry : ReportKey * list GradeRecord) : option LogEntry :=
  if reportErr (reportFileName entry.1) entry.2
  then Some (ErrReport (reportFileName entry.1)) else None.

End ReportParts.

Section RunParts.

Variable sort_Slice :
  (GradeRecord -> GradeRecord -> bool) -> list GradeRecord -> list GradeRecord.
Variable env : IOEnv.

(** The buckets and unmatched rows of a run whose tables are readable. *)
Definition matched (gradeRecords teacherRecords : list (list string))
    : gmap ReportKey (list GradeRecord) * list GradeRecord :=
  matchStudentsToTeachers (readGradeCSV gradeRecords).1
    (buildTeacherMap (readTeacherCSV teacherRecords)).

(** The disk and the log when the reports are about to be written. *)
Definition exported (gradeRecords teacherRecords : list (list string))
    : Disk * list LogEntry :=
  exportUnmatched env (headerOf gradeRecords) (readGradeCSV gradeRecords).2
    (matched gradeRecords teacherRecords).2.

(** What [generateCSVReports] returns in the run. *)
Definition written (sched : Schedule)
    (gradeRecords teacherRecords : list (list string))
    : Disk * gmap ReportKey (list GradeRecord) * gmap ReportKey string
      * list LogEntry :=
  generateCSVReports sort_Slice env (headerOf gradeRecords)
    (exported gradeRecords teacherRecords).1
    (matched gradeRecords teacherRecords).1
    (rangeReportData sched (matched gradeRecords teacherRecords).1).

End RunParts.

(** The mail for one entry of the distribution plan. *)
Definition toMail (teachers : list TeacherRecord)
    (entry : string * list string) : Mail :=
  mkMail entry.1 (getTeacherNameByEmail teachers entry.1) entry.2.

(** ** Inputs used as examples *)

(** The grade row and the teacher of the first scenario of the
    specification. *)
Definition g1 : GradeRecord :=
  mkGrade ["MATH"; "Math"; "S1"; "7"; "1"; "1"; "Alice"; ""; ""; ""; ""; ""; "";
           "90"].

Definition t1 : TeacherRecord :=
  mkTeacher "MATH" "Math" "7" "1" "" "Mr.Lee" "lee@x.org".

(** An environment in which every file can be created and written. *)
Definition env0 : IOEnv :=
  mkEnv true (fun _ => true) (fun _ => None) (fun _ => None).


(** A row of class 1 with the given seat number. *)
Definition seatRow (seat : string) : GradeRecord :=
  mkGrade ["MATH"; "Math"; "S"; "7"; "1"; seat; "N"].

(** The three seat labels 2, 10 and 1a of one class: 2 sorts before 10 as a
    number, 10 before 1a and 1a before 2 as strings. *)
Definition mixedSeats : list GradeRecord := [seatRow "2"; seatRow "10"; seatRow "1a"].

(** Two orders of visiting the maps: the order of [map_to_list] and its
    reverse. *)
Definition schedA : Schedule := mkSchedule map_to_list map_to_list map_to_list.

Definition schedB : Schedule :=
  mkSchedule (fun m => reverse (map_to_list m)) (fun m => reverse (map_to_list m))
    (fun m => reverse (map_to_list m)).

(** Header rows of the two tables, and settings that switch mail on. *)
Definition gradeHeader : list string :=
  ["code"; "name"; "id"; "year"; "class"; "seat"; "student"].

Definition teacherHeader : list string :=
  ["code"; "name"; "year"; "class"; "group"; "teacher"; "email"].

Definition settingsOn : EmailSettings := mkSettings "office@x.org" "true" "Grades".

(** One grade row and its teacher. *)
Definition oneBucketInput : Inputs :=
  mkInputs
    (Some [gradeHeader; ["MATH"; "Math"; "S1"; "7"; "1"; "1"; "Alice"]])
    (Some [teacherHeader; ["MATH"; "Math"; "7"; "1"; ""; "Mr.Lee"; "lee@x.org"]])
    (Some settingsOn).

(** Two subjects with a teacher each. *)
Definition twoBucketInput : Inputs :=
  mkInputs
    (Some [gradeHeader;
           ["MATH"; "Math"; "S1"; "7"; "1"; "1"; "Alice"];
           ["ENG"; "English"; "S1"; "7"; "1"; "1"; "Alice"]])
    (Some [teacherHeader;
           ["MATH"; "Math"; "7"; "1"; ""; "Mr.Lee"; "lee@x.org"];
           ["ENG"; "English"; "7"; "1"; ""; "Ms.Kim"; "kim@x.org"]])
    (Some settingsOn).

(** Two subject codes of one subject name, taught by one teacher. *)
Definition collisionInput : Inputs :=
  mkInputs
    (Some [gradeHeader;
           ["M1"; "Math"; "S1"; "7"; "1"; "1"; "Alice"];
           ["M2"; "Math"; "S2"; "7"; "1"; "2"; "Bob"]])
    (Some [teacherHeader;
           ["M1"; "Math"; "7"; "1"; ""; "Mr.Lee"; "lee@x.org"];
           ["M2"; "Math"; "7"; "1"; ""; "Mr.Lee"; "lee@x.org"]])
    (Some settingsOn).

(** Two teacher rows for one subject, grade level and class, told apart by
    the group only. *)
Definition duplicateKeyInput : Inputs :=
  mkInputs
    (Some [gradeHeader; ["MATH"; "Math"; "S1"; "7"; "1"; "1"; "Alice"]])
    (Some [teacherHeader;
           ["MATH"; "Math"; "7"; "1"; "A"; "Ms.Ann"; "ann@x.org"];
           ["MATH"; "Math"; "7"; "1"; "B"; "Mr.Bob"; "bob@x.org"]])
    (Some settingsOn).

(** An environment in which the output directory can be made and every
    file can be created and written without limit. *)
Definition cooperative (env : IOEnv) : Prop :=
  mkdir_ok env = true /\
  forall filename, create_ok env filename = true /\ write_quota env filename = None.

(** All the rows held by the buckets of a map, bucket after bucket. *)
Definition allRows {K A} `{Countable K} (m : gmap K (list A)) : list A :=
  concat (map_to_list m).*2.

(** The teachers with the address [email], in input order. *)
Definition withEmail (email : string) (teachers : list TeacherRecord)
    : list TeacherRecord :=
  filter (fun t => tEmail t = email) teachers.

(** The teachers of the subject, grade level and class of the row [g], in
    input order. *)
Definition teachersOf (g : GradeRecord) (teachers : list TeacherRecord)
    : list TeacherRecord :=
  filter (fun t => tSubjectCode t = SubjectCode g /\ tYear t = Year g /\
                   tClass t = Class g) teachers.

(** No underscore in the subject code and the grade level of a teacher. *)
Definition plainTeacher (t : TeacherRecord) : Prop :=
  contains "_" (tSubjectCode t) = false /\ contains "_" (tYear t) = false.

(** * Properties *)

(** ** The library functions and the scenarios of the specification *)

(** Blanks, a tab (byte 9) and a line feed (byte 10) around a cell. *)
Example TrimSpace_blanks :
  TrimSpace (String "009" "  7 " +:+ String "010" "") = "7" /\
  TrimSpace "   " = "".
Proof. split; reflexivity. Qed.

(** The ideographic space U+3000 is white space, inner blanks stay. *)
Example TrimSpace_ideographic : TrimSpace "　Mr. Lee　 " = "Mr. Lee".
Proof. reflexivity. Qed.

Example Atoi_cases :
  Atoi "12" = Some 12%Z /\ Atoi "-3" = Some (-3)%Z /\ Atoi "+07" = Some 7%Z /\
  Atoi "" = None /\ Atoi "-" = None /\ Atoi "1a" = None /\ Atoi " 1" = None /\
  Atoi "9223372036854775807" = Some 9223372036854775807%Z /\
  Atoi "9223372036854775808" = None.
Proof. repeat split; reflexivity. Qed.

Example Clean_cases :
  Filepath.Clean "output/a/../b//c/./d.csv" = "output/b/c/d.csv" /\
  Filepath.Clean "a/../.." = ".." /\ Filepath.Clean "/../a" = "/a" /\
  Filepath.Clean "" = "." /\
  Filepath.Join "output" "error.csv" = "output/error.csv".
Proof. repeat split; reflexivity. Qed.

(** The fuel of [trimFront] is enough: what is left does not start with a
    rune of the set. *)
Lemma stripRune_length p bs r :
  GoStrings.stripRune p bs = Some r -> length bs = length p + length r.
Proof.
  revert bs. induction p as [|x p IH]; intros bs; simpl.
  { by intros [= ->]. }
  destruct bs as [|b bs]; [done|]. destruct (N.eqb x b); [|done].
  intros Hr%IH. simpl. by rewrite Hr.
Qed.

Lemma stripAny_shorter ps bs r :
  Forall (fun p => p <> []) ps ->
  GoStrings.stripAny ps bs = Some r -> length r < length bs.
Proof.
  induction 1 as [|p ps Hp _ IH]; simpl; [done|].
  destruct (GoStrings.stripRune p bs) as [r'|] eqn:Hstrip; [|done].
  intros [= ->]. apply stripRune_length in Hstrip. destruct p; [done|].
  simpl in Hstrip. lia.
Qed.

Lemma trimFront_done ps fuel bs :
  Forall (fun p => p <> []) ps -> length bs <= fuel ->
  GoStrings.stripAny ps (GoStrings.trimFront ps fuel bs) = None.
Proof.
  intros Hps. revert bs. induction fuel as [|fuel IH]; intros bs Hlen; simpl.
  - destruct bs; [|simpl in Hlen; lia].
    clear Hlen. induction Hps as [|p ps Hp _ IHps]; [done|]. simpl.
    by destruct p.
  - destruct (GoStrings.stripAny ps bs) as [r|] eqn:Hstrip; [|done].
    apply IH. apply (stripAny_shorter ps) in Hstrip; [lia|done].
Qed.

Lemma trimLeftSpace_done bs :
  GoStrings.stripAny GoStrings.spaceRunes (GoStrings.trimLeftSpace bs) = None.
Proof.
  apply trimFront_done; [|done]. unfold GoStrings.spaceRunes.
  repeat constructor; done.
Qed.

(** One grade row and its teacher: one bucket, one report, one mail. *)
Example scenario_one_teacher :
  let r := main (@InsertionSort.sort _) env0 schedA
             (mkInputs (Some [gradeHeader; Row g1])
                (Some [teacherHeader;
                       ["MATH"; "Math"; "7"; "1"; ""; "Mr.Lee"; "lee@x.org"]])
                (Some settingsOn)) in
  map_to_list (buckets r) = [(mkReportKey "Mr.Lee" "7" "MATH" "Math", [g1])] /\
  unmatched r = [] /\
  map_to_list (disk r) =
    [("output/Mr.Lee_年級7_Math.csv", [gradeHeader; Row g1])] /\
  outcome r =
    EmailsSent [mkMail "lee@x.org" "Mr.Lee" ["output/Mr.Lee_年級7_Math.csv"]].
Proof. vm_compute. done. Qed.

(** A grade row without teacher: no bucket, the row in the export of the
    unmatched rows with its cells unchanged, and a fatal end. *)
Example scenario_no_teacher :
  let r := main (@InsertionSort.sort _) env0 schedA
             (mkInputs (Some [gradeHeader; Row g1])
                (Some [teacherHeader;
                       ["ENG"; "English"; "7"; "1"; ""; "Ms.Kim"; "kim@x.org"]])
                (Some settingsOn)) in
  map_to_list (buckets r) = [] /\
  unmatched r = [g1] /\
  map_to_list (disk r) = [("output/error.csv", [gradeHeader; Row g1])] /\
  outcome r = FatalNoReports.
Proof. vm_compute. done. Qed.

(** Two classes of one teacher: one bucket, class 1 before class 2. *)
Example scenario_two_classes :
  let alice := ["MATH"; "Math"; "S1"; "7"; "2"; "1"; "Alice"] in
  let bob := ["MATH"; "Math"; "S2"; "7"; "1"; "3"; "Bob"] in
  let r := main (@InsertionSort.sort _) env0 schedA
             (mkInputs (Some [gradeHeader; alice; bob])
                (Some [teacherHeader;
                       ["MATH"; "Math"; "7"; "1"; ""; "Mr.Lee"; "lee@x.org"];
                       ["MATH"; "Math"; "7"; "2"; ""; "Mr.Lee"; "lee@x.org"]])
                (Some settingsOn)) in
  map_to_list (disk r) =
    [("output/Mr.Lee_年級7_Math.csv", [gradeHeader; bob; alice])].
Proof. vm_compute. done. Qed.

(** ** Joined strings *)

Lemma append_String c s t : String c s +:+ t = String c (s +:+ t).
Proof. reflexivity. Qed.

Lemma append_empty t : "" +:+ t = t.
Proof. reflexivity. Qed.

Lemma length_append s t : String.length (s +:+ t) = String.length s + String.length t.
Proof. induction s as [|c s IH]; [done|]. rewrite append_String. simpl. by rewrite IH. Qed.

Lemma append_inj_r s s' t : s +:+ t = s' +:+ t -> s = s'.
Proof.
  revert s'. induction s as [|c s IH]; intros [|c' s'] Heq.
  - done.
  - apply (f_equal String.length) in Heq.
    rewrite append_empty, append_String in Heq. simpl in Heq.
    rewrite length_append in Heq. lia.
  - apply (f_equal String.length) in Heq.
    rewrite append_empty, append_String in Heq. simpl in Heq.
    rewrite length_append in Heq. lia.
  - rewrite !append_String in Heq. injection Heq as -> Heq.
    by rewrite (IH s' Heq).
Qed.

Lemma contains_append c s t : contains c (s +:+ t) = contains c s || contains c t.
Proof.
  induction s as [|c' s IH]; [done|]. rewrite append_String. simpl.
  by rewrite IH, orb_assoc.
Qed.

(** A string is cut in one way only at the first occurrence of a byte. *)
Lemma append_cut c s s' t t' :
  contains c s = false -> contains c s' = false ->
  s +:+ String c t = s' +:+ String c t' -> s = s' /\ t = t'.
Proof.
  revert s'. induction s as [|x s IH]; intros [|x' s'] Hs Hs' Heq;
    rewrite ?append_String, ?append_empty in Heq.
  - by injection Heq as ->.
  - injection Heq as -> _. simpl in Hs'. by rewrite Ascii.eqb_refl in Hs'.
  - injection Heq as -> _. simpl in Hs. by rewrite Ascii.eqb_refl in Hs.
  - injection Heq as -> Heq. simpl in Hs, Hs'.
    apply orb_false_iff in Hs as [_ Hs]. apply orb_false_iff in Hs' as [_ Hs'].
    destruct (IH s' Hs Hs' Heq) as [-> ->]. done.
Qed.

(** The key built from subject code, grade level and class names the
    three when the first two hold no underscore. *)
Lemma Sprintf_key_inj a b c a' b' c' :
  contains "_" a = false -> contains "_" b = false ->
  contains "_" a' = false -> contains "_" b' = false ->
  Sprintf_key a b c = Sprintf_key a' b' c' -> a = a' /\ b = b' /\ c = c'.
Proof.
  intros Ha Hb Ha' Hb'. unfold Sprintf_key. rewrite !append_String, !append_empty.
  intros [-> Hrest]%append_cut; [|done..].
  apply append_cut in Hrest as [-> ->]; done.
Qed.

(** ** Properties of the teacher index *)

Lemma buildTeacherMap_snoc teachers t :
  buildTeacherMap (teachers ++ [t]) = <[teacherKey t := t]> (buildTeacherMap teachers).
Proof. unfold buildTeacherMap. by rewrite foldl_app. Qed.

Lemma buildTeacherMap_lookup teachers key :
  buildTeacherMap teachers !! key = last (withKey key teachers).
Proof.
  induction teachers as [|t teachers IH] using rev_ind; [done|].
  rewrite buildTeacherMap_snoc. unfold withKey in *. rewrite filter_app.
  destruct (decide (teacherKey t = key)) as [Heq|Hne].
  - rewrite Heq, lookup_insert_eq.
    rewrite (filter_cons_True _ t []), filter_nil by done. by rewrite last_snoc.
  - rewrite lookup_insert_ne by done.
    rewrite (filter_cons_False _ t []), filter_nil by done. by rewrite app_nil_r.
Qed.



(** ** Properties of the matcher *)

Lemma nonEmpty_Some {A} (l l' : list A) : nonEmpty l = Some l' -> l = l' /\ l <> [].
Proof. destruct l; [done|]. intros [= <-]. done. Qed.

Lemma nonEmpty_snoc {A} (l : list A) x : nonEmpty (l ++ [x]) = Some (l ++ [x]).
Proof. by destruct l. Qed.

Lemma default_nonEmpty {A} (l : list A) : default [] (nonEmpty l) = l.
Proof. by destruct l. Qed.

Lemma matchStudentsToTeachers_snoc grades g teacherMap :
  matchStudentsToTeachers (grades ++ [g]) teacherMap =
  matchStep teacherMap (matchStudentsToTeachers grades teacherMap) g.
Proof. unfold matchStudentsToTeachers. by rewrite foldl_app. Qed.

Lemma matchStudentsToTeachers_spec grades teacherMap :
  (forall key, (matchStudentsToTeachers grades teacherMap).1 !! key =
               nonEmpty (rowsFor teacherMap key grades)) /\
  (matchStudentsToTeachers grades teacherMap).2 = rowsUnmatched teacherMap grades.
Proof.
  induction grades as [|g grades [IHd IHe]] using rev_ind.
  { split; [intros key; apply lookup_empty|done]. }
  rewrite matchStudentsToTeachers_snoc.
  destruct (matchStudentsToTeachers grades teacherMap) as [reportData errorRecords].
  simpl in IHd, IHe. unfold matchStep, rowsFor, rowsUnmatched, bucketOf in *.
  setoid_rewrite filter_app.
  destruct (teacherMap !! gradeKey g) as [teacher|] eqn:Hlook; simpl.
  - split.
    + intros key. unfold appendTo.
      destruct (decide (reportKeyOf teacher g = key)) as [<-|Hne].
      * rewrite lookup_insert_eq, IHd, default_nonEmpty.
        rewrite (filter_cons_True _ g []), filter_nil by (by rewrite Hlook).
        by rewrite nonEmpty_snoc.
      * rewrite lookup_insert_ne by done. rewrite IHd.
        rewrite (filter_cons_False _ g []), filter_nil, app_nil_r; [done|].
        rewrite Hlook. simpl. congruence.
    + rewrite (filter_cons_False _ g []), filter_nil, app_nil_r; [done|].
      by rewrite Hlook.
  - split.
    + intros key. rewrite IHd.
      rewrite (filter_cons_False _ g []), filter_nil, app_nil_r; [done|].
      by rewrite Hlook.
    + rewrite (filter_cons_True _ g []), filter_nil by done. by rewrite IHe.
Qed.

Lemma getField_cell g index : getField g index = cell g index.
Proof.
  unfold getField, cell. destruct (Row g !! index) as [c|] eqn:Hc.
  - by rewrite (nth_lookup_Some _ _ _ _ Hc).
  - apply lookup_ge_None in Hc. by rewrite nth_overflow.
Qed.

(** Every teacher of the index is filed under the key of its own subject
    code, grade level and class. *)
Lemma buildTeacherMap_own_key teachers indexKey teacher :
  buildTeacherMap teachers !! indexKey = Some teacher ->
  indexKey = teacherKey teacher /\ teacher ∈ teachers.
Proof.
  rewrite buildTeacherMap_lookup. intros Hlast%last_Some_elem_of.
  by apply list_elem_of_filter in Hlast as [<- ?].
Qed.

Lemma matchStudentsToTeachers_hit grades teacherMap g teacher :
  g ∈ grades ->
  teacherMap !! gradeKey g = Some teacher ->
  let '(reportData, errorRecords) := matchStudentsToTeachers grades teacherMap in
  (exists rows, reportData !! reportKeyOf teacher g = Some rows /\ g ∈ rows /\
                count_occ GradeRecord_eq_dec rows g =
                count_occ GradeRecord_eq_dec grades g) /\
  (forall key rows, reportData !! key = Some rows -> g ∈ rows ->
                    key = reportKeyOf teacher g) /\
  g ∉ errorRecords.
Proof.
  intros Hin Hlook.
  destruct (matchStudentsToTeachers_spec grades teacherMap) as [Hd He].
  destruct (matchStudentsToTeachers grades teacherMap) as [reportData errorRecords].
  simpl in Hd, He.
  assert (Hb : bucketOf teacherMap g = Some (reportKeyOf teacher g)).
  { unfold bucketOf. by rewrite Hlook. }
  assert (Hg : g ∈ rowsFor teacherMap (reportKeyOf teacher g) grades).
  { apply list_elem_of_filter. done. }
  split; [|split].
  - exists (rowsFor teacherMap (reportKeyOf teacher g) grades).
    rewrite Hd. split; [|split; [done|]].
    + destruct (rowsFor _ _ _); [by apply elem_of_nil in Hg|done].
    + unfold rowsFor. clear -Hb. induction grades as [|g' grades IH]; [done|].
      destruct (decide (bucketOf teacherMap g' = Some (reportKeyOf teacher g))) as [Hy|Hn].
      * rewrite (filter_cons_True _ g') by done. simpl. rewrite IH. done.
      * rewrite (filter_cons_False _ g') by done. simpl.
        destruct (GradeRecord_eq_dec g' g) as [->|]; [done|]. apply IH.
  - intros key rows Hrows Hmem. rewrite Hd in Hrows.
    apply nonEmpty_Some in Hrows as [<- _].
    apply list_elem_of_filter in Hmem as [Hkey _]. congruence.
  - rewrite He. unfold rowsUnmatched. rewrite list_elem_of_filter. intros [Hn _].
    congruence.
Qed.

(** C1.  Take a grade row and a teacher of the index whose subject code, grade
    level and class are the trimmed cells 0, 3 and 4 of the row; the group of
    the row (its cell 7) and the group of the teacher are not looked at.  The
    row lies in the bucket keyed by that teacher's name and the row's own
    grade level, subject code and subject name (its trimmed cells 3, 0 and 1),
    as often as it occurs in the input; it lies in no other bucket and not
    among the unmatched rows.  This holds for rows of any width, so for rows
    of at least seven fields. *)
Theorem matched_row_in_one_bucket teachers grades g indexKey teacher :
  g ∈ grades ->
  buildTeacherMap teachers !! indexKey = Some teacher ->
  tSubjectCode teacher = cell g 0 -> tYear teacher = cell g 3 ->
  tClass teacher = cell g 4 ->
  let key := mkReportKey (tTeacherName teacher) (cell g 3) (cell g 0) (cell g 1) in
  let '(reportData, errorRecords) :=
    matchStudentsToTeachers grades (buildTeacherMap teachers) in
  (exists rows, reportData !! key = Some rows /\ g ∈ rows /\
                count_occ GradeRecord_eq_dec rows g =
                count_occ GradeRecord_eq_dec grades g) /\
  (forall key' rows, reportData !! key' = Some rows -> g ∈ rows -> key' = key) /\
  g ∉ errorRecords.
Proof.
  intros Hin Hindexed Hcode Hyear Hclass key.
  pose proof Hindexed as [-> _]%buildTeacherMap_own_key.
  assert (Hkey : teacherKey teacher = gradeKey g).
  { unfold teacherKey, gradeKey, SubjectCode, Year, Class.
    rewrite !getField_cell, Hcode, Hyear, Hclass. reflexivity. }
  rewrite Hkey in Hindexed.
  assert (Hbucket : reportKeyOf teacher g = key).
  { unfold reportKeyOf, key, Year, SubjectCode, SubjectName.
    by rewrite !getField_cell. }
  rewrite <- Hbucket.
  apply (matchStudentsToTeachers_hit grades (buildTeacherMap teachers) g teacher);
    done.
Qed.

(** Two teachers of one subject, grade level and class in the groups A and B
    (the second one is indexed), and a row of that class in no group. *)
Lemma matched_row_in_one_bucket_witness :
  let teachers :=
    [mkTeacher "MATH" "Math" "7" "1" "A" "Ms.Ann" "ann@x.org";
     mkTeacher "MATH" "Math" "7" "1" "B" "Mr.Bob" "bob@x.org"] in
  let key := mkReportKey "Mr.Bob" (cell g1 3) (cell g1 0) (cell g1 1) in
  let '(reportData, errorRecords) :=
    matchStudentsToTeachers [g1] (buildTeacherMap teachers) in
  (exists rows, reportData !! key = Some rows /\ g1 ∈ rows /\
                count_occ GradeRecord_eq_dec rows g1 =
                count_occ GradeRecord_eq_dec [g1] g1) /\
  (forall key' rows, reportData !! key' = Some rows -> g1 ∈ rows -> key' = key) /\
  g1 ∉ errorRecords.
Proof.
  intros teachers.
  apply (matched_row_in_one_bucket teachers [g1] g1 "MATH_7_1"
           (mkTeacher "MATH" "Math" "7" "1" "B" "Mr.Bob" "bob@x.org")).
  - apply list_elem_of_here.
  - vm_compute. reflexivity.
  - reflexivity.
  - reflexivity.
  - reflexivity.
Defined.

(** The key of the index is the string in which subject code, grade level
    and class are joined by underscores. *)
Lemma teacherKey_joined t :
  teacherKey t = tSubjectCode t +:+ "_" +:+ tYear t +:+ "_" +:+ tClass t.
Proof. reflexivity. Qed.

Lemma filter_ext_elem {A} (P Q : A -> Prop) `{forall x, Decision (P x)}
    `{forall x, Decision (Q x)} (l : list A) :
  (forall x, x ∈ l -> (P x <-> Q x)) -> filter P l = filter Q l.
Proof.
  induction l as [|x l IH]; intros Hext; [done|].
  rewrite !filter_cons, IH
    by (intros y Hy; apply Hext; by apply list_elem_of_further).
  destruct (decide (P x)) as [HP|HP].
  - rewrite decide_True; [done|]. apply Hext; [apply list_elem_of_here|done].
  - rewrite decide_False; [done|].
    intros HQ. apply HP, Hext; [apply list_elem_of_here|done].
Qed.




(** ** Properties of the export of unmatched rows *)

Lemma writeRows_unlimited lag written rows :
  writeRows None lag written rows = (rows, true).
Proof.
  revert written. induction rows as [|row rows IH]; intros written; [done|].
  simpl. by rewrite IH.
Qed.

(** The records handed to the writer are the first ones, and all of them
    when no [Write] returns an error. *)
Lemma writeRows_take quota lag written rows :
  exists n,
    (writeRows quota lag written rows).1 = take n rows /\
    ((writeRows quota lag written rows).2 = true -> length rows <= n).
Proof.
  revert written. induction rows as [|row rows IH]; intros written.
  { exists 0. simpl. split; [done|lia]. }
  cbn [writeRows]. destruct (writeFails quota lag written).
  { exists 0. simpl. split; [done|]. intros [=]. }
  destruct (IH (S written)) as (n & Hdone & Hok).
  destruct (writeRows quota lag (S written) rows) as [done ok].
  exists (S n). simpl in *. split; [by rewrite Hdone|]. intros ->. specialize (Hok eq_refl). lia.
Qed.

(** No [Write] returns an error for a record that the file takes. *)
Lemma writeFails_taken quota lag written :
  canWrite quota written = true -> writeFails quota lag written = false.
Proof.
  unfold canWrite, writeFails. destruct quota as [q|], lag as [d|]; try done.
  intros Hlt%Nat.ltb_lt. apply Nat.leb_gt. lia.
Qed.

Lemma flushed_unlimited written records : flushed None written records = records.
Proof.
  revert written. induction records as [|record records IH]; intros written; [done|].
  simpl. by rewrite IH.
Qed.

(** The file holds the first of the records handed to the writer. *)
Lemma flushed_take quota written records :
  flushed quota written records =
  take (accepted quota written (length records)) records.
Proof.
  revert written. induction records as [|record records IH]; intros written.
  { simpl. by rewrite take_nil. }
  cbn [flushed length]. rewrite IH. unfold canWrite, accepted.
  destruct quota as [q|].
  - destruct (Nat.ltb_spec written q) as [Hlt|Hge].
    + replace (S (length records) `min` (q - written))
        with (S (length records `min` (q - S written))) by lia.
      done.
    + replace (S (length records) `min` (q - written)) with 0 by lia. done.
  - done.
Qed.

(** What a file holds after [createCSVReport] or [generateErrorCSV] got as
    far as the loop: the first records of the header and the rows. *)
Lemma flushed_writeRows quota lag csvHeaders rows :
  exists n,
    flushed quota 0 (csvHeaders :: (writeRows quota lag 1 rows).1) =
    take n (csvHeaders :: rows).
Proof.
  destruct (writeRows_take quota lag 1 rows) as (m & -> & _).
  rewrite flushed_take.
  change (csvHeaders :: take m rows) with (take (S m) (csvHeaders :: rows)).
  rewrite take_take. by eexists.
Qed.

Lemma generateErrorCSV_writable env csvHeaders disk errorRecords :
  writable env "output/error.csv" ->
  generateErrorCSV env csvHeaders disk errorRecords =
  (<["output/error.csv" := csvHeaders :: (Row <$> errorRecords)]> disk, false).
Proof.
  intros (Hdir & Hcreate & Hquota). unfold generateErrorCSV.
  change (Filepath.Join outputDir "error.csv") with "output/error.csv".
  rewrite Hdir, Hcreate, Hquota. simpl.
  by rewrite writeRows_unlimited, flushed_unlimited.
Qed.


(** In every environment the export of the unmatched rows leaves no file
    but [output/error.csv], holding nothing but the header and unmatched
    rows, in order; an error that is returned is logged. *)
Lemma exportUnmatched_only_error_file env csvHeaders log errorRecords :
  let '(disk, log') := exportUnmatched env csvHeaders log errorRecords in
  (forall filename content, disk !! filename = Some content ->
     filename = "output/error.csv" /\
     exists n, content = take n (csvHeaders :: (Row <$> errorRecords))) /\
  (log' = log \/ log' = log ++ [ErrErrorCSV]).
Proof.
  unfold exportUnmatched, generateErrorCSV.
  change (Filepath.Join outputDir "error.csv") with "output/error.csv".
  destruct (0 <? length errorRecords); [|split; [by intros ? ?|by left]].
  destruct (mkdir_ok env); simpl; [|split; [by intros ? ?|by right]].
  destruct (create_ok env "output/error.csv"); simpl;
    [|split; [by intros ? ?|by right]].
  destruct (writeFails _ _ 0); simpl.
  - split; [|by right].
    intros filename content [[<- <-]|[_ [=]]]%lookup_insert_Some.
    split; [done|]. by exists 0.
  - destruct (flushed_writeRows (write_quota env "output/error.csv")
                (write_lag env "output/error.csv") csvHeaders
                (Row <$> errorRecords)) as [n Hn].
    destruct (writeRows _ _ 1 _) as [done ok]. simpl in Hn. split.
    + intros filename content [[<- <-]|[_ [=]]]%lookup_insert_Some.
      split; [done|]. by exists n.
    + destruct (negb ok); [by right|by left].
Qed.

(** ** Properties of the distribution plan *)

Lemma attachToFirst_spec matchKey filename teachers teacherFiles :
  attachToFirst matchKey filename teachers teacherFiles =
  match scanTeachers teachers matchKey with
  | Some teacher =>
      <[tEmail teacher :=
          default [] (teacherFiles !! tEmail teacher) ++ [filename]]> teacherFiles
  | None => teacherFiles
  end.
Proof.
  unfold scanTeachers, withKey.
  induction teachers as [|t teachers IH]; [done|]. simpl.
  destruct (String.eqb_spec (teacherKey t) matchKey) as [Heq|Hne].
  - by rewrite (filter_cons_True _ t) by done.
  - by rewrite (filter_cons_False _ t) by done.
Qed.

Lemma groupStep_spec reportData teachers teacherFiles key filename :
  groupStep reportData teachers teacherFiles (key, filename) =
  match recipientOf reportData teachers key with
  | Some email =>
      <[email := default [] (teacherFiles !! email) ++ [filename]]> teacherFiles
  | None => teacherFiles
  end.
Proof.
  unfold groupStep, recipientOf, representative.
  destruct (default [] (reportData !! key)) as [|grade rest]; [done|]. simpl.
  rewrite attachToFirst_spec. by destruct (scanTeachers teachers (gradeKey grade)).
Qed.

Lemma groupReportsByTeacher_snoc visited entry reportData teachers :
  groupReportsByTeacher (visited ++ [entry]) reportData teachers =
  groupStep reportData teachers
    (groupReportsByTeacher visited reportData teachers) entry.
Proof. unfold groupReportsByTeacher. by rewrite foldl_app. Qed.

Lemma groupReportsByTeacher_spec visited reportData teachers email :
  groupReportsByTeacher visited reportData teachers !! email =
  nonEmpty (attachmentsFor reportData teachers email visited).
Proof.
  induction visited as [|[key filename] visited IH] using rev_ind.
  { apply lookup_empty. }
  rewrite groupReportsByTeacher_snoc, groupStep_spec.
  unfold attachmentsFor in *. rewrite filter_app, fmap_app.
  destruct (recipientOf reportData teachers key) as [email'|] eqn:Hrec.
  - destruct (decide (email' = email)) as [->|Hne].
    + rewrite lookup_insert_eq, IH, default_nonEmpty.
      rewrite (filter_cons_True _ (key, filename) []), filter_nil by done.
      simpl. by rewrite nonEmpty_snoc.
    + rewrite lookup_insert_ne by done. rewrite IH.
      rewrite (filter_cons_False _ (key, filename) []), filter_nil.
      * simpl. by rewrite app_nil_r.
      * simpl. rewrite Hrec. congruence.
  - rewrite IH. rewrite (filter_cons_False _ (key, filename) []), filter_nil.
    + simpl. by rewrite app_nil_r.
    + simpl. by rewrite Hrec.
Qed.

(** ** Order of the rows in a report *)

(** Byte-wise order on strings. *)
Section StringOrder.

Lemma ascii_compare_lt_trans c1 c2 c3 :
  Ascii.compare c1 c2 = Lt -> Ascii.compare c2 c3 = Lt ->
  Ascii.compare c1 c3 = Lt.
Proof.
  unfold Ascii.compare. rewrite !N.compare_lt_iff. apply N.lt_trans.
Qed.

Lemma ascii_compare_refl c : Ascii.compare c c = Eq.
Proof. unfold Ascii.compare. apply N.compare_refl. Qed.

Lemma string_compare_refl s : String.compare s s = Eq.
Proof.
  induction s as [|c s IH]; [done|]. simpl. by rewrite ascii_compare_refl.
Qed.

Lemma string_compare_lt_trans s1 s2 s3 :
  String.compare s1 s2 = Lt -> String.compare s2 s3 = Lt ->
  String.compare s1 s3 = Lt.
Proof.
  revert s2 s3. induction s1 as [|c1 s1 IH]; intros [|c2 s2] [|c3 s3]; simpl;
    try done.
  destruct (Ascii.compare c1 c2) eqn:H12; [|clear IH|done].
  - apply Ascii.compare_eq_iff in H12 as ->.
    destruct (Ascii.compare c2 c3); [apply IH|done|done].
  - intros _. destruct (Ascii.compare c2 c3) eqn:H23; [|intros _|done].
    + apply Ascii.compare_eq_iff in H23 as <-. by rewrite H12.
    + by rewrite (ascii_compare_lt_trans _ _ _ H12 H23).
Qed.

Lemma lt_spec s1 s2 : lt s1 s2 = true <-> String.compare s1 s2 = Lt.
Proof.
  unfold lt, String.ltb. destruct (String.compare s1 s2); naive_solver.
Qed.

Lemma lt_irrefl s : lt s s = false.
Proof.
  apply not_true_iff_false. rewrite lt_spec, string_compare_refl. done.
Qed.

Lemma lt_trans s1 s2 s3 : lt s1 s2 = true -> lt s2 s3 = true -> lt s1 s3 = true.
Proof. rewrite !lt_spec. apply string_compare_lt_trans. Qed.

Lemma lt_total s1 s2 : lt s1 s2 = false -> lt s2 s1 = false -> s1 = s2.
Proof.
  rewrite <- !not_true_iff_false, !lt_spec.
  rewrite (String.compare_antisym s1 s2). intros H1 H2.
  apply String.compare_eq_iff. rewrite (String.compare_antisym s1 s2).
  destruct (String.compare s2 s1); simpl in *; done.
Qed.

Lemma lt_asym s1 s2 : lt s1 s2 = true -> lt s2 s1 = false.
Proof.
  intros H12. apply not_true_iff_false. intros H21.
  pose proof (lt_trans _ _ _ H12 H21) as Hrefl. by rewrite lt_irrefl in Hrefl.
Qed.

Lemma lt_neg_trans s1 s2 s3 :
  lt s1 s2 = false -> lt s2 s3 = false -> lt s1 s3 = false.
Proof.
  intros H12 H23. apply not_true_iff_false. intros H13.
  destruct (lt s2 s1) eqn:H21.
  - by rewrite (lt_trans _ _ _ H21 H13) in H23.
  - rewrite (lt_total _ _ H12 H21) in H13. by rewrite H13 in H23.
Qed.

Lemma lt_ne s1 s2 : lt s1 s2 = true -> s1 <> s2.
Proof. intros Hlt ->. by rewrite lt_irrefl in Hlt. Qed.

End StringOrder.

Lemma Sorted_StronglySorted_on {A} (R : relation A) (P : A -> Prop) l :
  (forall a b c, P a -> P b -> P c -> R a b -> R b c -> R a c) ->
  Forall P l -> Sorted R l -> StronglySorted R l.
Proof.
  intros Htrans HP Hsorted. induction Hsorted as [|x l Hl IH Hhd].
  { constructor. }
  apply Forall_cons in HP as [Hx HP]. specialize (IH HP).
  constructor; [done|].
  destruct Hhd as [|y l' Hxy]; [constructor|].
  apply StronglySorted_cons in IH as [Hy _].
  apply Forall_cons in HP as [HPy HP'].
  constructor; [done|].
  rewrite Forall_forall in Hy, HP' |- *.
  intros z Hz. eapply (Htrans x y z); eauto.
Qed.

Lemma SliceSorts_strongly {A} sort_Slice (less : A -> A -> bool) l :
  SliceSorts sort_Slice -> StrictWeakOn less l ->
  StronglySorted (inOrder less) (sort_Slice less l).
Proof.
  intros Hsort Hswo. destruct (Hsort less l) as [Hperm Hsorted].
  destruct Hswo as (Hirr & Htr & Hneg).
  apply (Sorted_StronglySorted_on _ (fun a => a ∈ l)).
  - unfold inOrder. intros a b c Ha Hb Hc Hab Hbc. by apply (Hneg c b a).
  - apply Forall_forall. intros a Ha. by rewrite <- Hperm.
  - apply Hsorted. done.
Qed.

(** Insertion sort keeps the promise of [sort.Slice]. *)
Module InsertionSortFacts.
Section Facts.
Context {A : Type} (less : A -> A -> bool).
Import InsertionSort.

Lemma insertBack_perm x sortedRev : insertBack less x sortedRev ≡ₚ x :: sortedRev.
Proof.
  induction sortedRev as [|p rest IH]; [done|]. simpl.
  destruct (less x p); [|done]. rewrite IH. apply perm_swap.
Qed.

Lemma sort_perm l : sort less l ≡ₚ l.
Proof.
  unfold sort. rewrite reverse_Permutation.
  change l with ([] ++ l) at 2. generalize (@nil A) as acc.
  induction l as [|x l IH]; intros acc; simpl.
  - by rewrite app_nil_r.
  - rewrite IH, insertBack_perm. simpl. apply Permutation_middle.
Qed.

Lemma insertBack_sorted (P : A -> Prop) x sortedRev :
  (forall a b, P a -> P b -> less a b = true -> less b a = false) ->
  P x -> Forall P sortedRev ->
  Sorted (flip (inOrder less)) sortedRev ->
  Sorted (flip (inOrder less)) (insertBack less x sortedRev).
Proof.
  intros Hasym Hx HP Hsorted.
  induction Hsorted as [|p rest Hrest IH Hhd]; simpl.
  { repeat constructor. }
  apply Forall_cons in HP as [Hp HP].
  destruct (less x p) eqn:Hxp.
  - constructor; [by apply IH|].
    destruct Hhd as [|q rest' Hpq]; simpl.
    + constructor. unfold flip, inOrder. by apply Hasym.
    + destruct (less x q); constructor; [done|].
      unfold flip, inOrder. by apply Hasym.
  - constructor; [by constructor|]. by constructor.
Qed.

Lemma foldl_insertBack_sorted (P : A -> Prop) todo acc :
  (forall a b, P a -> P b -> less a b = true -> less b a = false) ->
  Forall P todo -> Forall P acc ->
  Sorted (flip (inOrder less)) acc ->
  Sorted (flip (inOrder less))
    (foldl (fun sortedRev x => insertBack less x sortedRev) acc todo).
Proof.
  intros Hasym. revert acc.
  induction todo as [|x todo IH]; intros acc Htodo Hacc Hs; [done|]. simpl.
  apply Forall_cons in Htodo as [Hx Htodo].
  apply IH; [done| |by apply (insertBack_sorted P)].
  apply Forall_forall. intros a Ha. rewrite insertBack_perm in Ha.
  apply elem_of_cons in Ha as [->|Ha]; [done|].
  rewrite Forall_forall in Hacc. by apply Hacc.
Qed.

Lemma sort_sorted l :
  StrictWeakOn less l -> Sorted (inOrder less) (sort less l).
Proof.
  intros (Hirr & Htr & _).
  assert (Hasym : forall a b, a ∈ l -> b ∈ l -> less a b = true -> less b a = false).
  { intros a b Ha Hb Hab. apply not_true_iff_false. intros Hba.
    pose proof (Htr a b a Ha Hb Ha Hab Hba) as Haa.
    by rewrite (Hirr a Ha) in Haa. }
  unfold sort.
  apply (Sorted_reverse (flip (inOrder less))).
  apply (foldl_insertBack_sorted (fun a => a ∈ l)); [done| |constructor|constructor].
  by apply Forall_forall.
Qed.

End Facts.

(** For a less function that never holds both ways, insertion sort leaves
    no element followed by one that sorts before it, transitive or not. *)
Lemma sort_adjacent {A} (less : A -> A -> bool) l :
  (forall a b, less a b = true -> less b a = false) ->
  Sorted (inOrder less) (InsertionSort.sort less l).
Proof.
  intros Hasym. unfold InsertionSort.sort.
  apply (Sorted_reverse (flip (inOrder less))).
  apply (foldl_insertBack_sorted less (fun _ => True)).
  - intros a b _ _. apply Hasym.
  - by apply Forall_forall.
  - constructor.
  - constructor.
Qed.

Lemma sort_SliceSorts {A} : SliceSorts (@InsertionSort.sort A).
Proof. intros less l. split; [apply sort_perm|apply sort_sorted]. Qed.

End InsertionSortFacts.

Section GradeOrder.

Lemma gradeLess_other_class a b :
  Class a <> Class b -> gradeLess a b = lt (Class a) (Class b).
Proof.
  intros Hne. unfold gradeLess.
  by destruct (String.eqb_spec (Class a) (Class b)).
Qed.

Lemma gradeLess_same_class a b :
  Class a = Class b -> gradeLess a b = seatLess (SeatNumber a) (SeatNumber b).
Proof.
  intros Heq. unfold gradeLess, seatLess.
  by destruct (String.eqb_spec (Class a) (Class b)).
Qed.

Lemma gradeLess_class a b : gradeLess a b = true -> lt (Class b) (Class a) = false.
Proof.
  destruct (decide (Class a = Class b)) as [Heq|Hne].
  - intros _. rewrite Heq. apply lt_irrefl.
  - rewrite gradeLess_other_class by done. apply lt_asym.
Qed.

Lemma not_gradeLess_class a b :
  gradeLess a b = false -> Class a <> Class b -> lt (Class b) (Class a) = true.
Proof.
  intros Hless Hne. rewrite gradeLess_other_class in Hless by done.
  destruct (lt (Class b) (Class a)) eqn:Hba; [done|].
  destruct Hne. by apply lt_total.
Qed.

Lemma gradeLess_irrefl a : gradeLess a a = false.
Proof.
  rewrite gradeLess_same_class by done. unfold seatLess.
  destruct (Atoi (SeatNumber a)); [apply Z.ltb_irrefl|apply lt_irrefl].
Qed.

Lemma inOrder_gradeLess a b : inOrder gradeLess a b <-> rowInOrder a b.
Proof.
  unfold inOrder, rowInOrder.
  destruct (decide (Class a = Class b)) as [Heq|Hne].
  - rewrite gradeLess_same_class by done. unfold seatLess, seatInOrder.
    rewrite Heq, lt_irrefl.
    destruct (Atoi (SeatNumber a)), (Atoi (SeatNumber b));
      rewrite ?Z.ltb_ge; (split; [intros ?; by right|by intros [?|[_ ?]]]).
  - split.
    + intros Hless. left. apply not_gradeLess_class; [done|congruence].
    + intros [Hlt|[? _]]; [|done].
      rewrite gradeLess_other_class by congruence. by apply lt_asym.
Qed.

Ltac mixed_seats :=
  solve [ exfalso;
          match goal with
          | U : is_Some _ <-> is_Some _ |- _ =>
              destruct U as [U1 U2];
              first [ destruct U1 as [? [=]]; by eexists
                    | destruct U2 as [? [=]]; by eexists ]
          end ].

Lemma seatLess_trans s1 s2 s3 :
  (is_Some (Atoi s1) <-> is_Some (Atoi s2)) ->
  (is_Some (Atoi s2) <-> is_Some (Atoi s3)) ->
  seatLess s1 s2 = true -> seatLess s2 s3 = true -> seatLess s1 s3 = true.
Proof.
  unfold seatLess.
  destruct (Atoi s1), (Atoi s2), (Atoi s3); intros U12 U23;
    try mixed_seats.
  - rewrite !Z.ltb_lt. lia.
  - apply lt_trans.
Qed.

Lemma seatLess_neg_trans s1 s2 s3 :
  (is_Some (Atoi s1) <-> is_Some (Atoi s2)) ->
  (is_Some (Atoi s2) <-> is_Some (Atoi s3)) ->
  seatLess s1 s2 = false -> seatLess s2 s3 = false -> seatLess s1 s3 = false.
Proof.
  unfold seatLess.
  destruct (Atoi s1), (Atoi s2), (Atoi s3); intros U12 U23;
    try mixed_seats.
  - rewrite !Z.ltb_ge. lia.
  - apply lt_neg_trans.
Qed.

Lemma uniformSeats_StrictWeakOn l : uniformSeats l -> StrictWeakOn gradeLess l.
Proof.
  intros Huni. split; [|split].
  - intros a _. apply gradeLess_irrefl.
  - intros a b c Ha Hb Hc Hab Hbc.
    destruct (decide (Class a = Class b)) as [Eab|Nab];
      destruct (decide (Class b = Class c)) as [Ebc|Nbc].
    + rewrite gradeLess_same_class in Hab, Hbc |- * by congruence.
      apply (seatLess_trans _ (SeatNumber b)); [by apply Huni|by apply Huni|done|done].
    + rewrite gradeLess_other_class in Hbc |- * by congruence.
      by rewrite Eab.
    + rewrite gradeLess_other_class in Hab by done.
      rewrite gradeLess_other_class by congruence. by rewrite <- Ebc.
    + rewrite gradeLess_other_class in Hab, Hbc by done.
      pose proof (lt_trans _ _ _ Hab Hbc) as Hac.
      rewrite gradeLess_other_class; [done|by apply lt_ne].
  - intros a b c Ha Hb Hc Hab Hbc.
    destruct (decide (Class a = Class b)) as [Eab|Nab];
      destruct (decide (Class b = Class c)) as [Ebc|Nbc].
    + rewrite gradeLess_same_class in Hab, Hbc |- * by congruence.
      apply (seatLess_neg_trans _ (SeatNumber b)); [by apply Huni|by apply Huni|done|done].
    + pose proof (not_gradeLess_class b c Hbc Nbc) as Hcb.
      rewrite gradeLess_other_class by congruence.
      rewrite Eab. by apply lt_asym.
    + pose proof (not_gradeLess_class a b Hab Nab) as Hba.
      rewrite gradeLess_other_class by congruence.
      rewrite <- Ebc. by apply lt_asym.
    + pose proof (not_gradeLess_class a b Hab Nab) as Hba.
      pose proof (not_gradeLess_class b c Hbc Nbc) as Hcb.
      pose proof (lt_trans _ _ _ Hcb Hba) as Hca.
      rewrite gradeLess_other_class; [by apply lt_asym|].
      apply lt_ne in Hca. congruence.
Qed.

End GradeOrder.

Lemma gradeLess_asym a b : gradeLess a b = true -> gradeLess b a = false.
Proof.
  destruct (decide (Class a = Class b)) as [Heq|Hne].
  - rewrite !gradeLess_same_class by done. unfold seatLess.
    destruct (Atoi (SeatNumber a)), (Atoi (SeatNumber b)); try apply lt_asym.
    rewrite Z.ltb_lt, Z.ltb_ge. lia.
  - rewrite !gradeLess_other_class by done. apply lt_asym.
Qed.

(** With insertion sort, which [sort.Slice] runs on slices of at most
    twelve elements, neighbouring rows of a report are in order and the
    classes never decrease, whatever the seat labels are. *)
Lemma insertion_sort_neighbours_and_classes l :
  Sorted rowInOrder (InsertionSort.sort gradeLess l) /\
  StronglySorted (fun a b => lt (Class b) (Class a) = false)
    (InsertionSort.sort gradeLess l).
Proof.
  pose proof (InsertionSortFacts.sort_adjacent gradeLess l gradeLess_asym) as Hs.
  assert (Hrow : Sorted rowInOrder (InsertionSort.sort gradeLess l)).
  { induction Hs as [|a rest Hrest IH Hhd]; constructor; [done|].
    destruct Hhd; constructor. by apply inOrder_gradeLess. }
  split; [done|].
  apply (Sorted_StronglySorted_on _ (fun _ => True)).
  - intros a b c _ _ _ Hab Hbc. by apply (lt_neg_trans _ (Class b)).
  - by apply Forall_forall.
  - clear Hs. induction Hrow as [|a rest Hrest IH Hhd]; constructor; [done|].
    destruct Hhd as [|b rest' Hab]; constructor.
    destruct Hab as [Hlt|[Heq _]]; [by apply lt_asym|].
    rewrite Heq. apply lt_irrefl.
Qed.

Lemma createCSVReport_writable sort_Slice env csvHeaders disk filename key grades :
  create_ok env filename = true -> write_quota env filename = None ->
  createCSVReport sort_Slice env csvHeaders disk filename key grades =
  (<[filename := csvHeaders :: (Row <$> sort_Slice gradeLess grades)]> disk,
   sort_Slice gradeLess grades, false).
Proof.
  intros Hcreate Hquota. unfold createCSVReport.
  rewrite Hcreate, Hquota. simpl.
  by rewrite writeRows_unlimited, flushed_unlimited.
Qed.

(** C3, for buckets with uniform seat labels.  The less function of the
    report is the order of the specification: by class as a string, then by
    seat number, as integers when both seat numbers parse and as strings
    otherwise, and it is defined on every pair of rows.  For a bucket in
    which, class by class, the seat numbers all parse or none does, the rows
    written to the report file are rows of the bucket, every one of them
    standing before all the rows that follow it in that order; the file holds
    the header and then these rows, or nothing.  When no error is returned the
    bucket is left sorted, with all its rows, and the rows in the file are the
    first of it; they are all of it when the file can be written. *)
Theorem report_rows_sorted sort_Slice env csvHeaders disk filename key grades :
  SliceSorts sort_Slice ->
  uniformSeats grades ->
  (forall a b, gradeLess b a = false <-> rowInOrder a b) /\
  let '(disk', grades', err) :=
    createCSVReport sort_Slice env csvHeaders disk filename key grades in
  exists written,
    StronglySorted rowInOrder written /\
    (forall g, g ∈ written -> g ∈ grades) /\
    (create_ok env filename = false -> disk' = disk) /\
    (create_ok env filename = true ->
     disk' !! filename = Some [] \/
     disk' !! filename = Some (csvHeaders :: (Row <$> written))) /\
    (err = false ->
     grades' ≡ₚ grades /\ StronglySorted rowInOrder grades' /\
     exists n, written = take n grades') /\
    (create_ok env filename = true -> write_quota env filename = None ->
     err = false /\ written = grades' /\
     disk' !! filename = Some (csvHeaders :: (Row <$> written))).
Proof.
  intros Hsort Huni. split; [apply inOrder_gradeLess|].
  assert (Hss : StronglySorted rowInOrder (sort_Slice gradeLess grades)).
  { pose proof (SliceSorts_strongly sort_Slice gradeLess grades Hsort
                  (uniformSeats_StrictWeakOn grades Huni)) as Hss.
    induction Hss as [|a l Hl IH Ha]; constructor; [done|].
    eapply Forall_impl; [exact Ha|]. intros b. apply inOrder_gradeLess. }
  destruct (Hsort gradeLess grades) as [Hperm _].
  unfold createCSVReport.
  destruct (create_ok env filename) eqn:Hcreate; cbn [negb].
  2:{ exists []. split; [constructor|]. split; [by intros ? ?%elem_of_nil|].
      repeat split; done. }
  destruct (writeFails _ _ 0) eqn:Hheader.
  { exists []. split; [constructor|]. split; [by intros ? ?%elem_of_nil|].
    split; [done|]. split; [intros _; left; apply lookup_insert_eq|].
    split; [done|]. intros _ Hquota. by rewrite Hquota in Hheader. }
  destruct (writeRows_take (write_quota env filename) (write_lag env filename) 1
              (Row <$> sort_Slice gradeLess grades)) as (m & Hdone & Hall).
  destruct (writeRows _ _ 1 _) as [done ok] eqn:Hrows. simpl in Hdone, Hall.
  subst done. cbn [negb]. rewrite flushed_take.
  set (q := accepted _ _ _).
  assert (Hhelp : forall k,
            take (S k) (csvHeaders :: take m (Row <$> sort_Slice gradeLess grades)) =
            csvHeaders :: (Row <$> take (k `min` m) (sort_Slice gradeLess grades))).
  { intros k. simpl. by rewrite take_take, fmap_take. }
  destruct q as [|k] eqn:Hq.
  { exists []. split; [constructor|]. split; [by intros ? ?%elem_of_nil|].
    split; [done|]. split; [intros _; left; apply lookup_insert_eq|].
    split; [intros _; split; [done|]; split; [done|]; by exists 0|].
    intros _ Hquota. exfalso. subst q. rewrite Hquota in Hq. simpl in Hq. lia. }
  rewrite Hhelp.
  exists (take (k `min` m) (sort_Slice gradeLess grades)).
  split; [|split; [|split; [done|split; [|split]]]].
  - rewrite <- (take_drop (k `min` m) (sort_Slice gradeLess grades)) in Hss.
    by apply StronglySorted_app_1_l in Hss.
  - intros g Hg. rewrite <- Hperm. by apply (subseteq_take (k `min` m)).
  - intros _. right. apply lookup_insert_eq.
  - intros _. split; [done|]. split; [done|]. by eexists.
  - intros _ Hquota. rewrite Hquota, writeRows_unlimited in Hrows.
    injection Hrows as Hm <-. split; [done|].
    assert (Hfull : take (k `min` m) (sort_Slice gradeLess grades) =
                    sort_Slice gradeLess grades).
    { apply take_ge. subst q. rewrite Hquota in Hq. simpl in Hq.
      rewrite length_take, length_fmap in Hq.
      specialize (Hall eq_refl). rewrite length_fmap in Hall. lia. }
    rewrite Hfull. split; [done|]. apply lookup_insert_eq.
Qed.

Ltac known_rows H :=
  repeat (apply elem_of_cons in H as [->|H]); [..|by apply elem_of_nil in H].

Lemma report_rows_sorted_witness :
  (forall a b, gradeLess b a = false <-> rowInOrder a b) /\
  let '(disk', grades', err) :=
    createCSVReport (@InsertionSort.sort _) env0 ["h"] ∅ "output/r.csv"
      (mkReportKey "T" "7" "MATH" "Math")
      [seatRow "10"; seatRow "9"; seatRow "2"] in
  exists written,
    StronglySorted rowInOrder written /\
    (forall g, g ∈ written -> g ∈ [seatRow "10"; seatRow "9"; seatRow "2"]) /\
    (create_ok env0 "output/r.csv" = false -> disk' = ∅) /\
    (create_ok env0 "output/r.csv" = true ->
     disk' !! "output/r.csv" = Some [] \/
     disk' !! "output/r.csv" = Some (["h"] :: (Row <$> written))) /\
    (err = false ->
     grades' ≡ₚ [seatRow "10"; seatRow "9"; seatRow "2"] /\
     StronglySorted rowInOrder grades' /\
     exists n, written = take n grades') /\
    (create_ok env0 "output/r.csv" = true -> write_quota env0 "output/r.csv" = None ->
     err = false /\ written = grades' /\
     disk' !! "output/r.csv" = Some (["h"] :: (Row <$> written))).
Proof.
  apply (report_rows_sorted (@InsertionSort.sort _) env0 ["h"] ∅ "output/r.csv"
           (mkReportKey "T" "7" "MATH" "Math")
           [seatRow "10"; seatRow "9"; seatRow "2"]).
  - apply InsertionSortFacts.sort_SliceSorts.
  - intros a b Ha Hb _. known_rows Ha; known_rows Hb; vm_compute;
      split; intros _; eexists; reflexivity.
Defined.

Lemma mixedSeats_cycle :
  gradeLess (seatRow "2") (seatRow "10") = true /\
  gradeLess (seatRow "10") (seatRow "1a") = true /\
  gradeLess (seatRow "1a") (seatRow "2") = true.
Proof. vm_compute. done. Qed.

Lemma not_rowInOrder a b : gradeLess b a = true -> ~ rowInOrder a b.
Proof. intros Hless Hin. apply inOrder_gradeLess in Hin. congruence. Qed.

(** C3 does not extend to mixed seat labels.  For the bucket with the seat
    labels 2, 10 and 1a in one class the report is written in the order 2, 10,
    1a, in which 1a follows 2 although it sorts before it; and no arrangement
    of the three rows has every row before all the rows that follow it in the
    order. *)
Lemma report_rows_unsorted_mixed_seats :
  createCSVReport (@InsertionSort.sort _) env0 ["h"] ∅ "output/r.csv"
    (mkReportKey "T" "7" "MATH" "Math") mixedSeats =
    (<["output/r.csv" := ["h"] :: (Row <$> mixedSeats)]> ∅, mixedSeats, false) /\
  ~ StronglySorted rowInOrder mixedSeats /\
  (forall out, out ≡ₚ mixedSeats -> ~ StronglySorted rowInOrder out).
Proof.
  destruct mixedSeats_cycle as (H1 & H2 & H3).
  apply not_rowInOrder in H1, H2, H3.
  assert (Hall : forall out, out ≡ₚ mixedSeats -> ~ StronglySorted rowInOrder out).
  { intros out Hperm Hsorted. symmetry in Hperm.
    apply permutations_Permutation in Hperm.
    let l := eval vm_compute in (permutations mixedSeats) in
    change (permutations mixedSeats) with l in Hperm.
    repeat (apply elem_of_cons in Hperm as [->|Hperm]);
      [..|by apply elem_of_nil in Hperm];
      repeat match goal with
             | H : StronglySorted _ (_ :: _) |- _ =>
                 apply StronglySorted_cons in H as [? ?]
             | H : Forall _ (_ :: _) |- _ => apply Forall_cons in H as [? ?]
             end; tauto. }
  split; [|split; [|done]].
  - rewrite createCSVReport_writable by reflexivity.
    assert (InsertionSort.sort gradeLess mixedSeats = mixedSeats) as ->
      by (vm_compute; reflexivity).
    reflexivity.
  - by apply Hall.
Qed.

(** ** Properties of the grade reader *)

Lemma padRow_spec width row :
  padRow width row = row ++ replicate (width - length row) "".
Proof.
  unfold padRow. destruct (Nat.ltb_spec (length row) width) as [Hlt|Hge]; [done|].
  replace (width - length row) with 0 by lia. simpl. by rewrite app_nil_r.
Qed.

Lemma padRow_length width row : length (padRow width row) = max (length row) width.
Proof. rewrite padRow_spec, length_app, length_replicate. lia. Qed.

Lemma readGradeRows_grades csvHeaders i rows :
  (readGradeRows csvHeaders i rows).1 =
  (fun row => mkGrade (padRow (length csvHeaders) row)) <$>
    filter (fun row => 7 <= length row) rows.
Proof.
  revert i. induction rows as [|row rows IH]; intros i; [done|].
  cbn [readGradeRows]. specialize (IH (S i)).
  destruct (readGradeRows csvHeaders (S i) rows) as [grades log]. simpl in IH.
  change (FieldStudentName + 1) with 7.
  destruct (Nat.eqb_spec (length row) 0) as [H0|H0].
  { rewrite (filter_cons_False _ row) by lia. done. }
  destruct (Nat.ltb_spec (length row) 7) as [H7|H7].
  - rewrite (filter_cons_False _ row) by lia. done.
  - rewrite (filter_cons_True _ row) by lia. simpl. by rewrite IH.
Qed.

Lemma readGradeRows_log csvHeaders i rows entry :
  entry ∈ (readGradeRows csvHeaders i rows).2 <->
  exists j row, rows !! j = Some row /\ 0 < length row < 7 /\
                entry = WarnShortRow (i + j + 1) (length row).
Proof.
  revert i. induction rows as [|row rows IH]; intros i.
  { simpl. split; [by intros ?%elem_of_nil|by intros (j & row & [=] & _)]. }
  cbn [readGradeRows]. specialize (IH (S i)).
  destruct (readGradeRows csvHeaders (S i) rows) as [grades log]. simpl in IH.
  change (FieldStudentName + 1) with 7.
  assert (Hshift : forall j, S i + j + 1 = i + S j + 1) by lia.
  assert (Htail : entry ∈ log <->
            exists j row', (row :: rows) !! S j = Some row' /\
                           0 < length row' < 7 /\
                           entry = WarnShortRow (i + S j + 1) (length row')).
  { rewrite IH. by setoid_rewrite Hshift. }
  destruct (Nat.eqb_spec (length row) 0) as [H0|H0];
    [|destruct (Nat.ltb_spec (length row) 7) as [H7|H7]]; simpl.
  - rewrite Htail. split.
    + intros (j & row' & ?). by exists (S j), row'.
    + intros ([|j] & row' & Hrow & Hlen & ->); [|by exists j, row'].
      simpl in Hrow. injection Hrow as <-. lia.
  - rewrite elem_of_cons, Htail. split.
    + intros [->|(j & row' & ?)]; [|by exists (S j), row'].
      exists 0, row. rewrite Nat.add_0_r. split; [done|]. split; [lia|done].
    + intros ([|j] & row' & Hrow & Hlen & ->); [|right; by exists j, row'].
      simpl in Hrow. injection Hrow as <-. left. by rewrite Nat.add_0_r.
  - rewrite Htail. split.
    + intros (j & row' & ?). by exists (S j), row'.
    + intros ([|j] & row' & Hrow & Hlen & ->); [|by exists j, row'].
      simpl in Hrow. injection Hrow as <-. lia.
Qed.

(** C4, with the widths as the reader leaves them.  The grade rows admitted
    are the records after the header that have at least seven fields, in input
    order.  A record with one to six fields is dropped with a warning that
    gives its line and its number of fields, and nothing else is logged.  An
    admitted row shorter than the header is padded on the right with empty
    strings to the width of the header; a row at least as wide as the header
    is kept as it is.  So every admitted row is at least as wide as the
    header, and all admitted rows have the width of the header when no record
    is wider than it. *)
Theorem grade_rows_accepted records :
  let width := length (headerOf records) in
  let '(grades, log) := readGradeCSV records in
  grades =
    (fun row => mkGrade (row ++ replicate (width - length row) "")) <$>
      filter (fun row => 7 <= length row) (tail records) /\
  (forall entry, entry ∈ log <->
     exists j row, tail records !! j = Some row /\ 0 < length row < 7 /\
                   entry = WarnShortRow (j + 2) (length row)) /\
  (forall g, g ∈ grades -> 7 <= length (Row g) /\ width <= length (Row g)) /\
  ((forall row, row ∈ tail records -> length row <= width) ->
   forall g, g ∈ grades -> length (Row g) = width).
Proof.
  intros width. unfold readGradeCSV.
  pose proof (readGradeRows_grades (headerOf records) 1 (tail records)) as Hg.
  pose proof (readGradeRows_log (headerOf records) 1 (tail records)) as Hl.
  destruct (readGradeRows (headerOf records) 1 (tail records)) as [grades log].
  simpl in Hg, Hl. fold width in Hg.
  assert (Hrows : forall g, g ∈ grades ->
            exists row, row ∈ tail records /\ 7 <= length row /\
                        Row g = padRow width row).
  { intros g Hin. rewrite Hg in Hin.
    apply list_elem_of_fmap in Hin as (row & -> & Hrow).
    apply list_elem_of_filter in Hrow as [Hlen Hrow]. by exists row. }
  split; [|split; [|split]].
  - rewrite Hg. apply list_fmap_ext. intros _ row _. by rewrite padRow_spec.
  - intros entry. rewrite Hl.
    assert (Hline : forall j, 1 + j + 1 = j + 2) by lia.
    by setoid_rewrite Hline.
  - intros g (row & _ & Hlen & ->)%Hrows. rewrite padRow_length. lia.
  - intros Hnarrow g (row & Hin & Hlen & ->)%Hrows. rewrite padRow_length.
    specialize (Hnarrow row Hin). lia.
Qed.

(** C4 fails for a record wider than the header.  With a header of seven
    columns, a record of seven fields and a record of eight are both admitted,
    unchanged: the admitted rows of the batch do not share one width. *)
Lemma accepted_rows_of_two_widths :
  let records :=
    [ ["code"; "name"; "id"; "year"; "class"; "seat"; "student"];
      ["MATH"; "Math"; "S1"; "7"; "1"; "1"; "Alice"];
      ["MATH"; "Math"; "S2"; "7"; "1"; "2"; "Bob"; "g"] ] in
  exists g g',
    (readGradeCSV records).1 = [g; g'] /\
    length (Row g) = 7 /\ length (Row g') = 8.
Proof. eexists _, _. vm_compute. done. Qed.

(** ** Names of the report files *)

Lemma split_plain s : contains "/" s = false -> Filepath.split s = [s].
Proof.
  induction s as [|c s IH]; [done|]. simpl.
  intros [Hc Hs]%orb_false_iff. by rewrite Hc, (IH Hs).
Qed.

Lemma split_append_slash s t :
  contains "/" s = false ->
  Filepath.split (s +:+ String "/" t) = s :: Filepath.split t.
Proof.
  induction s as [|c s IH]; [done|]. rewrite append_String. simpl.
  intros [Hc Hs]%orb_false_iff. by rewrite Hc, (IH Hs).
Qed.

(** For a name without slash that is not a dot element, joining it to the
    output directory only puts the directory and a slash before it. *)
Lemma Join_output_plain name :
  contains "/" name = false -> contains "_" name = true ->
  Filepath.Join outputDir name = "output/" +:+ name.
Proof.
  intros Hslash Hunder.
  assert (Hne : forall s, contains "_" s = false -> String.eqb name s = false).
  { intros s Hs. apply String.eqb_neq. intros ->. congruence. }
  unfold Filepath.Join, outputDir.
  change (String.eqb "output" "") with false. cbv iota.
  rewrite (Hne "") by done. unfold Filepath.Clean.
  change ("output" +:+ "/" +:+ name) with ("output" +:+ String "/" name).
  change (Filepath.isRooted ("output" +:+ String "/" name)) with false.
  rewrite split_append_slash, split_plain by done.
  cbn [foldl]. unfold Filepath.cleanStep at 2.
  change (String.eqb "output" "") with false.
  change (String.eqb "output" ".") with false.
  change (String.eqb "output" "..") with false. cbn [orb].
  unfold Filepath.cleanStep.
  rewrite (Hne ""), (Hne "."), (Hne "..") by done. reflexivity.
Qed.

Lemma reportFileName_plain key :
  contains "/" (kTeacherName key) = false ->
  contains "/" (kYear key) = false ->
  contains "/" (kSubjectName key) = false ->
  reportFileName key = "output/" +:+ reportBaseName key.
Proof.
  intros HT HY HS. unfold reportFileName. apply Join_output_plain.
  - unfold reportBaseName. rewrite !contains_append, HT, HY, HS. reflexivity.
  - unfold reportBaseName. rewrite !contains_append.
    change (contains "_" "_年級") with true. by rewrite orb_true_r.
Qed.

Lemma reportBaseName_inj key1 key2 :
  contains "_" (kTeacherName key1) = false -> contains "_" (kYear key1) = false ->
  contains "_" (kTeacherName key2) = false -> contains "_" (kYear key2) = false ->
  reportBaseName key1 = reportBaseName key2 ->
  kTeacherName key1 = kTeacherName key2 /\ kYear key1 = kYear key2 /\
  kSubjectName key1 = kSubjectName key2.
Proof.
  intros HT1 HY1 HT2 HY2. unfold reportBaseName.
  rewrite !append_String, !append_empty.
  intros [HT Hrest]%append_cut; [|done..].
  simplify_eq. apply append_cut in Hrest as [HY HS]; [|done..].
  apply append_inj_r in HS. done.
Qed.

(** ** Properties of the report writer *)

(** A fold whose steps commute on entries with different keys does not
    depend on the order of a list of entries with pairwise different keys. *)
Lemma foldl_permutation_keys {A B K} (f : B -> A -> B) (key : A -> K) l1 l2 :
  (forall b a1 a2, key a1 <> key a2 -> f (f b a1) a2 = f (f b a2) a1) ->
  l1 ≡ₚ l2 -> NoDup (key <$> l1) ->
  forall b, foldl f b l1 = foldl f b l2.
Proof.
  intros Hcomm Hperm.
  induction Hperm as [|a l1 l2 Hperm IH|a1 a2 l|l1 l2 l3 H12 IH12 H23 IH23];
    intros Hnodup b.
  - done.
  - simpl. apply IH. rewrite fmap_cons in Hnodup. by apply NoDup_cons in Hnodup as [_ ?].
  - simpl. rewrite Hcomm; [done|].
    rewrite !fmap_cons in Hnodup. apply NoDup_cons in Hnodup as [Hnotin _].
    intros Heq. apply Hnotin. rewrite Heq. apply list_elem_of_here.
  - rewrite IH12 by done. apply IH23. by rewrite <- H12.
Qed.

Section ReportFacts.

Variable sort_Slice :
  (GradeRecord -> GradeRecord -> bool) -> list GradeRecord -> list GradeRecord.
Variable env : IOEnv.
Variable csvHeaders : list string.

Local Abbreviation contentOf := (reportContent sort_Slice env csvHeaders).
Local Abbreviation bucketOf' := (reportBucket sort_Slice env).
Local Abbreviation failsOn := (reportErr sort_Slice env).
Local Abbreviation onDisk := (diskStep sort_Slice env csvHeaders).
Local Abbreviation onBuckets := (bucketStep sort_Slice env).
Local Abbreviation onFiles := (filesStep sort_Slice env).
Local Abbreviation failed := (failure sort_Slice env).

Lemma createCSVReport_parts disk filename key grades :
  createCSVReport sort_Slice env csvHeaders disk filename key grades =
  (putFile disk filename (contentOf filename grades),
   bucketOf' filename grades, failsOn filename grades).
Proof.
  unfold createCSVReport, reportContent, reportBucket, reportErr, putFile.
  destruct (create_ok env filename); [|done]. cbn [negb].
  destruct (writeFails _ _ 0); [done|].
  by destruct (writeRows _ _ _ _).
Qed.

Lemma reportStep_parts disk reportData files log entry :
  reportStep sort_Slice env csvHeaders (disk, reportData, files, log) entry =
  (onDisk disk entry, onBuckets reportData entry, onFiles files entry,
   log ++ option_list (failed entry)).
Proof.
  destruct entry as [key grades].
  unfold reportStep, diskStep, bucketStep, filesStep, failure.
  rewrite createCSVReport_parts. simpl.
  destruct (reportErr _ _ _ _); simpl; [done|]. by rewrite app_nil_r.
Qed.

Lemma foldl_reportStep_parts visited disk reportData files log :
  foldl (reportStep sort_Slice env csvHeaders) (disk, reportData, files, log) visited =
  (foldl onDisk disk visited, foldl onBuckets reportData visited,
   foldl onFiles files visited, log ++ omap failed visited).
Proof.
  revert disk reportData files log.
  induction visited as [|entry visited IH]; intros disk reportData files log.
  { simpl. by rewrite app_nil_r. }
  cbn [foldl]. rewrite reportStep_parts, IH. f_equal.
  rewrite <- app_assoc. f_equal.
  change (omap failed (entry :: visited)) with
    (match failed entry with
     | Some e => e :: omap failed visited
     | None => omap failed visited
     end).
  by destruct (failed entry).
Qed.

Lemma generateCSVReports_parts disk reportData visited :
  mkdir_ok env = true ->
  generateCSVReports sort_Slice env csvHeaders disk reportData visited =
  (foldl onDisk disk visited, foldl onBuckets reportData visited,
   foldl onFiles ∅ visited, omap failed visited).
Proof.
  intros Hdir. unfold generateCSVReports. rewrite Hdir. simpl.
  by rewrite foldl_reportStep_parts.
Qed.

Lemma diskStep_commute disk entry1 entry2 :
  reportFileName entry1.1 <> reportFileName entry2.1 ->
  onDisk (onDisk disk entry1) entry2 =
  onDisk (onDisk disk entry2) entry1.
Proof.
  intros Hne. unfold diskStep, putFile.
  destruct (reportContent _ _ _ _ entry1.2), (reportContent _ _ _ _ entry2.2); try done.
  by apply insert_insert_ne.
Qed.

Lemma foldl_diskStep_permutation disk visited1 visited2 :
  visited1 ≡ₚ visited2 ->
  NoDup ((fun entry => reportFileName entry.1) <$> visited1) ->
  foldl onDisk disk visited1 = foldl onDisk disk visited2.
Proof.
  intros Hperm Hnodup.
  apply (foldl_permutation_keys onDisk (fun entry => reportFileName entry.1));
    [|done..].
  intros b a1 a2 Hne. by apply diskStep_commute.
Qed.

Lemma foldl_filesStep_snoc files visited entry :
  foldl onFiles files (visited ++ [entry]) =
  onFiles (foldl onFiles files visited) entry.
Proof. by rewrite foldl_app. Qed.

Lemma foldl_filesStep_named files visited :
  (forall key filename, files !! key = Some filename -> filename = reportFileName key) ->
  forall key filename,
    foldl onFiles files visited !! key = Some filename ->
    filename = reportFileName key.
Proof.
  intros Hfiles. induction visited as [|entry visited IH] using rev_ind; [done|].
  intros key filename. rewrite foldl_filesStep_snoc. unfold filesStep.
  destruct (reportErr _ _ _ _); [apply IH|].
  destruct (decide (entry.1 = key)) as [<-|Hne].
  - rewrite lookup_insert_eq. congruence.
  - rewrite lookup_insert_ne by done. apply IH.
Qed.

Lemma foldl_filesStep_other files visited key :
  key ∉ visited.*1 -> foldl onFiles files visited !! key = files !! key.
Proof.
  induction visited as [|entry visited IH] using rev_ind; [done|].
  rewrite fmap_app, not_elem_of_app, foldl_filesStep_snoc. intros [Hvis Hentry].
  unfold filesStep. destruct (reportErr _ _ _ _); [by apply IH|].
  rewrite lookup_insert_ne; [by apply IH|].
  intros Heq. apply Hentry. simpl. rewrite Heq. apply list_elem_of_here.
Qed.

Lemma foldl_filesStep_lookup visited key grades :
  NoDup visited.*1 -> (key, grades) ∈ visited ->
  foldl onFiles ∅ visited !! key =
  if failsOn (reportFileName key) grades then None
  else Some (reportFileName key).
Proof.
  induction visited as [|entry visited IH] using rev_ind.
  { by intros _ ?%elem_of_nil. }
  rewrite fmap_app, NoDup_app, foldl_filesStep_snoc.
  intros (Hnodup & Hdisj & _) [Hin|Hin]%elem_of_app.
  - assert (Hne : entry.1 <> key).
    { intros Heq. apply (Hdisj key).
      - apply list_elem_of_fmap. by exists (key, grades).
      - simpl. rewrite Heq. apply list_elem_of_here. }
    unfold filesStep. destruct (reportErr _ _ _ entry.2); [by apply IH|].
    rewrite lookup_insert_ne by done. by apply IH.
  - apply list_elem_of_singleton in Hin as <-. unfold filesStep. simpl.
    destruct (reportErr _ _ _ grades).
    + rewrite foldl_filesStep_other; [done|].
      intros Hkey. apply (Hdisj key Hkey). simpl. apply list_elem_of_here.
    + apply lookup_insert_eq.
Qed.

Lemma foldl_bucketStep_dom reportData visited key :
  is_Some (foldl onBuckets reportData visited !! key) <->
  is_Some (reportData !! key) \/ key ∈ visited.*1.
Proof.
  revert reportData. induction visited as [|entry visited IH]; intros reportData.
  { simpl. split; [by left|]. intros [?|?%elem_of_nil]; done. }
  cbn [foldl]. rewrite IH. unfold bucketStep. rewrite fmap_cons, elem_of_cons.
  destruct (decide (entry.1 = key)) as [<-|Hne].
  - rewrite lookup_insert_eq. split; [intros _; right; by left|intros _; left; by eexists].
  - rewrite lookup_insert_ne by done. split; [|intros [?|[?|?]]]; [tauto..|congruence|tauto].
Qed.


End ReportFacts.

(** ** Properties of a whole run *)

Section RunFacts.

Variable sort_Slice :
  (GradeRecord -> GradeRecord -> bool) -> list GradeRecord -> list GradeRecord.
Variable env : IOEnv.

Lemma main_readable sched gradeRecords teacherRecords settings :
  let r := main sort_Slice env sched
             (mkInputs (Some gradeRecords) (Some teacherRecords) settings) in
  let '(disk', reportData', files, log') :=
    written sort_Slice env sched gradeRecords teacherRecords in
  disk r = disk' /\ buckets r = reportData' /\ reportFiles r = files /\
  unmatched r = (matched gradeRecords teacherRecords).2 /\
  isFatal (outcome r) = (size files =? 0) /\
  exists extra,
    logged r = ((exported env gradeRecords teacherRecords).2 ++ log') ++ extra.
Proof.
  unfold main, written, exported, matched. simpl.
  destruct (readGradeCSV gradeRecords) as [grades log]. simpl.
  destruct (matchStudentsToTeachers _ _) as [reportData errorRecords]. simpl.
  destruct (exportUnmatched _ _ _ _) as [disk0 log0]. simpl.
  destruct (generateCSVReports _ _ _ _ _ _) as [[[disk' reportData'] files] log'].
  destruct (size files =? 0) eqn:Hsize.
  { simpl. repeat split; try done. exists []. by rewrite app_nil_r. }
  destruct settings as [settings|]; simpl.
  - destruct (String.eqb (ShouldSendEmail settings) "true"); simpl;
      repeat split; try done; exists []; by rewrite app_nil_r.
  - repeat split; try done. by exists [ErrSettings].
Qed.

Lemma visited_keys sched (reportData : gmap ReportKey (list GradeRecord)) :
  validSchedule sched ->
  NoDup (rangeReportData sched reportData).*1 /\
  (forall key grades,
     (key, grades) ∈ rangeReportData sched reportData <->
     reportData !! key = Some grades) /\
  (forall key,
     key ∈ (rangeReportData sched reportData).*1 <-> is_Some (reportData !! key)).
Proof.
  intros (Hperm & _ & _). specialize (Hperm reportData).
  split; [|split].
  - rewrite Hperm. apply NoDup_fst_map_to_list.
  - intros key grades. rewrite Hperm. apply elem_of_map_to_list.
  - intros key. rewrite Hperm. rewrite list_elem_of_fmap. split.
    + intros ([key' grades] & -> & Hin). apply elem_of_map_to_list in Hin.
      by eexists.
    + intros [grades Hlook]. exists (key, grades). split; [done|].
      by apply elem_of_map_to_list.
Qed.

End RunFacts.

Section WrittenFiles.

Variable sort_Slice :
  (GradeRecord -> GradeRecord -> bool) -> list GradeRecord -> list GradeRecord.
Variable env : IOEnv.
Variable csvHeaders : list string.

Lemma reportErr_content filename grades :
  reportErr sort_Slice env filename grades = false ->
  is_Some (reportContent sort_Slice env csvHeaders filename grades).
Proof.
  unfold reportErr, reportContent.
  destruct (create_ok env filename); [|done]. cbn [negb].
  destruct (writeFails _ _ 0); [done|]. by eexists.
Qed.

Lemma foldl_filesStep_Some visited key filename :
  foldl (filesStep sort_Slice env) ∅ visited !! key = Some filename ->
  exists grades, (key, grades) ∈ visited /\
                 reportErr sort_Slice env (reportFileName key) grades = false.
Proof.
  induction visited as [|[key' grades'] visited IH] using rev_ind; [done|].
  rewrite foldl_filesStep_snoc. unfold filesStep. simpl.
  setoid_rewrite elem_of_app.
  destruct (reportErr _ _ _ grades') eqn:Herr.
  - intros (grades & ? & ?)%IH. exists grades. by split; [left|].
  - destruct (decide (key' = key)) as [->|Hne].
    + intros _. exists grades'. split; [right; apply list_elem_of_here|done].
    + rewrite lookup_insert_ne by done.
      intros (grades & ? & ?)%IH. exists grades. by split; [left|].
Qed.

Lemma diskStep_mono disk entry filename :
  is_Some (disk !! filename) ->
  is_Some (diskStep sort_Slice env csvHeaders disk entry !! filename).
Proof.
  intros Hsome. unfold diskStep, putFile.
  destruct (reportContent _ _ _ _ _); [|done].
  rewrite lookup_insert_is_Some. destruct (decide (reportFileName entry.1 = filename)); auto.
Qed.

Lemma foldl_diskStep_mono disk visited filename :
  is_Some (disk !! filename) ->
  is_Some (foldl (diskStep sort_Slice env csvHeaders) disk visited !! filename).
Proof.
  revert disk. induction visited as [|entry visited IH]; intros disk Hsome; [done|].
  simpl. apply IH. by apply diskStep_mono.
Qed.

Lemma foldl_diskStep_has disk visited key grades :
  (key, grades) ∈ visited ->
  is_Some (reportContent sort_Slice env csvHeaders (reportFileName key) grades) ->
  is_Some (foldl (diskStep sort_Slice env csvHeaders) disk visited
             !! reportFileName key).
Proof.
  revert disk. induction visited as [|entry visited IH]; intros disk Hin Hc.
  { by apply elem_of_nil in Hin. }
  simpl. apply elem_of_cons in Hin as [<-|Hin]; [|by apply IH].
  apply foldl_diskStep_mono. unfold diskStep, putFile. simpl.
  destruct Hc as [content ->]. rewrite lookup_insert_eq. by eexists.
Qed.

End WrittenFiles.

Lemma main_unreadable sort_Slice env sched input :
  gradeCSV input = None \/ teacherCSV input = None ->
  let r := main sort_Slice env sched input in
  isFatal (outcome r) = true /\ reportFiles r = ∅ /\ buckets r = ∅ /\ disk r = ∅.
Proof.
  destruct input as [[gradeRecords|] [teacherRecords|] settings]; simpl;
    intros [[=]|[=]]; unfold main; simpl;
    try destruct (readGradeCSV gradeRecords); done.
Qed.

(** Every report of a run is filed under its key at the path made from
    the key, and the file is on the disk. *)
Lemma reportFiles_named sort_Slice env sched input key filename :
  reportFiles (main sort_Slice env sched input) !! key = Some filename ->
  filename = reportFileName key /\
  is_Some (disk (main sort_Slice env sched input) !! filename).
Proof.
  destruct (decide (gradeCSV input = None \/ teacherCSV input = None)) as [Hno|Hyes].
  { destruct (main_unreadable sort_Slice env sched input Hno) as (_ & -> & _).
    by rewrite lookup_empty. }
  destruct input as [[gradeRecords|] [teacherRecords|] settings];
    try (destruct Hyes; simpl; by auto).
  pose proof (main_readable sort_Slice env sched gradeRecords teacherRecords settings)
    as Hrun.
  cbv zeta in Hrun. unfold written in Hrun.
  destruct (mkdir_ok env) eqn:Hdir.
  - rewrite generateCSVReports_parts in Hrun by done.
    destruct Hrun as (-> & _ & -> & _). intros Hlook.
    assert (filename = reportFileName key) as ->.
    { eapply foldl_filesStep_named; [|exact Hlook]. intros ? ?. by rewrite lookup_empty. }
    split; [done|].
    apply foldl_filesStep_Some in Hlook as (grades & Hin & Herr).
    eapply foldl_diskStep_has; [done|]. by apply reportErr_content.
  - unfold generateCSVReports in Hrun. rewrite Hdir in Hrun. simpl in Hrun.
    destruct Hrun as (_ & _ & -> & _). by rewrite lookup_empty.
Qed.

(** C6, for the three fields a path is made from.  The path of a report is
    the cleaned join of the output directory and the name
    [<teacher>_年級<grade level>_<subject name>.csv]; it is
    [output/<teacher>_年級<grade level>_<subject name>.csv] when none of the
    three fields holds a slash.  It is made from these three fields of the key
    and from nothing else: keys that agree on the three get the same path,
    whatever their subject codes.  Keys whose teacher names and grade levels
    hold no underscore and whose three fields hold no slash get the same path
    only if they agree on the three.  Every report filed in a run is filed
    under its key at that path, and the file exists. *)
Theorem report_path_from_three_fields :
  (forall key,
     reportFileName key =
     Filepath.Join "output"
       (kTeacherName key +:+ "_年級" +:+ kYear key +:+ "_" +:+ kSubjectName key +:+
        ".csv")) /\
  (forall key,
     contains "/" (kTeacherName key) = false -> contains "/" (kYear key) = false ->
     contains "/" (kSubjectName key) = false ->
     reportFileName key =
     "output/" +:+ kTeacherName key +:+ "_年級" +:+ kYear key +:+ "_" +:+
     kSubjectName key +:+ ".csv") /\
  (forall key1 key2,
     kTeacherName key1 = kTeacherName key2 -> kYear key1 = kYear key2 ->
     kSubjectName key1 = kSubjectName key2 ->
     reportFileName key1 = reportFileName key2) /\
  (forall key1 key2,
     plainKey key1 -> plainKey key2 ->
     reportFileName key1 = reportFileName key2 ->
     kTeacherName key1 = kTeacherName key2 /\ kYear key1 = kYear key2 /\
     kSubjectName key1 = kSubjectName key2) /\
  (forall sort_Slice env sched input key filename,
     reportFiles (main sort_Slice env sched input) !! key = Some filename ->
     filename = reportFileName key /\
     is_Some (disk (main sort_Slice env sched input) !! filename)).
Proof.
  split; [done|]. split; [|split; [|split]].
  - intros key HT HY HS. by rewrite reportFileName_plain.
  - intros key1 key2 HT HY HS. unfold reportFileName, reportBaseName.
    by rewrite HT, HY, HS.
  - intros key1 key2 (HT1 & HY1 & ST1 & SY1 & SS1) (HT2 & HY2 & ST2 & SY2 & SS2).
    rewrite !reportFileName_plain by done.
    intros Heq%(inj (String.app "output/")). by apply reportBaseName_inj.
  - apply reportFiles_named.
Qed.

(** C6 fails for keys that differ in the subject code only.  Two keys of one
    teacher, grade level and subject name with the subject codes M1 and M2 are
    different keys with one path. *)
Lemma report_paths_collide :
  mkReportKey "Mr.Lee" "7" "M1" "Math" <> mkReportKey "Mr.Lee" "7" "M2" "Math" /\
  reportFileName (mkReportKey "Mr.Lee" "7" "M1" "Math") =
  reportFileName (mkReportKey "Mr.Lee" "7" "M2" "Math").
Proof. split; [done|reflexivity]. Qed.





Lemma schedA_valid : validSchedule schedA.
Proof. repeat split; intros m; reflexivity. Qed.

Lemma schedB_valid : validSchedule schedB.
Proof. repeat split; intros m; apply reverse_Permutation. Qed.



(** A write failure that does not show.  The file of the report takes no
    record and no [Write] returns an error: the report is filed and mailed,
    nothing is logged, and the file is empty. *)
Example scenario_unnoticed_write_failure :
  let env := mkEnv true (fun _ => true) (fun _ => Some 0) (fun _ => None) in
  let r := main (@InsertionSort.sort _) env schedA oneBucketInput in
  map_to_list (reportFiles r) =
    [(mkReportKey "Mr.Lee" "7" "MATH" "Math", "output/Mr.Lee_年級7_Math.csv")] /\
  map_to_list (disk r) = [("output/Mr.Lee_年級7_Math.csv", [])] /\
  logged r = [] /\
  outcome r =
    EmailsSent [mkMail "lee@x.org" "Mr.Lee" ["output/Mr.Lee_年級7_Math.csv"]].
Proof. vm_compute. done. Qed.

(** C9, for runs whose buckets have different paths.  Two runs on the same
    tables and the same file system leave the same files with the same
    records, whatever the orders in which they visit their maps, provided no
    two buckets of the run have the same file path. *)
Theorem reports_reproducible sort_Slice env sched1 sched2 input :
  validSchedule sched1 -> validSchedule sched2 ->
  (forall key1 key2,
     is_Some (buckets (main sort_Slice env sched1 input) !! key1) ->
     is_Some (buckets (main sort_Slice env sched1 input) !! key2) ->
     reportFileName key1 = reportFileName key2 -> key1 = key2) ->
  disk (main sort_Slice env sched1 input) = disk (main sort_Slice env sched2 input).
Proof.
  intros Hs1 Hs2 Hinj.
  destruct (decide (gradeCSV input = None \/ teacherCSV input = None)) as [Hno|Hyes].
  { destruct (main_unreadable sort_Slice env sched1 input Hno) as (_ & _ & _ & ->).
    by destruct (main_unreadable sort_Slice env sched2 input Hno) as (_ & _ & _ & ->). }
  destruct input as [[gradeRecords|] [teacherRecords|] settings];
    try (destruct Hyes; simpl; by auto).
  pose proof (main_readable sort_Slice env sched1 gradeRecords teacherRecords settings)
    as Hrun1.
  pose proof (main_readable sort_Slice env sched2 gradeRecords teacherRecords settings)
    as Hrun2.
  cbv zeta in Hrun1, Hrun2. unfold written in Hrun1, Hrun2.
  set (reportData := (matched gradeRecords teacherRecords).1) in *.
  destruct (visited_keys sched1 reportData Hs1) as (Hnodup & Hentries & Hkeys).
  destruct (mkdir_ok env) eqn:Hdir.
  - rewrite generateCSVReports_parts in Hrun1, Hrun2 by done.
    destruct Hrun1 as (Hdisk1 & Hbuckets & _). destruct Hrun2 as (-> & _).
    rewrite Hdisk1, Hbuckets in *. apply foldl_diskStep_permutation.
    + destruct Hs1 as (-> & _). by destruct Hs2 as (-> & _).
    + apply NoDup_fmap_2_strong.
      * intros [key1 grades1] [key2 grades2] Hin1 Hin2 Heq. simpl in Heq.
        assert (key1 = key2) as ->.
        { apply Hinj; [| |done]; apply foldl_bucketStep_dom; right;
            apply list_elem_of_fmap; by eexists (_, _). }
        apply Hentries in Hin1, Hin2. congruence.
      * eapply NoDup_fmap_1. exact Hnodup.
  - unfold generateCSVReports in Hrun1, Hrun2. rewrite Hdir in Hrun1, Hrun2.
    simpl in Hrun1, Hrun2. destruct Hrun1 as (-> & _). by destruct Hrun2 as (-> & _).
Qed.

Lemma twoBucket_buckets :
  map_to_list (buckets (main (@InsertionSort.sort _) env0 schedA twoBucketInput)) =
  [(mkReportKey "Mr.Lee" "7" "MATH" "Math",
    [mkGrade ["MATH"; "Math"; "S1"; "7"; "1"; "1"; "Alice"]]);
   (mkReportKey "Ms.Kim" "7" "ENG" "English",
    [mkGrade ["ENG"; "English"; "S1"; "7"; "1"; "1"; "Alice"]])].
Proof. vm_compute. reflexivity. Qed.

Lemma reports_reproducible_witness :
  disk (main (@InsertionSort.sort _) env0 schedA twoBucketInput) =
  disk (main (@InsertionSort.sort _) env0 schedB twoBucketInput).
Proof.
  apply (reports_reproducible (@InsertionSort.sort _) env0 schedA schedB
           twoBucketInput).
  - repeat split; intros m; reflexivity.
  - repeat split; intros m; apply reverse_Permutation.
  - intros key1 key2 [rows1 H1] [rows2 H2] Hpath.
    apply elem_of_map_to_list in H1, H2. rewrite twoBucket_buckets in H1, H2.
    repeat (apply elem_of_cons in H1 as [[= -> ->]|H1]);
      try (by apply elem_of_nil in H1);
      repeat (apply elem_of_cons in H2 as [[= -> ->]|H2]);
      try (by apply elem_of_nil in H2);
      first [reflexivity | vm_compute in Hpath; discriminate Hpath].
Defined.

(** C9 fails when two buckets share a path.  On the tables with the subject
    codes M1 and M2 of one subject name, two runs that visit the two buckets
    in opposite orders leave different records in the one report file: the row
    of Bob in one run, the row of Alice in the other. *)
Lemma reports_differ_between_runs :
  validSchedule schedA /\ validSchedule schedB /\
  disk (main (@InsertionSort.sort _) env0 schedA collisionInput)
    !! "output/Mr.Lee_年級7_Math.csv" =
    Some [gradeHeader; ["M2"; "Math"; "S2"; "7"; "1"; "2"; "Bob"]] /\
  disk (main (@InsertionSort.sort _) env0 schedB collisionInput)
    !! "output/Mr.Lee_年級7_Math.csv" =
    Some [gradeHeader; ["M1"; "Math"; "S1"; "7"; "1"; "1"; "Alice"]] /\
  disk (main (@InsertionSort.sort _) env0 schedA collisionInput) <>
  disk (main (@InsertionSort.sort _) env0 schedB collisionInput).
Proof.
  split; [apply schedA_valid|]. split; [apply schedB_valid|].
  assert (HA : disk (main (@InsertionSort.sort _) env0 schedA collisionInput)
                 !! "output/Mr.Lee_年級7_Math.csv" =
               Some [gradeHeader; ["M2"; "Math"; "S2"; "7"; "1"; "2"; "Bob"]])
    by (vm_compute; reflexivity).
  assert (HB : disk (main (@InsertionSort.sort _) env0 schedB collisionInput)
                 !! "output/Mr.Lee_年級7_Math.csv" =
               Some [gradeHeader; ["M1"; "Math"; "S1"; "7"; "1"; "1"; "Alice"]])
    by (vm_compute; reflexivity).
  split; [done|]. split; [done|].
  intros Heq. rewrite Heq, HB in HA. discriminate HA.
Qed.

(** C10.  The teacher index keeps the last teacher row of a key and the
    distribution plan takes the first.  On the tables with the rows of Ms.
    Ann and Mr.  Bob for one subject, grade level and class, the report is
    filed under the name of Mr.  Bob, whose email is bob\@x.org, and it is
    mailed to ann\@x.org, the email of the row of Ms.  Ann. *)
Theorem report_mailed_to_first_row_of_key :
  (forall teachers key,
     buildTeacherMap teachers !! key = last (withKey key teachers)) /\
  (forall matchKey filename teachers plan,
     attachToFirst matchKey filename teachers plan =
     match head (withKey matchKey teachers) with
     | Some teacher =>
         <[tEmail teacher := default [] (plan !! tEmail teacher) ++ [filename]]> plan
     | None => plan
     end) /\
  let r := main (@InsertionSort.sort _) env0 schedA duplicateKeyInput in
  readTeacherCSV [teacherHeader;
                  ["MATH"; "Math"; "7"; "1"; "A"; "Ms.Ann"; "ann@x.org"];
                  ["MATH"; "Math"; "7"; "1"; "B"; "Mr.Bob"; "bob@x.org"]] =
    [mkTeacher "MATH" "Math" "7" "1" "A" "Ms.Ann" "ann@x.org";
     mkTeacher "MATH" "Math" "7" "1" "B" "Mr.Bob" "bob@x.org"] /\
  map_to_list (reportFiles r) =
    [(mkReportKey "Mr.Bob" "7" "MATH" "Math", "output/Mr.Bob_年級7_Math.csv")] /\
  outcome r =
    EmailsSent [mkMail "ann@x.org" "Ms.Ann" ["output/Mr.Bob_年級7_Math.csv"]].
Proof.
  split; [apply buildTeacherMap_lookup|]. split; [apply attachToFirst_spec|].
  vm_compute. done.
Qed.

(** ** The distribution plan of a run *)

Section PlanOfRun.

Variable sort_Slice :
  (GradeRecord -> GradeRecord -> bool) -> list GradeRecord -> list GradeRecord.
Variable env : IOEnv.
Hypothesis sort_Slice_sorts : SliceSorts sort_Slice.

Lemma main_mails sched gradeRecords teacherRecords settings mails :
  let r := main sort_Slice env sched
             (mkInputs (Some gradeRecords) (Some teacherRecords) settings) in
  outcome r = EmailsSent mails ->
  mails =
    toMail (readTeacherCSV teacherRecords) <$>
      rangeTeacherFiles sched
        (groupReportsByTeacher (rangeReportFiles sched (reportFiles r))
           (buckets r) (readTeacherCSV teacherRecords)).
Proof.
  unfold main. simpl.
  destruct (readGradeCSV gradeRecords) as [grades log].
  destruct (matchStudentsToTeachers _ _) as [reportData errorRecords].
  destruct (exportUnmatched _ _ _ _) as [disk0 log0].
  destruct (generateCSVReports _ _ _ _ _ _) as [[[disk' reportData'] files] log'].
  destruct (size files =? 0); [done|].
  destruct settings as [settings|]; [|done].
  destruct (String.eqb (ShouldSendEmail settings) "true"); [|done]. simpl.
  intros [= <-]. apply list_fmap_ext. by intros _ [email files'] _.
Qed.

Lemma reportBucket_perm filename grades :
  reportBucket sort_Slice env filename grades ≡ₚ grades.
Proof.
  unfold reportBucket. repeat case_match; try done; apply sort_Slice_sorts.
Qed.

Lemma foldl_bucketStep_other reportData visited key :
  key ∉ visited.*1 ->
  foldl (bucketStep sort_Slice env) reportData visited !! key = reportData !! key.
Proof.
  revert reportData. induction visited as [|entry visited IH]; intros reportData; [done|].
  rewrite fmap_cons, not_elem_of_cons. intros [Hne Hnotin]. simpl.
  rewrite IH by done. unfold bucketStep. by rewrite lookup_insert_ne.
Qed.

Lemma foldl_bucketStep_lookup reportData visited key grades :
  NoDup visited.*1 -> (key, grades) ∈ visited ->
  foldl (bucketStep sort_Slice env) reportData visited !! key =
  Some (reportBucket sort_Slice env (reportFileName key) grades).
Proof.
  revert reportData. induction visited as [|entry visited IH]; intros reportData.
  { by intros _ ?%elem_of_nil. }
  rewrite fmap_cons, NoDup_cons. intros [Hnotin Hnodup] [<-|Hin]%elem_of_cons.
  - simpl. rewrite foldl_bucketStep_other by done. unfold bucketStep. simpl.
    apply lookup_insert_eq.
  - simpl. by apply IH.
Qed.

Lemma matched_bucket gradeRecords teacherRecords key grades :
  (matched gradeRecords teacherRecords).1 !! key = Some grades ->
  grades <> [] /\
  forall g, g ∈ grades ->
    bucketOf (buildTeacherMap (readTeacherCSV teacherRecords)) g = Some key.
Proof.
  unfold matched.
  destruct (matchStudentsToTeachers_spec (readGradeCSV gradeRecords).1
              (buildTeacherMap (readTeacherCSV teacherRecords))) as [Hd _].
  rewrite Hd. intros [<- Hne]%nonEmpty_Some. split; [done|].
  intros g [Hkey _]%list_elem_of_filter. done.
Qed.

Lemma scanTeachers_indexed teachers key teacher :
  buildTeacherMap teachers !! key = Some teacher ->
  exists first, scanTeachers teachers key = Some first /\ teacherKey first = key.
Proof.
  rewrite buildTeacherMap_lookup. unfold scanTeachers. intros Hlast.
  destruct (withKey key teachers) as [|first rest] eqn:Hwith; [done|].
  exists first. split; [done|].
  assert (Hin : first ∈ withKey key teachers).
  { rewrite Hwith. apply list_elem_of_here. }
  by apply list_elem_of_filter in Hin as [? _].
Qed.

(** In a run every filed report has a representative row, the first row
    of its bucket, and a first teacher with the key of that row. *)
Lemma report_has_recipient sched gradeRecords teacherRecords settings key filename :
  validSchedule sched ->
  let r := main sort_Slice env sched
             (mkInputs (Some gradeRecords) (Some teacherRecords) settings) in
  reportFiles r !! key = Some filename ->
  exists grade teacher,
    representative (buckets r) key = Some grade /\
    scanTeachers (readTeacherCSV teacherRecords) (gradeKey grade) = Some teacher /\
    recipientOf (buckets r) (readTeacherCSV teacherRecords) key =
      Some (tEmail teacher).
Proof.
  intros Hsched r Hfile.
  pose proof (main_readable sort_Slice env sched gradeRecords teacherRecords settings)
    as Hrun.
  cbv zeta in Hrun. fold r in Hrun. unfold written in Hrun.
  set (reportData := (matched gradeRecords teacherRecords).1) in *.
  destruct (visited_keys sched reportData Hsched) as (Hnodup & Hentries & Hkeys).
  destruct (mkdir_ok env) eqn:Hdir.
  2:{ unfold generateCSVReports in Hrun. rewrite Hdir in Hrun. simpl in Hrun.
      destruct Hrun as (_ & _ & Hf & _). by rewrite Hf, lookup_empty in Hfile. }
  rewrite generateCSVReports_parts in Hrun by done.
  destruct Hrun as (_ & Hb & Hf & _). rewrite Hf in Hfile.
  apply foldl_filesStep_Some in Hfile as (grades & Hin & _).
  pose proof (foldl_bucketStep_lookup reportData _ key grades Hnodup Hin) as Hbucket.
  rewrite <- Hb in Hbucket.
  apply Hentries in Hin. apply matched_bucket in Hin as [Hne Hall].
  pose proof (reportBucket_perm (reportFileName key) grades) as Hperm.
  destruct (reportBucket sort_Slice env (reportFileName key) grades)
    as [|grade rest] eqn:Hsorted.
  { apply Permutation_nil_l in Hperm. by destruct Hne. }
  assert (Hgrade : grade ∈ grades).
  { rewrite <- Hperm. apply list_elem_of_here. }
  apply Hall in Hgrade. unfold bucketOf in Hgrade.
  destruct (buildTeacherMap (readTeacherCSV teacherRecords) !! gradeKey grade)
    as [indexed|] eqn:Hindex; [|done].
  apply scanTeachers_indexed in Hindex as (teacher & Hscan & _).
  exists grade, teacher. unfold recipientOf, representative.
  rewrite Hbucket. simpl. rewrite Hscan. done.
Qed.

End PlanOfRun.

(** The plan of a run, in the terms of the program's own keys. *)
Lemma plan_of_run sort_Slice env sched :
  SliceSorts sort_Slice -> validSchedule sched ->
  (forall visited reportData teachers email,
     groupReportsByTeacher visited reportData teachers !! email =
     nonEmpty (attachmentsFor reportData teachers email visited)) /\
  (forall gradeRecords teacherRecords settings mails,
     let r := main sort_Slice env sched
                (mkInputs (Some gradeRecords) (Some teacherRecords) settings) in
     let teachers := readTeacherCSV teacherRecords in
     outcome r = EmailsSent mails ->
     (forall key filename, reportFiles r !! key = Some filename ->
        exists grade teacher mail,
          representative (buckets r) key = Some grade /\
          scanTeachers teachers (gradeKey grade) = Some teacher /\
          mail ∈ mails /\ mailTo mail = tEmail teacher /\
          filename ∈ mailFiles mail) /\
     (forall mail, mail ∈ mails ->
        mailFiles mail <> [] /\
        forall filename, filename ∈ mailFiles mail ->
          exists key, reportFiles r !! key = Some filename /\
                      recipientOf (buckets r) teachers key = Some (mailTo mail))).
Proof.
  intros Hsort Hsched. split; [apply groupReportsByTeacher_spec|].
  intros gradeRecords teacherRecords settings mails r teachers Hout.
  pose proof (main_mails sort_Slice env sched gradeRecords teacherRecords settings
                mails Hout) as Hmails.
  fold r teachers in Hmails.
  destruct Hsched as (Hdata & Hfiles & Hplan).
  set (visited := rangeReportFiles sched (reportFiles r)) in *.
  set (plan := groupReportsByTeacher visited (buckets r) teachers) in *.
  assert (Hvisited : forall key filename,
            (key, filename) ∈ visited <-> reportFiles r !! key = Some filename).
  { intros key filename. unfold visited. rewrite Hfiles. apply elem_of_map_to_list. }
  assert (Hentry : forall email files,
            (email, files) ∈ rangeTeacherFiles sched plan <->
            nonEmpty (attachmentsFor (buckets r) teachers email visited) = Some files).
  { intros email files. rewrite Hplan, elem_of_map_to_list. unfold plan.
    by rewrite groupReportsByTeacher_spec. }
  split.
  - intros key filename Hfile.
    destruct (report_has_recipient sort_Slice env Hsort sched gradeRecords
                teacherRecords settings key filename (conj Hdata (conj Hfiles Hplan))
                Hfile) as (grade & teacher & Hrep & Hscan & Hrec).
    fold r teachers in Hrep, Hrec. fold teachers in Hscan.
    assert (Hatt : filename ∈ attachmentsFor (buckets r) teachers (tEmail teacher) visited).
    { unfold attachmentsFor. apply list_elem_of_fmap. exists (key, filename).
      split; [done|]. apply list_elem_of_filter. split; [done|]. by apply Hvisited. }
    destruct (attachmentsFor (buckets r) teachers (tEmail teacher) visited)
      as [|file files] eqn:Hlist; [by apply elem_of_nil in Hatt|].
    exists grade, teacher, (toMail teachers (tEmail teacher, file :: files)).
    split; [done|]. split; [done|]. split; [|done].
    rewrite Hmails. apply list_elem_of_fmap. exists (tEmail teacher, file :: files).
    split; [done|]. apply Hentry. by rewrite Hlist.
  - intros mail Hmail. rewrite Hmails in Hmail.
    apply list_elem_of_fmap in Hmail as ([email files] & -> & Hin).
    apply Hentry in Hin. apply nonEmpty_Some in Hin as [<- Hne]. simpl.
    split; [done|]. intros filename Hatt. unfold attachmentsFor in Hatt.
    apply list_elem_of_fmap in Hatt as ([key filename'] & -> & Hin).
    apply list_elem_of_filter in Hin as [Hrec Hin]. exists key.
    split; [by apply Hvisited|done].
Qed.

Lemma recipientOf_spec reportData teachers key :
  recipientOf reportData teachers key = recipientBySpec reportData teachers key.
Proof.
  unfold recipientOf, recipientBySpec, representative, scanTeachers, withKey.
  destruct (reportData !! key) as [[|row rows]|]; try done. simpl.
  do 2 f_equal. apply filter_ext_elem. intros t _.
  rewrite teacherKey_joined. unfold gradeKey, Sprintf_key, SubjectCode, Year, Class.
  by rewrite !getField_cell.
Qed.

Lemma attachmentsFor_spec reportData teachers email visited :
  attachmentsFor reportData teachers email visited =
  snd <$> filter (fun entry : ReportKey * string =>
                    recipientBySpec reportData teachers entry.1 = Some email) visited.
Proof.
  unfold attachmentsFor. f_equal. apply filter_ext_elem.
  intros entry _. by rewrite recipientOf_spec.
Qed.

(** C8.  The distribution plan takes every (ReportKey, file path) pair in the
    order visited, takes the first row of the pair's bucket as its
    representative, re-derives the key from it (subject code, grade level and
    class of the row joined by underscores), looks for the first teacher of
    the teacher list with that key and appends the path to the list of that
    teacher's email: the list of an email holds exactly the paths of the pairs
    resolved to it, in visiting order, and an email to which no pair is
    resolved has no entry.  When no subject code and no grade level holds an
    underscore, the teacher found is the first one with the subject code, grade
    level and class of the row.  In a run that sends mail, every filed report
    has a recipient and is among the files of the mail to it, and every mail
    carries at least one file, each of them a filed report resolved to the
    address of the mail.  On the tables with a row of Alice for Mr.  Lee and a
    teacher row of Ms.  Kim without any grade row, one mail is sent, to Mr.
    Lee, with the one report; Ms.  Kim gets none. *)
Theorem distribution_plan_by_email sort_Slice env sched :
  SliceSorts sort_Slice -> validSchedule sched ->
  (forall visited reportData teachers email,
     groupReportsByTeacher visited reportData teachers !! email =
     match snd <$> filter (fun entry : ReportKey * string =>
                             recipientBySpec reportData teachers entry.1 = Some email)
                     visited with
     | [] => None
     | files => Some files
     end) /\
  (forall reportData teachers key row rows,
     reportData !! key = Some (row :: rows) ->
     Forall plainTeacher teachers ->
     contains "_" (cell row 0) = false -> contains "_" (cell row 3) = false ->
     recipientBySpec reportData teachers key =
     tEmail <$>
       head (filter (fun t => tSubjectCode t = cell row 0 /\ tYear t = cell row 3 /\
                              tClass t = cell row 4) teachers)) /\
  (forall gradeRecords teacherRecords settings mails,
     let r := main sort_Slice env sched
                (mkInputs (Some gradeRecords) (Some teacherRecords) settings) in
     let teachers := readTeacherCSV teacherRecords in
     outcome r = EmailsSent mails ->
     (forall key filename, reportFiles r !! key = Some filename ->
        exists email mail,
          recipientBySpec (buckets r) teachers key = Some email /\
          mail ∈ mails /\ mailTo mail = email /\ filename ∈ mailFiles mail) /\
     (forall mail, mail ∈ mails ->
        mailFiles mail <> [] /\
        forall filename, filename ∈ mailFiles mail ->
          exists key, reportFiles r !! key = Some filename /\
                      recipientBySpec (buckets r) teachers key = Some (mailTo mail))) /\
  outcome (main (@InsertionSort.sort _) env0 schedA
             (mkInputs
                (Some [gradeHeader; ["MATH"; "Math"; "S1"; "7"; "1"; "1"; "Alice"]])
                (Some [teacherHeader;
                       ["MATH"; "Math"; "7"; "1"; ""; "Mr.Lee"; "lee@x.org"];
                       ["ENG"; "English"; "7"; "1"; ""; "Ms.Kim"; "kim@x.org"]])
                (Some settingsOn))) =
    EmailsSent [mkMail "lee@x.org" "Mr.Lee" ["output/Mr.Lee_年級7_Math.csv"]].
Proof.
  intros Hsort Hsched.
  destruct (plan_of_run sort_Slice env sched Hsort Hsched) as [Hplan Hrun].
  split; [|split; [|split]].
  - intros visited reportData teachers email.
    rewrite Hplan, attachmentsFor_spec. by destruct (snd <$> _).
  - intros reportData teachers key row rows Hlook Hplain Hcode Hyear.
    unfold recipientBySpec. rewrite Hlook. do 2 f_equal.
    apply filter_ext_elem. intros t Ht.
    rewrite Forall_forall in Hplain. destruct (Hplain t Ht) as [Htc Hty]. split.
    + intros Hkey.
      by apply (Sprintf_key_inj _ _ _ (cell row 0) (cell row 3) (cell row 4)) in Hkey.
    + by intros (-> & -> & ->).
  - intros gradeRecords teacherRecords settings mails r teachers Hout.
    destruct (Hrun gradeRecords teacherRecords settings mails Hout) as [Hfiled Hmail].
    fold r teachers in Hfiled, Hmail. split.
    + intros key filename Hfile.
      destruct (Hfiled key filename Hfile)
        as (grade & teacher & mail & Hrep & Hscan & Hin & Hto & Hatt).
      exists (tEmail teacher), mail. split; [|done].
      rewrite <- recipientOf_spec. unfold recipientOf. by rewrite Hrep, Hscan.
    + intros mail Hin. destruct (Hmail mail Hin) as [Hne Hall]. split; [done|].
      intros filename Hatt. destruct (Hall filename Hatt) as (key & Hfile & Hrec).
      exists key. split; [done|]. by rewrite <- recipientOf_spec.
  - vm_compute. reflexivity.
Qed.

Lemma distribution_plan_by_email_witness :
  (forall visited reportData teachers email,
     groupReportsByTeacher visited reportData teachers !! email =
     match snd <$> filter (fun entry : ReportKey * string =>
                             recipientBySpec reportData teachers entry.1 = Some email)
                     visited with
     | [] => None
     | files => Some files
     end) /\
  (forall reportData teachers key row rows,
     reportData !! key = Some (row :: rows) ->
     Forall plainTeacher teachers ->
     contains "_" (cell row 0) = false -> contains "_" (cell row 3) = false ->
     recipientBySpec reportData teachers key =
     tEmail <$>
       head (filter (fun t => tSubjectCode t = cell row 0 /\ tYear t = cell row 3 /\
                              tClass t = cell row 4) teachers)) /\
  (forall gradeRecords teacherRecords settings mails,
     let r := main (@InsertionSort.sort _) env0 schedA
                (mkInputs (Some gradeRecords) (Some teacherRecords) settings) in
     let teachers := readTeacherCSV teacherRecords in
     outcome r = EmailsSent mails ->
     (forall key filename, reportFiles r !! key = Some filename ->
        exists email mail,
          recipientBySpec (buckets r) teachers key = Some email /\
          mail ∈ mails /\ mailTo mail = email /\ filename ∈ mailFiles mail) /\
     (forall mail, mail ∈ mails ->
        mailFiles mail <> [] /\
        forall filename, filename ∈ mailFiles mail ->
          exists key, reportFiles r !! key = Some filename /\
                      recipientBySpec (buckets r) teachers key = Some (mailTo mail))) /\
  outcome (main (@InsertionSort.sort _) env0 schedA
             (mkInputs
                (Some [gradeHeader; ["MATH"; "Math"; "S1"; "7"; "1"; "1"; "Alice"]])
                (Some [teacherHeader;
                       ["MATH"; "Math"; "7"; "1"; ""; "Mr.Lee"; "lee@x.org"];
                       ["ENG"; "English"; "7"; "1"; ""; "Ms.Kim"; "kim@x.org"]])
                (Some settingsOn))) =
    EmailsSent [mkMail "lee@x.org" "Mr.Lee" ["output/Mr.Lee_年級7_Math.csv"]].
Proof.
  apply (distribution_plan_by_email (@InsertionSort.sort _) env0 schedA).
  - apply InsertionSortFacts.sort_SliceSorts.
  - apply schedA_valid.
Defined.

(** * Further properties of the program *)

(** ** Rows and accessors *)

Lemma getField_padRow width row index :
  getField (mkGrade (padRow width row)) index = getField (mkGrade row) index.
Proof.
  unfold getField. simpl. rewrite padRow_spec.
  destruct (decide (index < length row)) as [Hin|Hout].
  - by rewrite lookup_app_l.
  - rewrite lookup_app_r by lia. rewrite (lookup_ge_None_2 row) by lia.
    destruct (replicate _ _ !! _) as [cell|] eqn:Hcell; [|done].
    apply lookup_replicate in Hcell as [-> _]. reflexivity.
Qed.

(** X1.  Padding a row to the width of the header changes nothing that is
    read from it: every accessor returns what it returned on the raw row (the
    empty string for a cell the raw row does not have), and so the key of the
    row is the same. *)
Theorem padding_keeps_accessors width row :
  (forall index,
     getField (mkGrade (padRow width row)) index = getField (mkGrade row) index) /\
  (forall index, length row <= index -> getField (mkGrade row) index = "") /\
  gradeKey (mkGrade (padRow width row)) = gradeKey (mkGrade row).
Proof.
  split; [apply getField_padRow|]. split.
  - intros index Hout. unfold getField. simpl.
    by rewrite (lookup_ge_None_2 row) by lia.
  - unfold gradeKey, SubjectCode, Year, Class. by rewrite !getField_padRow.
Qed.

(** ** The matcher *)

(** X2.  Every bucket holds exactly the input rows that resolve to its key,
    in input order, and no bucket is empty; the unmatched rows are the input
    rows without teacher, in input order. *)
Theorem buckets_in_input_order grades teacherMap :
  (forall key,
     (matchStudentsToTeachers grades teacherMap).1 !! key =
     match rowsFor teacherMap key grades with
     | [] => None
     | rows => Some rows
     end) /\
  (forall key rows,
     (matchStudentsToTeachers grades teacherMap).1 !! key = Some rows ->
     rows <> [] /\ rows `sublist_of` grades) /\
  (matchStudentsToTeachers grades teacherMap).2 = rowsUnmatched teacherMap grades /\
  (matchStudentsToTeachers grades teacherMap).2 `sublist_of` grades.
Proof.
  destruct (matchStudentsToTeachers_spec grades teacherMap) as [Hd He].
  split; [|split; [|split]].
  - intros key. rewrite Hd. by destruct (rowsFor teacherMap key grades).
  - intros key rows. rewrite Hd. intros [<- Hne]%nonEmpty_Some.
    split; [done|]. apply sublist_filter.
  - done.
  - rewrite He. apply sublist_filter.
Qed.

Lemma allRows_append {K A} `{Countable K} (m : gmap K (list A)) key x :
  allRows (<[key := default [] (m !! key) ++ [x]]> m) ≡ₚ x :: allRows m.
Proof.
  unfold allRows. destruct (m !! key) as [old|] eqn:Hold; simpl.
  - rewrite <- insert_delete_eq.
    rewrite map_to_list_insert by apply lookup_delete_eq.
    rewrite <- (map_to_list_delete m key old Hold). simpl.
    rewrite <- app_assoc. simpl. by rewrite <- Permutation_middle.
  - rewrite map_to_list_insert by done. done.
Qed.

Lemma matchStudentsToTeachers_perm grades teacherMap :
  grades ≡ₚ
    (matchStudentsToTeachers grades teacherMap).2 ++
    allRows (matchStudentsToTeachers grades teacherMap).1.
Proof.
  induction grades as [|g grades IH] using rev_ind.
  { unfold matchStudentsToTeachers, allRows. simpl.
    by rewrite map_to_list_empty. }
  rewrite matchStudentsToTeachers_snoc.
  destruct (matchStudentsToTeachers grades teacherMap) as [reportData errorRecords].
  simpl in IH. unfold matchStep.
  destruct (teacherMap !! gradeKey g) as [teacher|]; simpl.
  - unfold appendTo. rewrite allRows_append.
    rewrite (Permutation_app_comm grades), IH. simpl.
    apply Permutation_middle.
  - rewrite (Permutation_app_comm grades), IH, <- app_assoc. simpl.
    apply Permutation_middle.
Qed.

(** X3.  Matching neither loses nor repeats a row: the input rows are, up to
    order, the unmatched rows together with the rows of all the buckets, and
    the numbers of rows add up. *)
Theorem matching_partitions_rows grades teacherMap :
  grades ≡ₚ
    (matchStudentsToTeachers grades teacherMap).2 ++
    allRows (matchStudentsToTeachers grades teacherMap).1 /\
  length grades =
    length (matchStudentsToTeachers grades teacherMap).2 +
    sum_list (length <$> (map_to_list (matchStudentsToTeachers grades teacherMap).1).*2).
Proof.
  split; [apply matchStudentsToTeachers_perm|].
  rewrite (matchStudentsToTeachers_perm grades teacherMap) at 1.
  rewrite length_app. unfold allRows. by rewrite length_concat.
Qed.

(** ** The teacher index *)

(** X4.  Every entry of the teacher index is a teacher of the list, filed
    under its own key; a key is in the index exactly when some teacher of the
    list has it; the index has at most as many entries as the list has
    teachers. *)
Theorem teacher_index_entries teachers :
  (forall key t, buildTeacherMap teachers !! key = Some t ->
     t ∈ teachers /\ teacherKey t = key) /\
  (forall key, is_Some (buildTeacherMap teachers !! key) <->
     exists t, t ∈ teachers /\ teacherKey t = key) /\
  size (buildTeacherMap teachers) <= length teachers.
Proof.
  assert (Hentry : forall key t, buildTeacherMap teachers !! key = Some t ->
            t ∈ teachers /\ teacherKey t = key).
  { intros key t. rewrite buildTeacherMap_lookup.
    intros Hlast%last_Some_elem_of. unfold withKey in Hlast.
    by apply list_elem_of_filter in Hlast as [? ?]. }
  split; [done|]. split.
  - intros key. split.
    + intros [t Ht]. exists t. by apply Hentry.
    + intros (t & Hin & Hkey). rewrite buildTeacherMap_lookup.
      destruct (last (withKey key teachers)) as [t'|] eqn:Hlast; [by eexists|].
      apply last_None in Hlast.
      assert (Hmem : t ∈ withKey key teachers) by (by apply list_elem_of_filter).
      rewrite Hlast in Hmem. by apply elem_of_nil in Hmem.
  - clear Hentry. induction teachers as [|t teachers IH] using rev_ind; [done|].
    rewrite buildTeacherMap_snoc, length_app. simpl.
    destruct (buildTeacherMap teachers !! teacherKey t) eqn:Hold.
    + rewrite map_size_insert_Some by (by eexists). lia.
    + rewrite map_size_insert_None by done. lia.
Qed.

Lemma append_assoc s t u : (s +:+ t) +:+ u = s +:+ t +:+ u.
Proof. induction s as [|c s IH]; [done|]. rewrite !append_String. by rewrite IH. Qed.

(** X5.  On a list of teachers and a grade row whose subject codes and grade
    levels hold no underscore, the index resolves the row to the last teacher
    of the list with the row's subject code, grade level and class, and to
    none when there is no such teacher; the group of the row and of the
    teacher play no part. *)
Theorem row_resolves_to_last_teacher_of_triple teachers g :
  Forall plainTeacher teachers ->
  contains "_" (SubjectCode g) = false -> contains "_" (Year g) = false ->
  buildTeacherMap teachers !! gradeKey g = last (teachersOf g teachers).
Proof.
  intros Hplain Hcode Hyear. rewrite buildTeacherMap_lookup.
  unfold withKey, teachersOf. f_equal.
  induction Hplain as [|t teachers [Htc Hty] _ IH]; [done|].
  rewrite !filter_cons, IH.
  destruct (decide (teacherKey t = gradeKey g)) as [Hkey|Hkey].
  - apply Sprintf_key_inj in Hkey as (? & ? & ?); [|done..].
    by rewrite decide_True.
  - rewrite decide_False; [done|].
    intros (Hc & Hy & Hcl). apply Hkey. unfold teacherKey, gradeKey. congruence.
Qed.

Lemma row_resolves_to_last_teacher_of_triple_witness :
  buildTeacherMap [t1] !! gradeKey g1 = last (teachersOf g1 [t1]).
Proof.
  apply row_resolves_to_last_teacher_of_triple.
  - repeat constructor.
  - reflexivity.
  - reflexivity.
Defined.

(** X6.  The key of the index is the three fields joined by underscores, so
    an underscore inside a field moves the border between them: a grade row
    of subject code [c_x] and grade level [y] has the key of a teacher of
    subject code [c] and grade level [x_y] of the same class, and is matched
    to that teacher although the subject codes differ. *)
Theorem underscore_moves_field_border g t x :
  SubjectCode g = tSubjectCode t +:+ "_" +:+ x ->
  tYear t = x +:+ "_" +:+ Year g ->
  tClass t = Class g ->
  gradeKey g = teacherKey t /\
  SubjectCode g <> tSubjectCode t /\
  (matchStudentsToTeachers [g] (buildTeacherMap [t])).1 !! reportKeyOf t g = Some [g] /\
  (matchStudentsToTeachers [g] (buildTeacherMap [t])).2 = [].
Proof.
  intros Hcode Hyear Hclass.
  assert (Hkey : gradeKey g = teacherKey t).
  { unfold gradeKey, teacherKey, Sprintf_key. rewrite Hcode, Hyear, Hclass.
    by rewrite !append_assoc. }
  assert (Hfound : buildTeacherMap [t] !! gradeKey g = Some t).
  { unfold buildTeacherMap. simpl. rewrite Hkey. apply lookup_insert_eq. }
  split; [done|]. split.
  - rewrite Hcode. intros Heq. apply (f_equal String.length) in Heq.
    rewrite length_append in Heq. simpl in Heq. lia.
  - unfold matchStudentsToTeachers. simpl. rewrite Hfound. simpl.
    unfold appendTo. rewrite lookup_empty. simpl. split; [|done].
    apply lookup_insert_eq.
Qed.

Lemma underscore_moves_field_border_witness :
  let g := mkGrade ["A_1"; "Art"; "S1"; "7"; "2"; "1"; "Alice"] in
  let t := mkTeacher "A" "Algebra" "1_7" "2" "" "Mr.Lee" "lee@x.org" in
  gradeKey g = teacherKey t /\
  SubjectCode g <> tSubjectCode t /\
  (matchStudentsToTeachers [g] (buildTeacherMap [t])).1 !! reportKeyOf t g = Some [g] /\
  (matchStudentsToTeachers [g] (buildTeacherMap [t])).2 = [].
Proof.
  intros g t. apply (underscore_moves_field_border g t "1"); reflexivity.
Defined.

(** ** The order of the rows *)

(** X7.  The less function of the report never puts two rows before each
    other, and no row before itself.  Two rows of which neither sorts before
    the other have the same class and the same seat number: the same integer
    when both seat numbers parse, the same string otherwise.  Rows of
    different classes are never tied. *)
Theorem less_function_asymmetric_and_ties a b :
  gradeLess a a = false /\
  (gradeLess a b = true -> gradeLess b a = false) /\
  (gradeLess a b = false -> gradeLess b a = false ->
   Class a = Class b /\
   match Atoi (SeatNumber a), Atoi (SeatNumber b) with
   | Some seatI, Some seatJ => seatI = seatJ
   | _, _ => SeatNumber a = SeatNumber b
   end) /\
  (Class a <> Class b -> gradeLess a b = negb (gradeLess b a)).
Proof.
  split; [apply gradeLess_irrefl|]. split; [apply gradeLess_asym|]. split.
  - intros Hab Hba.
    destruct (decide (Class a = Class b)) as [Heq|Hne].
    + split; [done|].
      rewrite gradeLess_same_class in Hab, Hba by done. unfold seatLess in *.
      destruct (Atoi (SeatNumber a)), (Atoi (SeatNumber b));
        try (by apply lt_total).
      apply Z.ltb_ge in Hab, Hba. lia.
    + rewrite gradeLess_other_class in Hab, Hba by done.
      destruct Hne. by apply lt_total.
  - intros Hne.
    destruct (gradeLess b a) eqn:Hba; simpl.
    + destruct (gradeLess a b) eqn:Hab; [|done].
      apply gradeLess_asym in Hab. congruence.
    + rewrite gradeLess_other_class by done.
      apply not_gradeLess_class; [done|congruence].
Qed.

(** ** One report file *)

(** X8.  [createCSVReport] touches no file but its own and keeps the rows of
    the bucket, whatever their seat labels: when the file cannot be created
    the disk and the bucket are as before and an error is returned; when it
    can be created and written, it is replaced by the header followed by all
    the rows of the bucket, in the order in which the bucket is left, and no
    error is returned. *)
Theorem report_keeps_every_row sort_Slice env csvHeaders disk filename key grades :
  SliceSorts sort_Slice ->
  let '(disk', grades', err) :=
    createCSVReport sort_Slice env csvHeaders disk filename key grades in
  (forall other, other <> filename -> disk' !! other = disk !! other) /\
  grades' ≡ₚ grades /\
  (create_ok env filename = false ->
   disk' = disk /\ grades' = grades /\ err = true) /\
  (create_ok env filename = true -> write_quota env filename = None ->
   disk' !! filename = Some (csvHeaders :: (Row <$> grades')) /\
   length (default [] (disk' !! filename)) = S (length grades) /\
   err = false).
Proof.
  intros Hsort. destruct (Hsort gradeLess grades) as [Hperm _].
  unfold createCSVReport.
  destruct (create_ok env filename) eqn:Hcreate; simpl.
  - destruct (writeFails _ _ 0) eqn:Hfirst.
    + split; [intros other Hne; by rewrite lookup_insert_ne|].
      split; [done|]. split; [done|].
      intros _ Hquota. by rewrite Hquota in Hfirst.
    + destruct (writeRows _ _ 1 _) as [done ok] eqn:Hrows.
      split; [intros other Hne; by rewrite lookup_insert_ne|].
      split; [done|]. split; [done|].
      intros _ Hquota. rewrite Hquota, writeRows_unlimited in Hrows.
      injection Hrows as <- <-. rewrite Hquota, flushed_unlimited.
      rewrite lookup_insert_eq. simpl.
      split; [done|]. split; [|done].
      rewrite length_fmap. f_equal. by apply Permutation_length.
  - split; [done|]. split; [done|]. split; [done|]. done.
Qed.

Lemma report_keeps_every_row_witness :
  let '(disk', grades', err) :=
    createCSVReport (@InsertionSort.sort _) env0 ["h"] ∅ "output/r.csv"
      (mkReportKey "T" "7" "MATH" "Math") mixedSeats in
  (forall other, other <> "output/r.csv" -> disk' !! other = (∅ : Disk) !! other) /\
  grades' ≡ₚ mixedSeats /\
  (create_ok env0 "output/r.csv" = false ->
   disk' = ∅ /\ grades' = mixedSeats /\ err = true) /\
  (create_ok env0 "output/r.csv" = true -> write_quota env0 "output/r.csv" = None ->
   disk' !! "output/r.csv" = Some (["h"] :: (Row <$> grades')) /\
   length (default [] (disk' !! "output/r.csv")) = S (length mixedSeats) /\
   err = false).
Proof.
  apply (report_keeps_every_row (@InsertionSort.sort _) env0 ["h"] ∅ "output/r.csv"
           (mkReportKey "T" "7" "MATH" "Math") mixedSeats).
  apply InsertionSortFacts.sort_SliceSorts.
Defined.

(** ** Where the reports go *)

Lemma cleanStep_plain rooted out elem :
  String.eqb elem "" = false -> String.eqb elem "." = false ->
  String.eqb elem ".." = false ->
  Filepath.cleanStep rooted out elem = elem :: out.
Proof. intros H0 H1 H2. unfold Filepath.cleanStep. by rewrite H0, H1, H2. Qed.

Lemma cleanStep_up rooted top below :
  String.eqb top ".." = false ->
  Filepath.cleanStep rooted (top :: below) ".." = below.
Proof. intros Htop. unfold Filepath.cleanStep. simpl. by rewrite Htop. Qed.

Lemma eqb_by_underscore s t :
  contains "_" s = true -> contains "_" t = false -> String.eqb s t = false.
Proof. intros Hs Ht. apply String.eqb_neq. intros ->. congruence. Qed.

Lemma eqb_by_length s t :
  String.length s <> String.length t -> String.eqb s t = false.
Proof. intros Hlen. apply String.eqb_neq. intros ->. done. Qed.

(** X9.  When teacher name, grade level and subject name hold no slash, the
    report of a key is a file of the output directory itself,
    [output/<teacher>_年級<grade-level>_<subject>.csv], and it is never the
    file of the unmatched rows. *)
Theorem plain_report_stays_in_output key :
  contains "/" (kTeacherName key) = false ->
  contains "/" (kYear key) = false ->
  contains "/" (kSubjectName key) = false ->
  reportFileName key = "output/" +:+ reportBaseName key /\
  contains "/" (reportBaseName key) = false /\
  reportFileName key <> Filepath.Join outputDir "error.csv".
Proof.
  intros HT HY HS. rewrite reportFileName_plain by done.
  split; [done|]. split.
  - unfold reportBaseName. rewrite !contains_append, HT, HY, HS. reflexivity.
  - change (Filepath.Join outputDir "error.csv") with "output/error.csv".
    intros Heq. apply (f_equal (contains "_")) in Heq.
    unfold reportBaseName in Heq. rewrite !contains_append in Heq.
    change (contains "_" "_年級") with true in Heq.
    rewrite orb_true_r in Heq. simpl in Heq. done.
Qed.

Lemma plain_report_stays_in_output_witness :
  reportFileName (mkReportKey "Mr.Lee" "7" "MATH" "Math") =
    "output/" +:+ reportBaseName (mkReportKey "Mr.Lee" "7" "MATH" "Math") /\
  contains "/" (reportBaseName (mkReportKey "Mr.Lee" "7" "MATH" "Math")) = false /\
  reportFileName (mkReportKey "Mr.Lee" "7" "MATH" "Math") <>
    Filepath.Join outputDir "error.csv".
Proof.
  apply (plain_report_stays_in_output (mkReportKey "Mr.Lee" "7" "MATH" "Math"));
    reflexivity.
Defined.

Lemma split_output_under prefix rest :
  contains "/" prefix = false -> contains "_" prefix = true ->
  Filepath.Join outputDir (prefix +:+ String "/" rest) =
  let out := rev (foldl (Filepath.cleanStep false) [prefix; "output"]
                    (Filepath.split rest)) in
  match out with
  | [] => "."
  | _ => String.concat "/" out
  end.
Proof.
  intros Hslash Hunder.
  assert (Hne : forall u, contains "_" u = false ->
            String.eqb (prefix +:+ String "/" rest) u = false).
  { intros u Hu. apply eqb_by_underscore; [|done].
    by rewrite contains_append, Hunder. }
  unfold Filepath.Join, outputDir.
  change (String.eqb "output" "") with false. cbv iota.
  rewrite (Hne "") by done.
  set (path := prefix +:+ String "/" rest).
  assert (Hfold : foldl (Filepath.cleanStep false) []
                    (Filepath.split ("output" +:+ String "/" path)) =
                  foldl (Filepath.cleanStep false) [prefix; "output"]
                    (Filepath.split rest)).
  { rewrite split_append_slash by done. subst path.
    rewrite split_append_slash by done.
    cbn [foldl]. unfold Filepath.cleanStep at 3.
    change (String.eqb "output" "") with false.
    change (String.eqb "output" ".") with false.
    change (String.eqb "output" "..") with false. cbn [orb].
    by rewrite (cleanStep_plain false ["output"] prefix)
      by (apply eqb_by_underscore; done). }
  unfold Filepath.Clean.
  change ("output" +:+ "/" +:+ path) with ("output" +:+ String "/" path).
  change (Filepath.isRooted ("output" +:+ String "/" path)) with false.
  cbv zeta. rewrite Hfold. reflexivity.
Qed.

(** X10.  A slash in the subject name takes the report elsewhere: for the
    subject name [/../s] the report is written to [output/s.csv], so for
    [/../error] to the file of the unmatched rows, and for [/../../s] to
    [s.csv] outside the output directory. *)
Theorem slash_in_subject_moves_report teacherName year code s :
  contains "/" teacherName = false -> contains "/" year = false ->
  contains "/" s = false ->
  reportFileName (mkReportKey teacherName year code ("/../" +:+ s)) =
    "output/" +:+ s +:+ ".csv" /\
  reportFileName (mkReportKey teacherName year code ("/../../" +:+ s)) =
    s +:+ ".csv" /\
  reportFileName (mkReportKey teacherName year code "/../error") =
    Filepath.Join outputDir "error.csv".
Proof.
  intros HT HY HS.
  set (prefix := teacherName +:+ "_年級" +:+ year +:+ "_").
  assert (Hslash : contains "/" prefix = false).
  { unfold prefix. by rewrite !contains_append, HT, HY. }
  assert (Hunder : contains "_" prefix = true).
  { unfold prefix. rewrite !contains_append.
    change (contains "_" "_年級") with true. by rewrite orb_true_r. }
  assert (Hname : forall name, contains "/" name = false ->
            contains "/" (name +:+ ".csv") = false).
  { intros name Hn. by rewrite contains_append, Hn. }
  assert (Hlen : forall name u, String.length u < 4 ->
            String.eqb (name +:+ ".csv") u = false).
  { intros name u Hu. apply eqb_by_length. rewrite length_append. simpl. lia. }
  assert (Hone : forall name, contains "/" name = false ->
            reportFileName (mkReportKey teacherName year code ("/../" +:+ name)) =
            "output/" +:+ name +:+ ".csv").
  { intros name Hn. unfold reportFileName, reportBaseName. simpl.
    replace (teacherName +:+ "_年級" +:+ year +:+ "_" +:+ ("/../" +:+ name) +:+ ".csv")
      with (prefix +:+ String "/" (".." +:+ String "/" (name +:+ ".csv")))
      by (unfold prefix; by rewrite !append_assoc).
    rewrite split_output_under by done.
    rewrite split_append_slash by done. rewrite split_plain by auto.
    cbn [foldl]. rewrite cleanStep_up by (apply eqb_by_underscore; done).
    rewrite cleanStep_plain by (apply Hlen; simpl; lia).
    reflexivity. }
  split; [by apply Hone|]. split; [|by apply (Hone "error")].
  unfold reportFileName, reportBaseName. simpl.
  replace (teacherName +:+ "_年級" +:+ year +:+ "_" +:+ ("/../../" +:+ s) +:+ ".csv")
    with (prefix +:+ String "/" (".." +:+ String "/" (".." +:+ String "/" (s +:+ ".csv"))))
    by (unfold prefix; by rewrite !append_assoc).
  rewrite split_output_under by done.
  rewrite !split_append_slash by done. rewrite split_plain by auto.
  cbn [foldl]. rewrite cleanStep_up by (apply eqb_by_underscore; done).
  rewrite cleanStep_up by done.
  rewrite cleanStep_plain by (apply Hlen; simpl; lia).
  simpl. reflexivity.
Qed.

Lemma slash_in_subject_moves_report_witness :
  reportFileName (mkReportKey "Mr.Lee" "7" "MATH" ("/../" +:+ "x")) =
    "output/" +:+ "x" +:+ ".csv" /\
  reportFileName (mkReportKey "Mr.Lee" "7" "MATH" ("/../../" +:+ "x")) =
    "x" +:+ ".csv" /\
  reportFileName (mkReportKey "Mr.Lee" "7" "MATH" "/../error") =
    Filepath.Join outputDir "error.csv".
Proof.
  apply (slash_in_subject_moves_report "Mr.Lee" "7" "MATH" "x"); reflexivity.
Defined.

(** ** Whole runs *)

(** X11.  When the output directory cannot be made, a run on readable tables
    writes no file at all, files no report and ends fatally for want of
    reports; the failure is logged, as is the failed export of the unmatched
    rows when there are some; the buckets stay as the matcher left them. *)
Theorem mkdir_failure_is_fatal sort_Slice env sched gradeRecords teacherRecords
    settings :
  mkdir_ok env = false ->
  let r := main sort_Slice env sched
             (mkInputs (Some gradeRecords) (Some teacherRecords) settings) in
  outcome r = FatalNoReports /\ disk r = ∅ /\ reportFiles r = ∅ /\
  buckets r = (matched gradeRecords teacherRecords).1 /\
  ErrMkdir ∈ logged r /\
  (unmatched r <> [] -> ErrErrorCSV ∈ logged r).
Proof.
  intros Hdir. unfold main, matched. simpl.
  destruct (readGradeCSV gradeRecords) as [grades log]. simpl.
  destruct (matchStudentsToTeachers _ _) as [reportData errorRecords]. simpl.
  unfold exportUnmatched, generateErrorCSV, generateCSVReports. rewrite Hdir. simpl.
  destruct errorRecords as [|g errorRecords]; simpl.
  - repeat split; try done. set_solver.
  - repeat split; try done; set_solver.
Qed.

Lemma mkdir_failure_is_fatal_witness :
  let r := main (@InsertionSort.sort _) (mkEnv false (fun _ => true) (fun _ => None) (fun _ => None))
             schedA oneBucketInput in
  outcome r = FatalNoReports /\ disk r = ∅ /\ reportFiles r = ∅ /\
  buckets r =
    (matched [gradeHeader; ["MATH"; "Math"; "S1"; "7"; "1"; "1"; "Alice"]]
       [teacherHeader; ["MATH"; "Math"; "7"; "1"; ""; "Mr.Lee"; "lee@x.org"]]).1 /\
  ErrMkdir ∈ logged r /\
  (unmatched r <> [] -> ErrErrorCSV ∈ logged r).
Proof.
  apply (mkdir_failure_is_fatal (@InsertionSort.sort _)
           (mkEnv false (fun _ => true) (fun _ => None) (fun _ => None)) schedA
           [gradeHeader; ["MATH"; "Math"; "S1"; "7"; "1"; "1"; "Alice"]]
           [teacherHeader; ["MATH"; "Math"; "7"; "1"; ""; "Mr.Lee"; "lee@x.org"]]
           (Some settingsOn)).
  reflexivity.
Defined.

Section OrderOfVisits.

Variable sort_Slice :
  (GradeRecord -> GradeRecord -> bool) -> list GradeRecord -> list GradeRecord.
Variable env : IOEnv.

(** The log of a run on readable tables, part by part. *)
Lemma main_logged sched gradeRecords teacherRecords settings :
  let r := main sort_Slice env sched
             (mkInputs (Some gradeRecords) (Some teacherRecords) settings) in
  logged r =
    ((exported env gradeRecords teacherRecords).2 ++
     (written sort_Slice env sched gradeRecords teacherRecords).2) ++
    (if size (reportFiles r) =? 0 then []
     else match settings with
          | None => [ErrSettings]
          | Some _ => []
          end).
Proof.
  unfold main, written, exported, matched. simpl.
  destruct (readGradeCSV gradeRecords) as [grades log]. simpl.
  destruct (matchStudentsToTeachers _ _) as [reportData errorRecords]. simpl.
  destruct (exportUnmatched _ _ _ _) as [disk0 log0]. simpl.
  destruct (generateCSVReports _ _ _ _ _ _) as [[[disk' reportData'] files] log'].
  destruct (size files =? 0) eqn:Hsize; simpl.
  { by rewrite Hsize, app_nil_r. }
  destruct settings as [settings|]; simpl.
  - destruct (String.eqb (ShouldSendEmail settings) "true"); simpl;
      by rewrite Hsize, app_nil_r.
  - by rewrite Hsize.
Qed.



End OrderOfVisits.



Section FilesOfRun.

Variable sort_Slice :
  (GradeRecord -> GradeRecord -> bool) -> list GradeRecord -> list GradeRecord.
Variable env : IOEnv.
Variable csvHeaders : list string.

Local Abbreviation pathOf := (fun entry : ReportKey * list GradeRecord =>
                                reportFileName entry.1).

Lemma foldl_diskStep_other disk visited filename :
  filename ∉ pathOf <$> visited ->
  foldl (diskStep sort_Slice env csvHeaders) disk visited !! filename =
  disk !! filename.
Proof.
  revert disk. induction visited as [|entry visited IH]; intros disk; [done|].
  rewrite fmap_cons, not_elem_of_cons. intros [Hne Hnotin]. simpl.
  rewrite IH by done. unfold diskStep, putFile.
  destruct (reportContent _ _ _ _ _); [|done]. by rewrite lookup_insert_ne.
Qed.

Lemma foldl_diskStep_lookup disk visited key grades :
  NoDup (pathOf <$> visited) -> (key, grades) ∈ visited ->
  foldl (diskStep sort_Slice env csvHeaders) disk visited !! reportFileName key =
  match reportContent sort_Slice env csvHeaders (reportFileName key) grades with
  | Some content => Some content
  | None => disk !! reportFileName key
  end.
Proof.
  revert disk. induction visited as [|entry visited IH]; intros disk.
  { by intros _ ?%elem_of_nil. }
  rewrite fmap_cons, NoDup_cons. intros [Hnotin Hnodup] [<-|Hin]%elem_of_cons.
  - simpl. rewrite foldl_diskStep_other by done. unfold diskStep, putFile. simpl.
    destruct (reportContent _ _ _ _ _); [|done]. apply lookup_insert_eq.
  - simpl. rewrite (IH _ Hnodup Hin).
    destruct (reportContent _ _ _ _ grades); [done|].
    unfold diskStep, putFile.
    destruct (reportContent _ _ _ _ entry.2); [|done].
    rewrite lookup_insert_ne; [done|].
    intros Heq. apply Hnotin. rewrite Heq. apply list_elem_of_fmap.
    by exists (key, grades).
Qed.

Lemma foldl_diskStep_origin disk visited filename :
  is_Some (foldl (diskStep sort_Slice env csvHeaders) disk visited !! filename) ->
  is_Some (disk !! filename) \/ filename ∈ pathOf <$> visited.
Proof.
  revert disk. induction visited as [|entry visited IH]; intros disk; [by left|].
  simpl. intros [Hdisk|Hin]%IH.
  - unfold diskStep, putFile in Hdisk.
    destruct (reportContent _ _ _ _ _); [|by left].
    destruct (decide (filename = reportFileName entry.1)) as [->|Hne].
    + right. apply list_elem_of_here.
    + rewrite lookup_insert_ne in Hdisk by done. by left.
  - right. by apply list_elem_of_further.
Qed.

End FilesOfRun.

(** X13.  A run creates no file but these: the file of the unmatched rows,
    and that only when there are unmatched rows, and the report files of its
    buckets. *)
Theorem run_writes_only_its_files sort_Slice env sched input filename :
  validSchedule sched ->
  is_Some (disk (main sort_Slice env sched input) !! filename) ->
  (filename = Filepath.Join outputDir "error.csv" /\
   unmatched (main sort_Slice env sched input) <> []) \/
  (exists key, is_Some (buckets (main sort_Slice env sched input) !! key) /\
               filename = reportFileName key).
Proof.
  intros Hsched.
  destruct (decide (gradeCSV input = None \/ teacherCSV input = None)) as [Hno|Hyes].
  { destruct (main_unreadable sort_Slice env sched input Hno) as (_ & _ & _ & ->).
    rewrite lookup_empty. by intros [? ?]. }
  destruct input as [[gradeRecords|] [teacherRecords|] settings];
    try (destruct Hyes; simpl; by auto).
  pose proof (main_readable sort_Slice env sched gradeRecords teacherRecords settings)
    as Hrun.
  cbv zeta in Hrun. unfold written in Hrun.
  set (reportData := (matched gradeRecords teacherRecords).1) in *.
  assert (Hexported : is_Some ((exported env gradeRecords teacherRecords).1 !! filename) ->
            filename = Filepath.Join outputDir "error.csv" /\
            (matched gradeRecords teacherRecords).2 <> []).
  { unfold exported.
    pose proof (exportUnmatched_only_error_file env (headerOf gradeRecords)
                  (readGradeCSV gradeRecords).2 (matched gradeRecords teacherRecords).2)
      as Honly.
    intros [content Hcontent]. split.
    - destruct (exportUnmatched _ _ _ _) as [disk0 log0].
      destruct Honly as [Honly _]. by destruct (Honly _ _ Hcontent) as [-> _].
    - intros Hnone. rewrite Hnone in Hcontent. unfold exportUnmatched in Hcontent.
      simpl in Hcontent. by rewrite lookup_empty in Hcontent. }
  destruct (mkdir_ok env) eqn:Hdir.
  - rewrite generateCSVReports_parts in Hrun by done.
    destruct Hrun as (-> & -> & _ & -> & _).
    intros [Hdisk|Hin]%foldl_diskStep_origin.
    + left. by apply Hexported.
    + right. apply list_elem_of_fmap in Hin as ([key grades] & -> & Hin).
      exists key. split; [|done]. apply foldl_bucketStep_dom. right.
      apply list_elem_of_fmap. by exists (key, grades).
  - unfold generateCSVReports in Hrun. rewrite Hdir in Hrun. simpl in Hrun.
    destruct Hrun as (-> & _ & _ & -> & _). intros Hdisk. left. by apply Hexported.
Qed.

Lemma run_writes_only_its_files_witness :
  (Filepath.Join outputDir "Mr.Lee_年級7_Math.csv" =
     Filepath.Join outputDir "error.csv" /\
   unmatched (main (@InsertionSort.sort _) env0 schedA oneBucketInput) <> []) \/
  (exists key,
     is_Some (buckets (main (@InsertionSort.sort _) env0 schedA oneBucketInput) !! key) /\
     Filepath.Join outputDir "Mr.Lee_年級7_Math.csv" = reportFileName key).
Proof.
  apply (run_writes_only_its_files (@InsertionSort.sort _) env0 schedA oneBucketInput).
  - apply schedA_valid.
  - vm_compute. by eexists.
Defined.

Lemma allRows_fmap_perm {K A} `{Countable K} (f : list A -> list A)
    (m : gmap K (list A)) :
  (forall l, f l ≡ₚ l) -> allRows (f <$> m) ≡ₚ allRows m.
Proof.
  intros Hf. unfold allRows. rewrite map_to_list_fmap.
  induction (map_to_list m) as [|[key l] entries IH]; [done|].
  simpl. by rewrite Hf, IH.
Qed.

Section CooperativeRuns.

Variable sort_Slice :
  (GradeRecord -> GradeRecord -> bool) -> list GradeRecord -> list GradeRecord.
Variable env : IOEnv.
Hypothesis env_cooperative : cooperative env.

Lemma cooperative_report csvHeaders filename grades :
  reportContent sort_Slice env csvHeaders filename grades =
    Some (csvHeaders :: (Row <$> sort_Slice gradeLess grades)) /\
  reportBucket sort_Slice env filename grades = sort_Slice gradeLess grades /\
  reportErr sort_Slice env filename grades = false.
Proof.
  destruct env_cooperative as [_ Hfile]. destruct (Hfile filename) as [Hcreate Hquota].
  unfold reportContent, reportBucket, reportErr. rewrite Hcreate, Hquota.
  cbn [negb writeFails]. by rewrite writeRows_unlimited, flushed_unlimited.
Qed.

Lemma cooperative_buckets (reportData : gmap ReportKey (list GradeRecord)) visited :
  NoDup visited.*1 ->
  (forall key grades, (key, grades) ∈ visited <-> reportData !! key = Some grades) ->
  foldl (bucketStep sort_Slice env) reportData visited =
  sort_Slice gradeLess <$> reportData.
Proof.
  intros Hnodup Hentries. apply map_eq. intros key. rewrite lookup_fmap.
  destruct (reportData !! key) as [grades|] eqn:Hlook; simpl.
  - apply Hentries in Hlook.
    rewrite (foldl_bucketStep_lookup _ _ _ _ key grades) by done.
    by destruct (cooperative_report [] (reportFileName key) grades) as (_ & -> & _).
  - rewrite foldl_bucketStep_other; [done|].
    intros ([key' grades] & -> & Hin)%list_elem_of_fmap.
    apply Hentries in Hin. simpl in Hlook. congruence.
Qed.

Lemma cooperative_failures (visited : list (ReportKey * list GradeRecord)) :
  omap (failure sort_Slice env) visited = [].
Proof.
  induction visited as [|[key grades] visited IH]; [done|].
  change (omap ?f (?x :: ?l)) with
    (match f x with Some y => y :: omap f l | None => omap f l end).
  unfold failure at 1. simpl.
  by destruct (cooperative_report [] (reportFileName key) grades) as (_ & _ & ->).
Qed.

Lemma cooperative_export csvHeaders log errorRecords :
  exportUnmatched env csvHeaders log errorRecords =
  (match errorRecords with
   | [] => ∅
   | _ => {[Filepath.Join outputDir "error.csv" := csvHeaders :: (Row <$> errorRecords)]}
   end, log).
Proof.
  unfold exportUnmatched. destruct errorRecords as [|g errorRecords]; [done|].
  change (0 <? length (g :: errorRecords)) with true. cbv iota.
  rewrite generateErrorCSV_writable.
  - by rewrite insert_empty.
  - destruct env_cooperative as [Hdir Hfile].
    destruct (Hfile "output/error.csv") as [Hcreate Hquota]. done.
Qed.

End CooperativeRuns.

(** X14.  In an environment in which every file can be created and written,
    a run on readable tables whose buckets have pairwise different paths,
    none of them the path of the unmatched rows, puts every admitted row in
    exactly one place: the admitted rows are, up to order, the unmatched rows
    and the rows of the buckets; the report of every bucket is filed and
    holds the header and the rows of the bucket as the run leaves it; the
    file of the unmatched rows holds the header and the unmatched rows, and is
    absent when there are none; and nothing is logged but the warnings for
    short rows and unreadable settings. *)
Theorem cooperative_run_files_every_row sort_Slice env sched input gradeRecords
    teacherRecords :
  SliceSorts sort_Slice -> validSchedule sched -> cooperative env ->
  gradeCSV input = Some gradeRecords -> teacherCSV input = Some teacherRecords ->
  (forall key1 key2,
     is_Some (buckets (main sort_Slice env sched input) !! key1) ->
     is_Some (buckets (main sort_Slice env sched input) !! key2) ->
     reportFileName key1 = reportFileName key2 -> key1 = key2) ->
  (forall key,
     is_Some (buckets (main sort_Slice env sched input) !! key) ->
     reportFileName key <> Filepath.Join outputDir "error.csv") ->
  let r := main sort_Slice env sched input in
  (readGradeCSV gradeRecords).1 ≡ₚ unmatched r ++ allRows (buckets r) /\
  (forall key grades, buckets r !! key = Some grades ->
     reportFiles r !! key = Some (reportFileName key) /\
     disk r !! reportFileName key = Some (headerOf gradeRecords :: (Row <$> grades))) /\
  disk r !! Filepath.Join outputDir "error.csv" =
    match unmatched r with
    | [] => None
    | rows => Some (headerOf gradeRecords :: (Row <$> rows))
    end /\
  (forall entry, entry ∈ logged r ->
     entry = ErrSettings \/ exists line fields, entry = WarnShortRow line fields).
Proof.
  intros Hsort Hsched Hcoop Hgrades Hteachers Hinj Herror r.
  destruct input as [[gradeRecords'|] [teacherRecords'|] settings];
    simpl in Hgrades, Hteachers; try discriminate.
  injection Hgrades as ->. injection Hteachers as ->.
  pose proof (main_readable sort_Slice env sched gradeRecords teacherRecords settings)
    as Hrun.
  pose proof (main_logged sort_Slice env sched gradeRecords teacherRecords settings)
    as Hlog.
  cbv zeta in Hrun, Hlog. fold r in Hrun, Hlog, Hinj, Herror. unfold written in Hrun, Hlog.
  set (reportData := (matched gradeRecords teacherRecords).1) in *.
  set (visited := rangeReportData sched reportData) in *.
  destruct (visited_keys sched reportData Hsched) as (Hnodup & Hentries & Hkeys).
  fold visited in Hnodup, Hentries, Hkeys.
  assert (Hdir : mkdir_ok env = true) by apply Hcoop.
  rewrite generateCSVReports_parts in Hrun, Hlog by done. simpl in Hlog.
  destruct Hrun as (Hdisk & Hbuckets & Hfiles & Hunmatched & _).
  rewrite (cooperative_buckets sort_Slice env Hcoop reportData visited Hnodup Hentries)
    in Hbuckets.
  rewrite (cooperative_failures sort_Slice env Hcoop) in Hlog.
  unfold exported in Hdisk, Hlog.
  rewrite (cooperative_export env Hcoop) in Hdisk, Hlog. simpl in Hdisk, Hlog.
  fold (unmatched r) in Hunmatched. rewrite <- Hunmatched in Hdisk.
  assert (Hpaths : NoDup ((fun entry : ReportKey * list GradeRecord =>
                             reportFileName entry.1) <$> visited)).
  { apply NoDup_fmap_2_strong.
    - intros [key1 grades1] [key2 grades2] Hin1 Hin2 Heq. simpl in Heq.
      assert (key1 = key2) as ->.
      { apply Hinj; [| |done]; rewrite Hbuckets, lookup_fmap, fmap_is_Some;
          apply Hkeys, list_elem_of_fmap; by eexists (_, _). }
      apply Hentries in Hin1, Hin2. congruence.
    - eapply NoDup_fmap_1. exact Hnodup. }
  split; [|split; [|split]].
  - rewrite Hbuckets, Hunmatched.
    rewrite (allRows_fmap_perm (sort_Slice gradeLess)) by (intros l; apply Hsort).
    apply matchStudentsToTeachers_perm.
  - intros key grades. rewrite Hbuckets, lookup_fmap.
    destruct (reportData !! key) as [grades0|] eqn:Hlook; [|done].
    simpl. intros [= <-]. apply Hentries in Hlook.
    destruct (cooperative_report sort_Slice env Hcoop (headerOf gradeRecords)
                (reportFileName key) grades0) as (Hcontent & _ & Herr).
    split.
    + rewrite Hfiles, (foldl_filesStep_lookup _ _ _ _ grades0) by done.
      by rewrite Herr.
    + rewrite Hdisk, (foldl_diskStep_lookup _ _ _ _ _ _ grades0) by done.
      by rewrite Hcontent.
  - rewrite Hdisk, foldl_diskStep_other.
    + destruct (unmatched r); [apply lookup_empty|apply lookup_singleton_eq].
    + intros ([key grades] & Heq & Hin)%list_elem_of_fmap. simpl in Heq.
      eapply Herror; [|symmetry; exact Heq].
      rewrite Hbuckets, lookup_fmap, fmap_is_Some.
      apply Hkeys, list_elem_of_fmap. by eexists (_, _).
  - intros entry. rewrite Hlog, app_nil_r. intros [Hin|Hin]%elem_of_app.
    + right. unfold readGradeCSV in Hin.
      apply readGradeRows_log in Hin as (j & row & _ & _ & ->). by eexists _, _.
    + left. destruct (size (reportFiles r) =? 0); [by apply elem_of_nil in Hin|].
      destruct settings; [by apply elem_of_nil in Hin|].
      by apply list_elem_of_singleton in Hin.
Qed.

Lemma env0_cooperative : cooperative env0.
Proof. split; [done|]. by intros filename. Qed.

Lemma cooperative_run_files_every_row_witness :
  let r := main (@InsertionSort.sort _) env0 schedA twoBucketInput in
  let gradeRecords :=
    [gradeHeader;
     ["MATH"; "Math"; "S1"; "7"; "1"; "1"; "Alice"];
     ["ENG"; "English"; "S1"; "7"; "1"; "1"; "Alice"]] in
  (readGradeCSV gradeRecords).1 ≡ₚ unmatched r ++ allRows (buckets r) /\
  (forall key grades, buckets r !! key = Some grades ->
     reportFiles r !! key = Some (reportFileName key) /\
     disk r !! reportFileName key = Some (headerOf gradeRecords :: (Row <$> grades))) /\
  disk r !! Filepath.Join outputDir "error.csv" =
    match unmatched r with
    | [] => None
    | rows => Some (headerOf gradeRecords :: (Row <$> rows))
    end /\
  (forall entry, entry ∈ logged r ->
     entry = ErrSettings \/ exists line fields, entry = WarnShortRow line fields).
Proof.
  assert (Hkeys : forall key,
            is_Some (buckets (main (@InsertionSort.sort _) env0 schedA twoBucketInput)
                       !! key) ->
            key = mkReportKey "Mr.Lee" "7" "MATH" "Math" \/
            key = mkReportKey "Ms.Kim" "7" "ENG" "English").
  { intros key [rows Hin]. apply elem_of_map_to_list in Hin.
    rewrite twoBucket_buckets in Hin.
    apply elem_of_cons in Hin as [[= -> _]|Hin]; [by left|].
    apply elem_of_cons in Hin as [[= -> _]|Hin]; [by right|].
    by apply elem_of_nil in Hin. }
  apply (cooperative_run_files_every_row (@InsertionSort.sort _) env0 schedA
           twoBucketInput _
           [teacherHeader;
            ["MATH"; "Math"; "7"; "1"; ""; "Mr.Lee"; "lee@x.org"];
            ["ENG"; "English"; "7"; "1"; ""; "Ms.Kim"; "kim@x.org"]]).
  - apply InsertionSortFacts.sort_SliceSorts.
  - apply schedA_valid.
  - apply env0_cooperative.
  - reflexivity.
  - reflexivity.
  - intros key1 key2 [-> | ->]%Hkeys [-> | ->]%Hkeys Hpath;
      first [reflexivity | vm_compute in Hpath; discriminate Hpath].
  - intros key [-> | ->]%Hkeys Hpath; vm_compute in Hpath; discriminate Hpath.
Defined.

(** ** The mails of a run *)

Lemma concat_perm {A} (l1 l2 : list (list A)) : l1 ≡ₚ l2 -> concat l1 ≡ₚ concat l2.
Proof.
  induction 1 as [|x l1 l2 _ IH|x y l|l1 l2 l3 _ IH1 _ IH2]; simpl.
  - done.
  - by rewrite IH.
  - rewrite !app_assoc. by rewrite (Permutation_app_comm y x).
  - by rewrite IH1.
Qed.

Lemma groupReportsByTeacher_rows visited reportData teachers :
  (forall entry, entry ∈ visited ->
     is_Some (recipientOf reportData teachers entry.1)) ->
  allRows (groupReportsByTeacher visited reportData teachers) ≡ₚ visited.*2.
Proof.
  induction visited as [|[key filename] visited IH] using rev_ind; intros Hall.
  { unfold groupReportsByTeacher, allRows. simpl. by rewrite map_to_list_empty. }
  rewrite groupReportsByTeacher_snoc, groupStep_spec.
  destruct (Hall (key, filename)) as [email Hrec]; [set_solver|].
  simpl in Hrec. rewrite Hrec.
  rewrite allRows_append, IH by (intros entry Hin; apply Hall; set_solver).
  rewrite fmap_app. simpl. by rewrite Permutation_app_comm.
Qed.

Lemma getTeacherNameByEmail_spec teachers email :
  getTeacherNameByEmail teachers email =
  from_option tTeacherName email (head (withEmail email teachers)).
Proof.
  unfold withEmail. induction teachers as [|t teachers IH]; [done|].
  simpl. rewrite filter_cons.
  destruct (String.eqb_spec (tEmail t) email) as [Heq|Hne].
  - by rewrite decide_True.
  - by rewrite decide_False.
Qed.

Lemma main_sends sort_Slice env sched gradeRecords teacherRecords settings mails :
  outcome (main sort_Slice env sched
             (mkInputs (Some gradeRecords) (Some teacherRecords) settings)) =
    EmailsSent mails ->
  exists s, settings = Some s /\ ShouldSendEmail s = "true".
Proof.
  unfold main. simpl.
  destruct (readGradeCSV gradeRecords) as [grades log].
  destruct (matchStudentsToTeachers _ _) as [reportData errorRecords].
  destruct (exportUnmatched _ _ _ _) as [disk0 log0].
  destruct (generateCSVReports _ _ _ _ _ _) as [[[disk' reportData'] files] log'].
  destruct (size files =? 0); [done|].
  destruct settings as [s|]; [|done].
  destruct (String.eqb_spec (ShouldSendEmail s) "true"); [|done].
  intros _. by exists s.
Qed.

(** X15.  Mails are sent only when the settings are readable and their
    switch is the string [true].  Then no address gets two mails, and the
    attachments of all the mails together are the filed reports, each
    attached once. *)
Theorem filed_reports_mailed_once sort_Slice env sched gradeRecords teacherRecords
    settings mails :
  SliceSorts sort_Slice -> validSchedule sched ->
  outcome (main sort_Slice env sched
             (mkInputs (Some gradeRecords) (Some teacherRecords) settings)) =
    EmailsSent mails ->
  (exists s, settings = Some s /\ ShouldSendEmail s = "true") /\
  NoDup (mailTo <$> mails) /\
  concat (mailFiles <$> mails) ≡ₚ
    (map_to_list (reportFiles (main sort_Slice env sched
       (mkInputs (Some gradeRecords) (Some teacherRecords) settings)))).*2.
Proof.
  intros Hsort Hsched Hout.
  split; [by eapply main_sends|].
  pose proof (main_mails sort_Slice env sched gradeRecords teacherRecords settings
                mails Hout) as Hmails.
  set (r := main sort_Slice env sched
              (mkInputs (Some gradeRecords) (Some teacherRecords) settings)) in *.
  set (teachers := readTeacherCSV teacherRecords) in *.
  pose proof Hsched as (_ & Hfiles & Hplan).
  set (visited := rangeReportFiles sched (reportFiles r)) in *.
  set (plan := groupReportsByTeacher visited (buckets r) teachers) in *.
  split.
  - rewrite Hmails, <- list_fmap_compose.
    change (mailTo ∘ toMail teachers) with (@fst string (list string)).
    rewrite Hplan. apply NoDup_fst_map_to_list.
  - rewrite Hmails, <- list_fmap_compose.
    change (mailFiles ∘ toMail teachers) with (@snd string (list string)).
    rewrite (concat_perm _ (map_to_list plan).*2) by (by rewrite Hplan).
    change (concat (map_to_list plan).*2) with (allRows plan).
    unfold plan. rewrite groupReportsByTeacher_rows.
    + unfold visited. by rewrite Hfiles.
    + intros [key filename] Hin. simpl.
      assert (Hfile : reportFiles r !! key = Some filename).
      { apply elem_of_map_to_list. by rewrite <- (Hfiles (reportFiles r)). }
      destruct (report_has_recipient sort_Slice env Hsort sched gradeRecords
                  teacherRecords settings key filename Hsched Hfile)
        as (grade & teacher & _ & _ & Hrec).
      by eexists.
Qed.

Lemma filed_reports_mailed_once_witness :
  (exists s, Some settingsOn = Some s /\ ShouldSendEmail s = "true") /\
  NoDup (mailTo <$> [mkMail "lee@x.org" "Mr.Lee" ["output/Mr.Lee_年級7_Math.csv"]]) /\
  concat (mailFiles <$> [mkMail "lee@x.org" "Mr.Lee" ["output/Mr.Lee_年級7_Math.csv"]]) ≡ₚ
    (map_to_list (reportFiles (main (@InsertionSort.sort _) env0 schedA
       (mkInputs
          (Some [gradeHeader; ["MATH"; "Math"; "S1"; "7"; "1"; "1"; "Alice"]])
          (Some [teacherHeader; ["MATH"; "Math"; "7"; "1"; ""; "Mr.Lee"; "lee@x.org"]])
          (Some settingsOn))))).*2.
Proof.
  apply (filed_reports_mailed_once (@InsertionSort.sort _) env0 schedA
           [gradeHeader; ["MATH"; "Math"; "S1"; "7"; "1"; "1"; "Alice"]]
           [teacherHeader; ["MATH"; "Math"; "7"; "1"; ""; "Mr.Lee"; "lee@x.org"]]
           (Some settingsOn)).
  - apply InsertionSortFacts.sort_SliceSorts.
  - apply schedA_valid.
  - vm_compute. reflexivity.
Defined.

(** X16.  [getTeacherNameByEmail] gives the name of the first teacher of the
    list with the address, and the address itself when no teacher has it.  In
    a run that sends mail the second case does not occur: the address of
    every mail is the address of a teacher of the list, and the mail is
    addressed by name to the first teacher with that address. *)
Theorem mail_names_first_teacher_of_address sort_Slice env sched gradeRecords
    teacherRecords settings mails :
  validSchedule sched ->
  outcome (main sort_Slice env sched
             (mkInputs (Some gradeRecords) (Some teacherRecords) settings)) =
    EmailsSent mails ->
  (forall teachers email,
     getTeacherNameByEmail teachers email =
     match withEmail email teachers with
     | [] => email
     | teacher :: _ => tTeacherName teacher
     end) /\
  (forall mail, mail ∈ mails ->
     exists teacher others,
       withEmail (mailTo mail) (readTeacherCSV teacherRecords) = teacher :: others /\
       mailName mail = tTeacherName teacher).
Proof.
  intros Hsched Hout. split.
  { intros teachers email. rewrite getTeacherNameByEmail_spec.
    by destruct (withEmail email teachers). }
  pose proof (main_mails sort_Slice env sched gradeRecords teacherRecords settings
                mails Hout) as Hmails.
  set (r := main sort_Slice env sched
              (mkInputs (Some gradeRecords) (Some teacherRecords) settings)) in *.
  set (teachers := readTeacherCSV teacherRecords) in *.
  destruct Hsched as (_ & _ & Hplan).
  intros mail Hmail. rewrite Hmails in Hmail.
  apply list_elem_of_fmap in Hmail as ([email files] & -> & Hin).
  rewrite Hplan in Hin. apply elem_of_map_to_list in Hin.
  rewrite groupReportsByTeacher_spec in Hin.
  apply nonEmpty_Some in Hin as [<- Hne]. simpl.
  destruct (attachmentsFor (buckets r) teachers email _) as [|file files] eqn:Hatt;
    [done|].
  assert (Hfile : file ∈ attachmentsFor (buckets r) teachers email
                    (rangeReportFiles sched (reportFiles r))).
  { rewrite Hatt. apply list_elem_of_here. }
  unfold attachmentsFor in Hfile.
  apply list_elem_of_fmap in Hfile as ([key file'] & _ & Hin).
  apply list_elem_of_filter in Hin as [Hrec _]. simpl in Hrec.
  unfold recipientOf in Hrec.
  destruct (representative (buckets r) key) as [grade|]; [|done].
  unfold scanTeachers in Hrec.
  destruct (withKey (gradeKey grade) teachers) as [|first rest] eqn:Hwith; [done|].
  simpl in Hrec. injection Hrec as Hemail.
  assert (Hfirst : first ∈ withEmail email teachers).
  { apply list_elem_of_filter. split; [done|].
    assert (Hin : first ∈ withKey (gradeKey grade) teachers).
    { rewrite Hwith. apply list_elem_of_here. }
    by apply list_elem_of_filter in Hin as [_ ?]. }
  rewrite getTeacherNameByEmail_spec.
  destruct (withEmail email teachers) as [|teacher others];
    [by apply elem_of_nil in Hfirst|].
  by exists teacher, others.
Qed.

Lemma mail_names_first_teacher_of_address_witness :
  (forall teachers email,
     getTeacherNameByEmail teachers email =
     match withEmail email teachers with
     | [] => email
     | teacher :: _ => tTeacherName teacher
     end) /\
  (forall mail,
     mail ∈ [mkMail "lee@x.org" "Mr.Lee" ["output/Mr.Lee_年級7_Math.csv"]] ->
     exists teacher others,
       withEmail (mailTo mail)
         (readTeacherCSV
            [teacherHeader; ["MATH"; "Math"; "7"; "1"; ""; "Mr.Lee"; "lee@x.org"]]) =
         teacher :: others /\
       mailName mail = tTeacherName teacher).
Proof.
  apply (mail_names_first_teacher_of_address (@InsertionSort.sort _) env0 schedA
           [gradeHeader; ["MATH"; "Math"; "S1"; "7"; "1"; "1"; "Alice"]]
           [teacherHeader; ["MATH"; "Math"; "7"; "1"; ""; "Mr.Lee"; "lee@x.org"]]
           (Some settingsOn)).
  - apply schedA_valid.
  - vm_compute. reflexivity.
Defined.

(** ** Buckets after the run *)

(** X17.  The sort of [createCSVReport] works on the slice stored in
    [reportData], so the buckets of a run that could make its output
    directory are those of the matcher with their rows rearranged: a bucket
    whose file could be created and its header written is left sorted, a
    bucket whose file could not be created is left in input order, and the
    rows of a bucket are the same in either case. *)
Theorem buckets_sorted_in_place sort_Slice env sched gradeRecords teacherRecords
    settings key :
  SliceSorts sort_Slice -> validSchedule sched -> mkdir_ok env = true ->
  let r := main sort_Slice env sched
             (mkInputs (Some gradeRecords) (Some teacherRecords) settings) in
  match (matched gradeRecords teacherRecords).1 !! key with
  | None => buckets r !! key = None
  | Some grades0 =>
      exists grades,
        buckets r !! key = Some grades /\ grades ≡ₚ grades0 /\
        (create_ok env (reportFileName key) = false -> grades = grades0) /\
        (create_ok env (reportFileName key) = true ->
         canWrite (write_quota env (reportFileName key)) 0 = true ->
         grades = sort_Slice gradeLess grades0)
  end.
Proof.
  intros Hsort Hsched Hdir r.
  pose proof (main_readable sort_Slice env sched gradeRecords teacherRecords settings)
    as Hrun.
  cbv zeta in Hrun. fold r in Hrun. unfold written in Hrun.
  set (reportData := (matched gradeRecords teacherRecords).1) in *.
  destruct (visited_keys sched reportData Hsched) as (Hnodup & Hentries & Hkeys).
  rewrite generateCSVReports_parts in Hrun by done.
  destruct Hrun as (_ & -> & _).
  destruct (reportData !! key) as [grades0|] eqn:Hlook.
  - apply Hentries in Hlook.
    exists (reportBucket sort_Slice env (reportFileName key) grades0).
    split; [by apply foldl_bucketStep_lookup|].
    split; [by apply reportBucket_perm|].
    unfold reportBucket. split.
    + by intros ->.
    + intros -> Htaken. by rewrite writeFails_taken.
  - rewrite foldl_bucketStep_other; [done|].
    rewrite Hkeys, Hlook. by intros [? ?].
Qed.

Lemma buckets_sorted_in_place_witness :
  let gradeRecords :=
    [gradeHeader;
     ["MATH"; "Math"; "S1"; "7"; "1"; "10"; "Alice"];
     ["MATH"; "Math"; "S2"; "7"; "1"; "9"; "Bob"]] in
  let teacherRecords :=
    [teacherHeader; ["MATH"; "Math"; "7"; "1"; ""; "Mr.Lee"; "lee@x.org"]] in
  let key := mkReportKey "Mr.Lee" "7" "MATH" "Math" in
  let r := main (@InsertionSort.sort _) env0 schedA
             (mkInputs (Some gradeRecords) (Some teacherRecords) (Some settingsOn)) in
  match (matched gradeRecords teacherRecords).1 !! key with
  | None => buckets r !! key = None
  | Some grades0 =>
      exists grades,
        buckets r !! key = Some grades /\ grades ≡ₚ grades0 /\
        (create_ok env0 (reportFileName key) = false -> grades = grades0) /\
        (create_ok env0 (reportFileName key) = true ->
         canWrite (write_quota env0 (reportFileName key)) 0 = true ->
         grades = InsertionSort.sort gradeLess grades0)
  end.
Proof.
  intros gradeRecords teacherRecords key.
  apply (buckets_sorted_in_place (@InsertionSort.sort _) env0 schedA gradeRecords
           teacherRecords (Some settingsOn) key).
  - apply InsertionSortFacts.sort_SliceSorts.
  - apply schedA_valid.
  - reflexivity.
Defined.

Lemma filter_none {A} (P : A -> Prop) `{forall x, Decision (P x)} (l : list A) :
  (forall x, x ∈ l -> ~ P x) -> filter P l = [].
Proof.
  induction l as [|x l IH]; intros Hall; [done|].
  rewrite filter_cons, decide_False by (apply Hall; set_solver).
  apply IH. intros y Hy. apply Hall. set_solver.
Qed.

Lemma filter_all {A} (P : A -> Prop) `{forall x, Decision (P x)} (l : list A) :
  (forall x, x ∈ l -> P x) -> filter P l = l.
Proof.
  induction l as [|x l IH]; intros Hall; [done|].
  rewrite filter_cons, decide_True by (apply Hall; set_solver).
  f_equal. apply IH. intros y Hy. apply Hall. set_solver.
Qed.

(** X18.  When no admitted grade row has a teacher (the teacher table is
    empty, say, or holds short rows only) the run has no bucket, files no
    report and ends fatally for want of reports; all admitted rows are
    unmatched, in input order, and the only file there can be is the file of
    the unmatched rows, which holds the header and all admitted rows when it
    can be written. *)
Theorem run_without_any_match sort_Slice env sched gradeRecords teacherRecords
    settings :
  validSchedule sched ->
  (forall g, g ∈ (readGradeCSV gradeRecords).1 ->
     buildTeacherMap (readTeacherCSV teacherRecords) !! gradeKey g = None) ->
  let r := main sort_Slice env sched
             (mkInputs (Some gradeRecords) (Some teacherRecords) settings) in
  outcome r = FatalNoReports /\ buckets r = ∅ /\ reportFiles r = ∅ /\
  unmatched r = (readGradeCSV gradeRecords).1 /\
  (forall filename, is_Some (disk r !! filename) ->
     filename = Filepath.Join outputDir "error.csv") /\
  (writable env "output/error.csv" -> unmatched r <> [] ->
   disk r !! Filepath.Join outputDir "error.csv" =
     Some (headerOf gradeRecords :: (Row <$> unmatched r))).
Proof.
  intros Hsched Hnone.
  destruct (matchStudentsToTeachers_spec (readGradeCSV gradeRecords).1
              (buildTeacherMap (readTeacherCSV teacherRecords))) as [Hd He].
  assert (Hdata : (matchStudentsToTeachers (readGradeCSV gradeRecords).1
                     (buildTeacherMap (readTeacherCSV teacherRecords))).1 = ∅).
  { apply map_eq. intros key. rewrite Hd, lookup_empty. unfold rowsFor.
    rewrite filter_none; [done|].
    intros g Hin. unfold bucketOf. by rewrite (Hnone g Hin). }
  assert (Herrs : (matchStudentsToTeachers (readGradeCSV gradeRecords).1
                     (buildTeacherMap (readTeacherCSV teacherRecords))).2 =
                  (readGradeCSV gradeRecords).1).
  { rewrite He. unfold rowsUnmatched. by apply filter_all. }
  assert (Hvisit : rangeReportData sched ∅ = []).
  { destruct Hsched as (Hperm & _). apply Permutation_nil_r.
    by rewrite Hperm, map_to_list_empty. }
  unfold main. simpl.
  destruct (readGradeCSV gradeRecords) as [grades log]. simpl in *.
  destruct (matchStudentsToTeachers _ _) as [reportData errorRecords].
  simpl in Hdata, Herrs. subst reportData errorRecords.
  pose proof (exportUnmatched_only_error_file env (headerOf gradeRecords) log grades)
    as Honly.
  destruct (exportUnmatched _ _ _ _) as [disk0 log0] eqn:Hexport.
  destruct Honly as [Honly _].
  unfold generateCSVReports. rewrite Hvisit.
  assert (Hreports :
            (if negb (mkdir_ok env)
             then (disk0, (∅ : gmap ReportKey (list GradeRecord)),
                   (∅ : gmap ReportKey string), [ErrMkdir])
             else foldl (reportStep sort_Slice env (headerOf gradeRecords))
                    (disk0, ∅, ∅, []) []) =
            (disk0, ∅, ∅, if mkdir_ok env then [] else [ErrMkdir])).
  { by destruct (mkdir_ok env). }
  rewrite Hreports.
  simpl. split; [done|]. split; [done|]. split; [done|]. split; [done|]. split.
  - intros filename [content Hcontent]. by destruct (Honly _ _ Hcontent) as [-> _].
  - intros Hwritable Hsome. unfold exportUnmatched in Hexport.
    destruct grades as [|g grades]; [done|].
    change (0 <? length (g :: grades)) with true in Hexport. cbv iota in Hexport.
    rewrite generateErrorCSV_writable in Hexport by done.
    injection Hexport as <- _. apply lookup_insert_eq.
Qed.

Lemma run_without_any_match_witness :
  let gradeRecords := [gradeHeader; ["MATH"; "Math"; "S1"; "7"; "1"; "1"; "Alice"]] in
  let r := main (@InsertionSort.sort _) env0 schedA
             (mkInputs (Some gradeRecords) (Some [teacherHeader]) (Some settingsOn)) in
  outcome r = FatalNoReports /\ buckets r = ∅ /\ reportFiles r = ∅ /\
  unmatched r = (readGradeCSV gradeRecords).1 /\
  (forall filename, is_Some (disk r !! filename) ->
     filename = Filepath.Join outputDir "error.csv") /\
  (writable env0 "output/error.csv" -> unmatched r <> [] ->
   disk r !! Filepath.Join outputDir "error.csv" =
     Some (headerOf gradeRecords :: (Row <$> unmatched r))).
Proof.
  intros gradeRecords.
  apply (run_without_any_match (@InsertionSort.sort _) env0 schedA gradeRecords
           [teacherHeader] (Some settingsOn)).
  - apply schedA_valid.
  - intros g _. reflexivity.
Defined.

(** ** A report among failing ones *)

Lemma foldl_diskStep_lookup_alone sort_Slice env csvHeaders disk
    (visited : list (ReportKey * list GradeRecord)) key grades :
  NoDup visited.*1 -> (key, grades) ∈ visited ->
  (forall key' grades', (key', grades') ∈ visited ->
     reportFileName key' = reportFileName key -> key' = key) ->
  foldl (diskStep sort_Slice env csvHeaders) disk visited !! reportFileName key =
  match reportContent sort_Slice env csvHeaders (reportFileName key) grades with
  | Some content => Some content
  | None => disk !! reportFileName key
  end.
Proof.
  revert disk. induction visited as [|entry visited IH]; intros disk.
  { by intros _ ?%elem_of_nil. }
  rewrite fmap_cons, NoDup_cons. intros [Hnotin Hnodup] Hin Halone.
  apply elem_of_cons in Hin as [<-|Hin].
  - simpl in *. rewrite foldl_diskStep_other.
    + unfold diskStep, putFile. simpl.
      destruct (reportContent _ _ _ _ _); [|done]. apply lookup_insert_eq.
    + intros ([key' grades'] & Heq & Hin')%list_elem_of_fmap. simpl in Heq.
      apply Hnotin. apply list_elem_of_fmap. exists (key', grades').
      split; [|done]. simpl. symmetry. apply (Halone key' grades'); [|done].
      by apply list_elem_of_further.
  - simpl. rewrite IH; [|done|done|].
    + destruct (reportContent _ _ _ _ grades); [done|].
      unfold diskStep, putFile.
      destruct (reportContent _ _ _ _ entry.2); [|done].
      rewrite lookup_insert_ne; [done|].
      intros Heq. apply Hnotin.
      rewrite (Halone entry.1 entry.2 ltac:(destruct entry; apply list_elem_of_here) Heq).
      apply list_elem_of_fmap. by exists (key, grades).
    + intros key' grades' Hin'. apply (Halone key' grades').
      by apply list_elem_of_further.
Qed.

(** X19.  A report is not harmed by failures elsewhere: when the output
    directory can be made and the file of a bucket can be created and
    written, and no other bucket has the same path, the report is filed and
    its file holds the header and the sorted rows of the bucket, whatever
    happens to the export of the unmatched rows and to the other reports. *)
Theorem report_unharmed_by_other_failures sort_Slice env sched gradeRecords
    teacherRecords settings key grades0 :
  validSchedule sched ->
  writable env (reportFileName key) ->
  (matched gradeRecords teacherRecords).1 !! key = Some grades0 ->
  (forall key', is_Some ((matched gradeRecords teacherRecords).1 !! key') ->
     reportFileName key' = reportFileName key -> key' = key) ->
  let r := main sort_Slice env sched
             (mkInputs (Some gradeRecords) (Some teacherRecords) settings) in
  reportFiles r !! key = Some (reportFileName key) /\
  buckets r !! key = Some (sort_Slice gradeLess grades0) /\
  disk r !! reportFileName key =
    Some (headerOf gradeRecords :: (Row <$> sort_Slice gradeLess grades0)) /\
  isFatal (outcome r) = false.
Proof.
  intros Hsched (Hdir & Hcreate & Hquota) Hlook Halone r.
  pose proof (main_readable sort_Slice env sched gradeRecords teacherRecords settings)
    as Hrun.
  cbv zeta in Hrun. fold r in Hrun. unfold written in Hrun.
  set (reportData := (matched gradeRecords teacherRecords).1) in *.
  destruct (visited_keys sched reportData Hsched) as (Hnodup & Hentries & Hkeys).
  rewrite generateCSVReports_parts in Hrun by done.
  destruct Hrun as (-> & -> & Hfiles & _ & -> & _).
  apply Hentries in Hlook.
  assert (Hfiled : reportFiles r !! key = Some (reportFileName key)).
  { rewrite Hfiles, (foldl_filesStep_lookup _ _ _ _ grades0) by done.
    unfold reportErr. rewrite Hcreate, Hquota. simpl.
    by rewrite writeRows_unlimited. }
  split; [done|]. split; [|split].
  - rewrite (foldl_bucketStep_lookup _ _ _ _ key grades0) by done.
    unfold reportBucket. by rewrite Hcreate, Hquota.
  - rewrite (foldl_diskStep_lookup_alone _ _ _ _ _ key grades0); [|done|done|].
    + unfold reportContent. rewrite Hcreate, Hquota. cbn [negb writeFails].
      by rewrite writeRows_unlimited, flushed_unlimited.
    + intros key' grades' Hin' Hpath. apply Halone; [|done].
      apply Hentries in Hin'. by eexists.
  - rewrite <- Hfiles. apply Nat.eqb_neq. intros Hsize.
    apply map_size_empty_iff in Hsize. by rewrite Hsize, lookup_empty in Hfiled.
Qed.

Lemma report_unharmed_by_other_failures_witness :
  let gradeRecords :=
    [gradeHeader;
     ["MATH"; "Math"; "S1"; "7"; "1"; "1"; "Alice"];
     ["ENG"; "English"; "S1"; "7"; "1"; "1"; "Alice"]] in
  let teacherRecords :=
    [teacherHeader;
     ["MATH"; "Math"; "7"; "1"; ""; "Mr.Lee"; "lee@x.org"];
     ["ENG"; "English"; "7"; "1"; ""; "Ms.Kim"; "kim@x.org"]] in
  let env :=
    mkEnv true (fun filename => String.eqb filename "output/Mr.Lee_年級7_Math.csv")
      (fun _ => None) (fun _ => None) in
  let key := mkReportKey "Mr.Lee" "7" "MATH" "Math" in
  let grades0 := [mkGrade ["MATH"; "Math"; "S1"; "7"; "1"; "1"; "Alice"]] in
  let r := main (@InsertionSort.sort _) env schedA
             (mkInputs (Some gradeRecords) (Some teacherRecords) (Some settingsOn)) in
  reportFiles r !! key = Some (reportFileName key) /\
  buckets r !! key = Some (InsertionSort.sort gradeLess grades0) /\
  disk r !! reportFileName key =
    Some (headerOf gradeRecords :: (Row <$> InsertionSort.sort gradeLess grades0)) /\
  isFatal (outcome r) = false.
Proof.
  intros gradeRecords teacherRecords env key grades0.
  apply (report_unharmed_by_other_failures (@InsertionSort.sort _) env schedA
           gradeRecords teacherRecords (Some settingsOn) key grades0).
  - apply schedA_valid.
  - repeat split; reflexivity.
  - vm_compute. reflexivity.
  - intros key' [rows Hin] Hpath. apply elem_of_map_to_list in Hin.
    assert (Hlist : map_to_list (matched gradeRecords teacherRecords).1 =
              [(mkReportKey "Mr.Lee" "7" "MATH" "Math",
                [mkGrade ["MATH"; "Math"; "S1"; "7"; "1"; "1"; "Alice"]]);
               (mkReportKey "Ms.Kim" "7" "ENG" "English",
                [mkGrade ["ENG"; "English"; "S1"; "7"; "1"; "1"; "Alice"]])])
      by (vm_compute; reflexivity).
    rewrite Hlist in Hin.
    apply elem_of_cons in Hin as [[= -> _]|Hin]; [reflexivity|].
    apply elem_of_cons in Hin as [[= -> _]|Hin];
      [vm_compute in Hpath; discriminate Hpath|].
    apply elem_of_nil in Hin. destruct Hin.
Defined.

(** ** The unmatched rows of a run *)







